(** * CALDROS-GTO: signal fusion, EV engine, risk manager, execution engine

    A shallow embedding of the decision core of the repository
    (signal_engine/core.py, ev_engine/core.py, risk_management/manager.py,
    execution_system/executor.py) and the properties of it that the
    specification states, followed by the feature computation of
    data_ingestion/manager.py, the statistics of ai_adaptation/online.py
    and further properties of the whole.

    Conventions of the embedding:
    - a Python float is a rational ([Q]).  Where a result of float
      arithmetic is compared with a threshold that it can come to within
      a rounding error of (the drawdown of the account, the risk heat of
      the hedge, the features of the ingestion manager), every operation
      is rounded by the function [float_round] of [Env] and a decimal
      literal is the rounded rational; about that function the theorems
      assume at most that it is [accurate].  Elsewhere the arithmetic is
      that of the rationals and a literal is the rational it denotes;
    - a [datetime] is a number of microseconds ([Z]), a [timedelta] a
      difference of such numbers;
    - a dict that is only looked up is a [gmap string _]; a dict that is
      iterated or built key by key is the list of its items, in insertion
      order;
    - an exception is a value of [Exn]; a method that mutates its object runs
      in the monad [M], in which the mutations made before an exception
      survive it, as they do in Python;
    - the clock, the random generators and the accounting collaborator are
      oracles ([Env]) indexed by the number of readings made so far. *)

From Stdlib Require Import QArith Qabs Lqa ZArith Lia List.
From stdpp Require Import gmap strings.

Open Scope Q_scope.
Open Scope string_scope.
Open Scope list_scope.

(** ** Python primitives *)

Inductive Exn : Type :=
| KeyError (key : string)
| ZeroDivisionError
| ValueError
| TypeError.

Inductive Outcome (A : Type) : Type :=
| Return (a : A)
| Raise (e : Exn).
Arguments Return {A} a.
Arguments Raise {A} e.

Definition obind {A B} (o : Outcome A) (k : A -> Outcome B) : Outcome B :=
  match o with
  | Return a => k a
  | Raise e => Raise e
  end.

Notation "'let?' x ':=' o 'in' k" := (obind o (fun x => k))
  (at level 10, x pattern, o at level 100, k at level 200, only parsing).

(** Comparisons of floats, read in the order of the source. *)
Definition Qlt_bool (a b : Q) : bool := negb (Qle_bool b a).
Definition Qgt_bool (a b : Q) : bool := Qlt_bool b a.
Definition Qge_bool (a b : Q) : bool := Qle_bool b a.

(** [a / b] on Python floats. *)
Definition py_truediv (a b : Q) : Outcome Q :=
  if Qeq_bool b 0 then Raise ZeroDivisionError else Return (a / b).

(** The builtin [min(a, b)]: [b] only when it is strictly smaller. *)
Definition py_min (a b : Q) : Q := if Qlt_bool b a then b else a.

(** The builtin [max] over an iterable; an empty one is a ValueError. *)
Definition py_max (l : list Q) : Outcome Q :=
  match l with
  | [] => Raise ValueError
  | x :: xs => Return (fold_left (fun m y => if Qgt_bool y m then y else m) xs x)
  end.

(** The builtin [sum], which starts from 0. *)
Definition py_sum (l : list Q) : Q := fold_left Qplus l 0.

(** The builtin [sum] on floats: every addition is rounded by [round]. *)
Definition float_sum (round : Q -> Q) (l : list Q) : Q :=
  fold_left (fun acc x => round (acc + x)) l 0.

(** [np.clip(x, lo, hi)], that is [minimum(maximum(x, lo), hi)]. *)
Definition np_clip (x lo hi : Q) : Q :=
  let m := if Qlt_bool x lo then lo else x in
  if Qlt_bool hi m then hi else m.

(** [d[key]] and [d.get(key, default)] on a dict that is only looked up. *)
Definition getitem {V} (d : gmap string V) (key : string) : Outcome V :=
  match d !! key with
  | Some v => Return v
  | None => Raise (KeyError key)
  end.

Definition dict_get {V} (d : gmap string V) (key : string) (dflt : V) : V :=
  default dflt (d !! key).

(** [d[key] = v] and [d.get(key, default)] on a dict kept as its items. *)
Fixpoint setitem {V} (d : list (string * V)) (key : string) (v : V)
  : list (string * V) :=
  match d with
  | [] => [(key, v)]
  | (k, v') :: rest =>
      if String.eqb k key then (k, v) :: rest else (k, v') :: setitem rest key v
  end.

Fixpoint items_get {V} (d : list (string * V)) (key : string) (dflt : V) : V :=
  match d with
  | [] => dflt
  | (k, v) :: rest => if String.eqb k key then v else items_get rest key dflt
  end.

Definition values {V} (d : list (string * V)) : list V := map snd d.

(** [l[-n:]]: the last [n] elements. *)
Definition last_n {A} (n : nat) (l : list A) : list A :=
  skipn (length l - n) l.

(** [timedelta(minutes=m)] and [timedelta(hours=h)], in microseconds. *)
Definition timedelta_minutes (m : Z) : Z := (m * 60 * 1000000)%Z.
Definition timedelta_hours (h : Z) : Z := (h * 3600 * 1000000)%Z.

(** ** Data model *)

Inductive Tier : Type :=
| T1_explosive | T2_strong | T3_moderate | T4_neutral | T5_scalping
| T6_defensive.

(** The position of a tier in the ordering of the bands, lowest band first. *)
Definition tier_rank (t : Tier) : nat :=
  match t with
  | T6_defensive => 0
  | T5_scalping => 1
  | T4_neutral => 2
  | T3_moderate => 3
  | T2_strong => 4
  | T1_explosive => 5
  end.

(** An entry of [SignalEngine.signals]. *)
Record Signal : Type := {
  signal_score : Q;
  EV_estimate : Q;
  signal_tier : Tier;
  signal_components : list (string * Q)
}.

(** An entry of [SignalEngine.history]. *)
Record SignalRecord : Type := {
  sr_t : Z;
  sr_symbol : string;
  sr_score : Q;
  sr_ev : Q;
  sr_tier : Tier
}.

(** An entry of [EVEngine.history]. *)
Record TradeHistoryEntry : Type := {
  th_symbol : string;
  th_p : Q;
  th_G : Q;
  th_L : Q;
  th_EV : Q;
  th_tier : Tier;
  th_win : bool
}.

(** The dict returned by [EVEngine.calculate_ev_for_symbol]. *)
Record EVResult : Type := {
  symbol : string;
  p_win : Q;
  G : Q;
  L : Q;
  EV : Q;
  tier : Tier;
  kelly_position : Q;
  recommended_leverage : Z;
  components : list (string * Q)
}.

Inductive Side : Type := BUY | SELL.

(** The dict returned by [ExecutionEngine._mock_order]. *)
Record Order : Type := {
  order_symbol : string;
  side : Side;
  order_size : Q;
  order_leverage : Z;
  timestamp : Z
}.

(** An entry of [ExecutionEngine.active_positions]. *)
Record Position : Type := {
  entry_time : Z;
  entry_price : Q;
  leverage : Z;
  notional : Q;
  ev_entry : Q;
  direction : Side;
  open : bool
}.

(** What the loggers are handed. *)
Inductive LogRecord : Type :=
| LogEntry (sym : string) (ev notional : Q) (lev : Z)
| LogExit (sym : string) (reason : string)
| LogBreakerPaused
| LogNegativeEV (sym : string)
| LogBreakerBlocked
| LogEVTooLow
| LogDrawdownExceeded (drawdown : Q)
| LogMarginLow (margin_ratio : Q)
| LogBreakerTriggered (reason : string)
| LogBreakerResumed
| LogHedge
| LogCapitalPreservation
| LogSignalFailure (e : Exn).

Record SignalEngineState : Type := {
  signals : gmap string Signal;
  signal_history : list SignalRecord;
  weights : gmap string Q;
  activation_threshold : Q
}.

Record EVEngineState : Type := {
  beta_prior_alpha : Q;
  beta_prior_beta : Q;
  trade_window : Z;
  history : list TradeHistoryEntry
}.

Record RiskManagerState : Type := {
  drawdown_history : list Q;
  loss_streak : nat;
  circuit_breaker_active : bool;
  last_trigger_time : option Z;
  max_daily_loss : Q
}.

Record ExecutionEngineState : Type := {
  active_positions : gmap string Position;
  cooldowns : gmap string Z;
  trade_log : list Order
}.

(** The entries of production.json that are read while the engines run. *)
Record Config : Type := {
  base_threshold : Q;
  daily_drawdown_limit_pct : Q;
  margin_health_threshold : Q
}.

(** The whole process: the four objects, the configuration they share, the
    log, and the number of oracle readings made so far. *)
Record World : Type := {
  config : Config;
  signal_engine : SignalEngineState;
  ev_engine : EVEngineState;
  risk_manager : RiskManagerState;
  executor : ExecutionEngineState;
  log : list LogRecord;
  readings : nat
}.

(** The collaborators outside the core. The [k]-th reading of the process
    is answered by the oracle at index [k]. [float_round] is the rounding
    of the float arithmetic of the host, to the nearest float: it is
    applied where the code compares a difference or a quotient that it has
    just computed against a limit. *)
Record Env : Type := {
  utcnow_at : nat -> Z;
  random_choice_at : nat -> bool;
  randint_at : nat -> Z -> Z -> Z;
  np_exp : Q -> Q;
  available_balance_at : nat -> Q;
  equity_at : nat -> Q;
  equity_peak_at : nat -> Q;
  margin_ratio_at : nat -> Q;
  float_round : Q -> Q
}.

(** ** The monad of methods *)

Definition M (A : Type) : Type := Env -> World -> World * Outcome A.

Definition ret {A} (a : A) : M A := fun _ w => (w, Return a).

Definition bind {A B} (m : M A) (k : A -> M B) : M B :=
  fun env w =>
    match m env w with
    | (w', Return a) => k a env w'
    | (w', Raise e) => (w', Raise e)
    end.

Definition lift {A} (o : Outcome A) : M A := fun _ w => (w, o).

Definition gets {A} (f : World -> A) : M A := fun _ w => (w, Return (f w)).

Definition modify (f : World -> World) : M unit := fun _ w => (f w, Return tt).

Definition when (b : bool) (m : M unit) : M unit := if b then m else ret tt.

(** [try: m except Exception as e: h e]. *)
Definition try_except {A} (m : M A) (h : Exn -> M A) : M A :=
  fun env w =>
    match m env w with
    | (w', Return a) => (w', Return a)
    | (w', Raise e) => h e env w'
    end.

Notation "'let*' x ':=' m 'in' k" := (bind m (fun x => k))
  (at level 10, x pattern, m at level 100, k at level 200, only parsing).
Notation "m1 ;; m2" := (bind m1 (fun _ => m2))
  (at level 100, m2 at level 200, right associativity, only parsing).

Definition set_signal_engine (f : SignalEngineState -> SignalEngineState)
  (w : World) : World :=
  {| config := config w; signal_engine := f (signal_engine w);
     ev_engine := ev_engine w; risk_manager := risk_manager w;
     executor := executor w; log := log w; readings := readings w |}.

Definition set_ev_engine (f : EVEngineState -> EVEngineState) (w : World)
  : World :=
  {| config := config w; signal_engine := signal_engine w;
     ev_engine := f (ev_engine w); risk_manager := risk_manager w;
     executor := executor w; log := log w; readings := readings w |}.

Definition set_risk_manager (f : RiskManagerState -> RiskManagerState)
  (w : World) : World :=
  {| config := config w; signal_engine := signal_engine w;
     ev_engine := ev_engine w; risk_manager := f (risk_manager w);
     executor := executor w; log := log w; readings := readings w |}.

Definition set_executor (f : ExecutionEngineState -> ExecutionEngineState)
  (w : World) : World :=
  {| config := config w; signal_engine := signal_engine w;
     ev_engine := ev_engine w; risk_manager := risk_manager w;
     executor := f (executor w); log := log w; readings := readings w |}.

Definition add_log (r : LogRecord) (w : World) : World :=
  {| config := config w; signal_engine := signal_engine w;
     ev_engine := ev_engine w; risk_manager := risk_manager w;
     executor := executor w; log := log w ++ [r]; readings := readings w |}.

Definition tick (w : World) : World :=
  {| config := config w; signal_engine := signal_engine w;
     ev_engine := ev_engine w; risk_manager := risk_manager w;
     executor := executor w; log := log w; readings := S (readings w) |}.

(** One reading of an oracle. *)
Definition reading {A} (f : Env -> nat -> A) : M A :=
  fun env w => (tick w, Return (f env (readings w))).

Definition utcnow : M Z := reading utcnow_at.
Definition random_choice : M bool := reading random_choice_at.
Definition np_random_randint (lo hi : Z) : M Z :=
  reading (fun env k => randint_at env k lo hi).
Definition logging (r : LogRecord) : M unit := modify (add_log r).
Definition exp_of : M (Q -> Q) := fun env w => (w, Return (np_exp env)).
Definition float_of : M (Q -> Q) := fun env w => (w, Return (float_round env)).
Definition weights_of (w : World) : gmap string Q := weights (signal_engine w).
Definition threshold_of (w : World) : Q := activation_threshold (signal_engine w).

(** ** signal_engine/core.py *)

Module SignalEngine.

(** [_fusion(feat)]: the breakdown, in insertion order, and its sum. *)
Definition _fusion (weights : gmap string Q) (feat : gmap string Q)
  : Outcome (list (string * Q) * Q) :=
  let breakdown : list (string * Q) := [] in
  let breakout := if Qgt_bool (dict_get feat "price_velocity" 0) 0.0005 then 1 else 0 in
  let? w := getitem weights "breakout" in
  let breakdown := setitem breakdown "breakout" (breakout * w) in
  let momentum := py_min (dict_get feat "volume_acceleration" 0 / 5) 1 in
  let? w := getitem weights "momentum" in
  let breakdown := setitem breakdown "momentum" (momentum * w) in
  let whale := py_min (dict_get feat "liquidation_heat" 0 / 10) 1 in
  let? w := getitem weights "whale_flow" in
  let breakdown := setitem breakdown "whale_flow" (whale * w) in
  let ob_imbalance := py_min (Qabs (dict_get feat "order_imbalance" 0)) 1 in
  let? w := getitem weights "orderbook_imbalance" in
  let breakdown := setitem breakdown "orderbook_imbalance" (ob_imbalance * w) in
  let funding_flip := if Qgt_bool (dict_get feat "funding_bias" 0) 0 then 0.2 else -0.2 in
  let? w := getitem weights "funding_flip" in
  let breakdown := setitem breakdown "funding_flip" (funding_flip * w) in
  let info_signal := dict_get feat "macro_sentiment_score" 0 in
  let? w := getitem weights "macro_sentiment" in
  let breakdown := setitem breakdown "macro_sentiment" (info_signal * w) in
  let onchain := dict_get feat "onchain_score" 0 in
  let? w := getitem weights "onchain_flow" in
  let breakdown := setitem breakdown "onchain_flow" (onchain * w) in
  let etf_flow := dict_get feat "etf_flow_score" 0 in
  let breakdown := setitem breakdown "etf_flow" (etf_flow * dict_get weights "etf_flow" 0) in
  let social := dict_get feat "social_sentiment_score" 0 in
  let breakdown :=
    setitem breakdown "social_sentiment" (social * dict_get weights "social_sentiment" 0) in
  let total_score := py_sum (values breakdown) in
  Return (breakdown, total_score).

(** [_ev_classify(score, feat)]. The quotient is one of numpy floats, which
    does not raise. *)
Definition _ev_classify (exp : Q -> Q) (activation_threshold : Q) (score : Q)
  (feat : gmap string Q) : Q * Tier :=
  let p := 1 / (1 + exp (-6 * (score - activation_threshold))) in
  let G := 1.0 + 2.5 * dict_get feat "volume_acceleration" 0 / 5 in
  let L := 1.0 + dict_get feat "volatility" 1.0 in
  let ev := p * G - (1 - p) * L - 0.0016 in
  let tier :=
    if Qge_bool ev 0.35 then T1_explosive
    else if Qge_bool ev 0.20 then T2_strong
    else if Qge_bool ev 0.10 then T3_moderate
    else if Qge_bool ev 0.03 then T4_neutral
    else if Qge_bool ev (-0.02) then T5_scalping
    else T6_defensive in
  (ev, tier).

(** [deque(maxlen=...).append(x)]: the item goes to the right end and, when
    the deque is then longer than [maxlen], the leftmost item is dropped. *)
Definition deque_append {A} (maxlen : nat) (d : list A) (x : A) : list A :=
  let d' := d ++ [x] in
  if (maxlen <? length d')%nat then tl d' else d'.

Definition history_maxlen : nat := 1000.

Definition append_history (r : SignalRecord) (s : SignalEngineState)
  : SignalEngineState :=
  {| signals := signals s;
     signal_history := deque_append history_maxlen (signal_history s) r;
     weights := weights s;
     activation_threshold := activation_threshold s |}.

Definition set_signals (sg : gmap string Signal) (s : SignalEngineState)
  : SignalEngineState :=
  {| signals := sg; signal_history := signal_history s; weights := weights s;
     activation_threshold := activation_threshold s |}.

(** The loop of [_compute_signals] over [features.items()]. *)
Fixpoint _compute_signals_from (features : list (string * gmap string Q))
  (signals : gmap string Signal) : M (gmap string Signal) :=
  match features with
  | [] => ret signals
  | (symbol, feat) :: rest =>
      let* w := gets weights_of in
      let* fused := lift (_fusion w feat) in
      let '(score_breakdown, weighted_score) := fused in
      let* exp := exp_of in
      let* threshold := gets threshold_of in
      let '(ev, tier) := _ev_classify exp threshold weighted_score feat in
      let signals :=
        <[symbol := {| signal_score := weighted_score; EV_estimate := ev;
                       signal_tier := tier;
                       signal_components := score_breakdown |}]> signals in
      let* t := utcnow in
      modify (set_signal_engine (append_history
        {| sr_t := t; sr_symbol := symbol; sr_score := weighted_score;
           sr_ev := ev; sr_tier := tier |})) ;;
      _compute_signals_from rest signals
  end.

Definition _compute_signals (features : list (string * gmap string Q))
  : M (gmap string Signal) :=
  _compute_signals_from features ∅.

(** One turn of the loop of [run], without its sleep. *)
Definition run_turn (features : list (string * gmap string Q)) : M unit :=
  try_except
    (let* sg := _compute_signals features in
     modify (set_signal_engine (set_signals sg)))
    (fun e => logging (LogSignalFailure e)).

(** [get_signal(symbol)]: [None] stands for the empty dict. *)
Definition get_signal (symbol : string) : M (option Signal) :=
  gets (fun w => signals (signal_engine w) !! symbol).

Definition get_historical_signals : M (list SignalRecord) :=
  gets (fun w => signal_history (signal_engine w)).

End SignalEngine.

(** ** ev_engine/core.py *)

Module EVEngine.

(** [sum(1 for t in history if cond(t))]. *)
Definition count_trades (cond : TradeHistoryEntry -> bool)
  (history : list TradeHistoryEntry) : Z :=
  Z.of_nat (length (List.filter cond history)).

Definition _estimate_probability (exp : Q -> Q) (self : EVEngineState)
  (symbol : string) (score : Q) (state : gmap string Q) : Outcome Q :=
  let α0 := beta_prior_alpha self in
  let β0 := beta_prior_beta self in
  let past_wins :=
    count_trades (fun t => String.eqb (th_symbol t) symbol && th_win t)
      (history self) in
  let past_losses :=
    count_trades (fun t => String.eqb (th_symbol t) symbol && negb (th_win t))
      (history self) in
  let α_post := α0 + inject_Z past_wins + score * 10 in
  let β_post := β0 + inject_Z past_losses + (1 - score) * 10 in
  let? p := py_truediv α_post (α_post + β_post) in
  let vol_penalty := exp (- dict_get state "volatility" 0.5) in
  let trend_boost := 1 + 0.15 * dict_get state "trend_consistency" 0.0 in
  let p := p * (vol_penalty * trend_boost) in
  Return (np_clip p 0.01 0.99).

Definition _estimate_gain (state : gmap string Q) : Q :=
  let atr := dict_get state "ATR" 0.01 in
  let momentum := dict_get state "momentum" 1.0 in
  let liquidity := dict_get state "liquidity_score" 1.0 in
  let G := 1 + 3 * atr * momentum * liquidity in
  np_clip G 0.5 5.0.

Definition _estimate_loss (state : gmap string Q) : Outcome Q :=
  let vol := dict_get state "volatility" 1.0 in
  let depth := dict_get state "depth_score" 1.0 in
  let slippage := dict_get state "slippage" 0.01 in
  let? inv_depth := py_truediv 1 depth in
  let L := 1 + 2 * vol * inv_depth + slippage * 10 in
  Return (np_clip L 0.5 5.0).

Definition _estimate_fees (state : gmap string Q) : Q :=
  let base_fee := 0.0016 in
  let funding := Qabs (dict_get state "funding_rate" 0.0) * 10 in
  let slippage_cost := dict_get state "slippage" 0.01 * 2 in
  base_fee + funding + slippage_cost.

Definition _classify_ev (ev : Q) : Tier :=
  if Qge_bool ev 0.35 then T1_explosive
  else if Qge_bool ev 0.20 then T2_strong
  else if Qge_bool ev 0.10 then T3_moderate
  else if Qge_bool ev 0.03 then T4_neutral
  else if Qge_bool ev (-0.02) then T5_scalping
  else T6_defensive.

Definition _recommend_leverage (ev : Q) : M Z :=
  if Qge_bool ev 0.35 then np_random_randint 90 120
  else if Qge_bool ev 0.20 then np_random_randint 50 85
  else if Qge_bool ev 0.10 then np_random_randint 20 50
  else if Qge_bool ev 0.03 then np_random_randint 10 30
  else if Qge_bool ev (-0.02) then np_random_randint 5 15
  else np_random_randint 1 5.

(** [_dynamic_kelly(p, G, L)]; [edge] is computed and not used. *)
Definition _dynamic_kelly (p G L : Q) : Outcome Q :=
  let edge := (p * (G + 1)) - (1 - p) * L in
  let? b := if negb (Qeq_bool L 0) then py_truediv G L else Return 1 in
  let? kelly_fraction := py_truediv (p * (b + 1) - 1) b in
  Return (np_clip kelly_fraction 0.0 0.25).

(** [history.append(entry)], then [history.pop(0)] when the list is longer
    than the window. *)
Definition record (entry : TradeHistoryEntry) (self : EVEngineState)
  : EVEngineState :=
  let history := history self ++ [entry] in
  {| beta_prior_alpha := beta_prior_alpha self;
     beta_prior_beta := beta_prior_beta self;
     trade_window := trade_window self;
     history :=
       if (Z.of_nat (length history) >? trade_window self)%Z
       then tl history else history |}.

Definition _record_history (symbol : string) (p G L ev : Q) (tier : Tier)
  : M unit :=
  modify (set_ev_engine (record
    {| th_symbol := symbol; th_p := p; th_G := G; th_L := L; th_EV := ev;
       th_tier := tier; th_win := Qgt_bool ev 0 |})).

(** [calculate_ev_for_symbol(symbol, market_state)]: [None] stands for the
    empty dict that is returned when the symbol has no signal. *)
Definition calculate_ev_for_symbol (symbol : string)
  (market_state : gmap string Q) : M (option EVResult) :=
  let* signal_data := SignalEngine.get_signal symbol in
  match signal_data with
  | None => ret None
  | Some signal_data =>
      let score := signal_score signal_data in
      let components := signal_components signal_data in
      let* exp := exp_of in
      let* self := gets ev_engine in
      let* p := lift (_estimate_probability exp self symbol score market_state) in
      let G := _estimate_gain market_state in
      let* L := lift (_estimate_loss market_state) in
      let ev := p * G - (1 - p) * L - _estimate_fees market_state in
      let tier := _classify_ev ev in
      let* optimal_leverage := _recommend_leverage ev in
      let* position_size := lift (_dynamic_kelly p G L) in
      _record_history symbol p G L ev tier ;;
      ret (Some {| symbol := symbol; p_win := p; G := G; L := L; EV := ev;
                   tier := tier; kelly_position := position_size;
                   recommended_leverage := optimal_leverage;
                   components := components |})
  end.

End EVEngine.

(** Reading a float out of the dict that [calculate_ev_for_symbol] returns:
    [ev_result[key]] exists for the nine keys of the returned dict and for no
    other. *)
Definition ev_result_float (ev_result : EVResult) (key : string) : Outcome Q :=
  if String.eqb key "p_win" then Return (p_win ev_result)
  else if String.eqb key "G" then Return (G ev_result)
  else if String.eqb key "L" then Return (L ev_result)
  else if String.eqb key "EV" then Return (EV ev_result)
  else if String.eqb key "kelly_position" then Return (kelly_position ev_result)
  else if String.eqb key "recommended_leverage"
       then Return (inject_Z (recommended_leverage ev_result))
  else if String.eqb key "symbol" || String.eqb key "tier"
          || String.eqb key "components"
       then Raise TypeError
  else Raise (KeyError key).

(** ** risk_management/manager.py *)

Module RiskManager.

Definition set_circuit_breaker_active (b : bool) (self : RiskManagerState)
  : RiskManagerState :=
  {| drawdown_history := drawdown_history self;
     loss_streak := loss_streak self;
     circuit_breaker_active := b;
     last_trigger_time := last_trigger_time self;
     max_daily_loss := max_daily_loss self |}.

Definition set_last_trigger_time (t : Z) (self : RiskManagerState)
  : RiskManagerState :=
  {| drawdown_history := drawdown_history self;
     loss_streak := loss_streak self;
     circuit_breaker_active := circuit_breaker_active self;
     last_trigger_time := Some t;
     max_daily_loss := max_daily_loss self |}.

Definition set_loss_streak (n : nat) (self : RiskManagerState)
  : RiskManagerState :=
  {| drawdown_history := drawdown_history self;
     loss_streak := n;
     circuit_breaker_active := circuit_breaker_active self;
     last_trigger_time := last_trigger_time self;
     max_daily_loss := max_daily_loss self |}.

Definition append_drawdown (pnl : Q) (self : RiskManagerState)
  : RiskManagerState :=
  {| drawdown_history := drawdown_history self ++ [pnl];
     loss_streak := loss_streak self;
     circuit_breaker_active := circuit_breaker_active self;
     last_trigger_time := last_trigger_time self;
     max_daily_loss := max_daily_loss self |}.

Definition _trigger_circuit_breaker (reason : string) : M unit :=
  modify (set_risk_manager (set_circuit_breaker_active true)) ;;
  let* now := utcnow in
  modify (set_risk_manager (set_last_trigger_time now)) ;;
  logging (LogBreakerTriggered reason).

(** [(peak - equity) / peak if peak > 0 else 0], with the difference and
    the quotient rounded as the float arithmetic rounds them. *)
Definition drawdown_ratio (round : Q -> Q) (equity peak : Q) : Outcome Q :=
  if Qgt_bool peak 0 then
    let? quotient := py_truediv (round (peak - equity)) peak in
    Return (round quotient)
  else Return 0.

Definition _check_drawdown : M bool :=
  let* equity := reading equity_at in
  let* peak := reading equity_peak_at in
  let* round := float_of in
  let* drawdown := lift (drawdown_ratio round equity peak) in
  let* cfg := gets config in
  if Qgt_bool drawdown (daily_drawdown_limit_pct cfg) then
    logging (LogDrawdownExceeded drawdown) ;;
    _trigger_circuit_breaker "Daily drawdown limit hit" ;;
    ret false
  else ret true.

Definition _check_margin_health : M bool :=
  let* margin_ratio := reading margin_ratio_at in
  let* cfg := gets config in
  let threshold := margin_health_threshold cfg in
  if Qlt_bool margin_ratio threshold then
    logging (LogMarginLow margin_ratio) ;;
    _trigger_circuit_breaker "Margin health breach" ;;
    ret false
  else ret true.

Definition pre_trade_check (ev : Q) : M bool :=
  let* self := gets risk_manager in
  if circuit_breaker_active self then
    logging LogBreakerBlocked ;; ret false
  else if Qlt_bool ev (-0.05) then
    logging LogEVTooLow ;; ret false
  else
    let* ok := _check_drawdown in
    if negb ok then ret false
    else
      let* ok := _check_margin_health in
      if negb ok then ret false else ret true.

Definition check_circuit_breaker : M bool :=
  let* self := gets risk_manager in
  if negb (circuit_breaker_active self) then ret false
  else
    let cooldown := timedelta_minutes 180 in
    let* now := utcnow in
    let* last :=
      lift (match last_trigger_time self with
            | Some t => Return t
            | None => Raise TypeError
            end) in
    if (now - last >? cooldown)%Z then
      logging LogBreakerResumed ;;
      modify (set_risk_manager (set_circuit_breaker_active false)) ;;
      modify (set_risk_manager (set_loss_streak 0)) ;;
      ret false
    else ret true.

Definition register_trade_result (pnl : Q) : M unit :=
  if Qlt_bool pnl 0 then
    modify (set_risk_manager (fun self => set_loss_streak (loss_streak self + 1) self)) ;;
    modify (set_risk_manager (append_drawdown pnl)) ;;
    let* self := gets risk_manager in
    when (3 <=? loss_streak self)%nat
      (_trigger_circuit_breaker "3-loss streak detected")
  else modify (set_risk_manager (set_loss_streak 0)).

(** [_risk_heat] in the arithmetic of the rationals, as [dynamic_stop_loss]
    takes it: a factor that it compares with nothing. *)
Definition _risk_heat (self : RiskManagerState) : Outcome Q :=
  match drawdown_history self with
  | [] => Return 0.0
  | _ =>
      let recent := last_n 10 (drawdown_history self) in
      let? avg := py_truediv (py_sum recent) (inject_Z (Z.of_nat (length recent))) in
      let avg_loss := Qabs avg in
      Return (py_min (avg_loss / 0.05) 1.0)
  end.

Definition dynamic_stop_loss (self : RiskManagerState)
  (current_price entry_price volatility : Q) : Outcome Q :=
  let base_stop := entry_price - 2 * volatility in
  let? heat := _risk_heat self in
  let adaptive_adjust := base_stop * (1 + heat) in
  Return adaptive_adjust.

(** [_risk_heat] as the floats compute it for [hedge_position], which
    compares it with a literal: the sum, the mean and the quotient are
    rounded by [round], and the literal 0.05, which is not zero, is the
    float nearest to it. *)
Definition _risk_heat_rounded (round : Q -> Q) (self : RiskManagerState)
  : Outcome Q :=
  match drawdown_history self with
  | [] => Return 0.0
  | _ =>
      let recent := last_n 10 (drawdown_history self) in
      let? quotient :=
        py_truediv (float_sum round recent)
          (inject_Z (Z.of_nat (length recent))) in
      let avg_loss := Qabs (round quotient) in
      Return (py_min (round (avg_loss / round 0.05)) 1.0)
  end.

(** The advice of [hedge_position]: the assets to short, if any. *)
Definition hedge_position : M (option (list string * string)) :=
  let* self := gets risk_manager in
  let* round := float_of in
  let* heat := lift (_risk_heat_rounded round self) in
  if Qgt_bool heat (round 0.8) then
    logging LogHedge ;;
    ret (Some (["BTCUSDT"; "ETHUSDT"], "SHORT"))
  else ret None.

Inductive Mode : Type :=
| normal
| capital_preservation (leverage_reduction : Q) (allowed_tiers : list string)
    (resume_condition : string).

(** The literal 0.20 is the float nearest to it. *)
Definition recovery_mode : M Mode :=
  let* equity := reading equity_at in
  let* peak := reading equity_peak_at in
  let* round := float_of in
  let* drawdown := lift (drawdown_ratio round equity peak) in
  if Qgt_bool drawdown (round 0.20) then
    logging LogCapitalPreservation ;;
    ret (capital_preservation 0.5 ["T4"; "T5"] "drawdown < 10% and EV > 0.05")
  else ret normal.

End RiskManager.

(** ** execution_system/executor.py *)

Module ExecutionEngine.

Definition set_active_positions
  (f : gmap string Position -> gmap string Position)
  (self : ExecutionEngineState) : ExecutionEngineState :=
  {| active_positions := f (active_positions self);
     cooldowns := cooldowns self;
     trade_log := trade_log self |}.

Definition set_cooldowns (f : gmap string Z -> gmap string Z)
  (self : ExecutionEngineState) : ExecutionEngineState :=
  {| active_positions := active_positions self;
     cooldowns := f (cooldowns self);
     trade_log := trade_log self |}.

Definition append_trade_log (order : Order) (self : ExecutionEngineState)
  : ExecutionEngineState :=
  {| active_positions := active_positions self;
     cooldowns := cooldowns self;
     trade_log := trade_log self ++ [order] |}.

Definition _mock_order (symbol : string) (side : Side) (size : Q)
  (leverage : Z) : M Order :=
  let* now := utcnow in
  ret {| order_symbol := symbol; side := side; order_size := size;
         order_leverage := leverage; timestamp := now |}.

Definition _position_profitable (symbol : string) : M bool := random_choice.

Definition _enter_position (symbol : string) (ev_result : EVResult)
  (leverage : Z) (position_size : Q) : M unit :=
  let* balance := reading available_balance_at in
  let order_notional := balance * position_size * inject_Z leverage in
  let* ev := lift (ev_result_float ev_result "EV") in
  logging (LogEntry symbol ev order_notional leverage) ;;
  let* p := lift (ev_result_float ev_result "p_win") in
  let* order :=
    _mock_order symbol (if Qgt_bool p 0.5 then BUY else SELL)
      order_notional leverage in
  let* now := utcnow in
  let price := items_get (components ev_result) "price" 0 in
  let* ev := lift (ev_result_float ev_result "EV") in
  modify (set_executor (set_active_positions
    <[symbol := {| entry_time := now; entry_price := price;
                   leverage := leverage; notional := order_notional;
                   ev_entry := ev; direction := side order;
                   open := true |}]>)) ;;
  modify (set_executor (append_trade_log order)).

Definition _exit_position (symbol : string) (reason : string) : M unit :=
  let* pos := gets (fun w => active_positions (executor w) !! symbol) in
  modify (set_executor (set_active_positions (delete symbol))) ;;
  match pos with
  | None => ret tt
  | Some _ =>
      logging (LogExit symbol reason) ;;
      let* now := utcnow in
      modify (set_executor (set_cooldowns
        <[symbol := (now + timedelta_minutes 5)%Z]>))
  end.

Definition _maybe_exit (symbol : string) (ev_result : EVResult) : M unit :=
  let* positions := gets (fun w => active_positions (executor w)) in
  let* pos := lift (getitem positions symbol) in
  let* current_ev := lift (ev_result_float ev_result "EV") in
  let* now := utcnow in
  let time_held := (now - entry_time pos)%Z in
  let* invalid :=
    if Qlt_bool current_ev 0 then ret true
    else let* p := lift (ev_result_float ev_result "p_win") in
         ret (Qlt_bool p 0.5) in
  when invalid (_exit_position symbol "Signal invalid") ;;
  let max_holding := timedelta_hours 24 in
  when (time_held >? max_holding)%Z (_exit_position symbol "Time exceeded") ;;
  let* stale :=
    if (time_held >? timedelta_minutes 15)%Z
    then let* profitable := _position_profitable symbol in
         ret (negb profitable)
    else ret false in
  when stale (_exit_position symbol "No profit after 15m") ;;
  when (Qlt_bool current_ev (0.5 * ev_entry pos))
    (_exit_position symbol "EV decayed").

Definition _maybe_rotate (symbol : string) (ev_result : EVResult) : M unit :=
  let* positions := gets (fun w => active_positions (executor w)) in
  let* pos := lift (getitem positions symbol) in
  let* current_ev := lift (ev_result_float ev_result "EV") in
  let* own_entry := lift (ev_result_float ev_result "ev_entry") in
  if Qlt_bool current_ev own_entry then ret tt
  else
    let* positions := gets (fun w => active_positions (executor w)) in
    let* best := lift (py_max (map ev_entry (values (map_to_list positions)))) in
    if Qlt_bool current_ev (0.8 * best) then ret tt
    else
      _exit_position symbol "Rotated for higher EV" ;;
      let* size := lift (ev_result_float ev_result "kelly_position") in
      _enter_position symbol ev_result (recommended_leverage ev_result) size.

Definition _check_risk (symbol : string) (ev : Q) : M bool :=
  let* tripped := RiskManager.check_circuit_breaker in
  if tripped then
    logging LogBreakerPaused ;; ret false
  else if Qlt_bool ev (-0.05) then
    logging (LogNegativeEV symbol) ;; ret false
  else ret true.

Definition _in_cooldown (symbol : string) : M bool :=
  let* until := gets (fun w => cooldowns (executor w) !! symbol) in
  match until with
  | None => ret false
  | Some until =>
      let* now := utcnow in
      if (now <? until)%Z then ret true else ret false
  end.

(** The body of the loop of [execute_cycle]; a [continue] ends it. *)
Definition execute_symbol (symbol : string) (state : gmap string Q) : M unit :=
  let* ev_result := EVEngine.calculate_ev_for_symbol symbol state in
  match ev_result with
  | None => ret tt
  | Some ev_result =>
      let* ev := lift (ev_result_float ev_result "EV") in
      let tier := tier ev_result in
      let leverage := recommended_leverage ev_result in
      let* position_size := lift (ev_result_float ev_result "kelly_position") in
      let* ok := _check_risk symbol ev in
      if negb ok then ret tt
      else
        let* cooling := _in_cooldown symbol in
        if cooling then ret tt
        else
          let* positions := gets (fun w => active_positions (executor w)) in
          match positions !! symbol with
          | Some _ =>
              _maybe_exit symbol ev_result ;;
              _maybe_rotate symbol ev_result
          | None =>
              let* cfg := gets config in
              when (Qgt_bool ev (base_threshold cfg))
                (_enter_position symbol ev_result leverage position_size)
          end
  end.

Fixpoint execute_cycle (market_snapshot : list (string * gmap string Q))
  : M unit :=
  match market_snapshot with
  | [] => ret tt
  | (symbol, state) :: rest =>
      execute_symbol symbol state ;; execute_cycle rest
  end.

End ExecutionEngine.

(** ** data_ingestion/manager.py *)

(** The caches of the ingestion manager that the features are computed
    from: per symbol, the (time, price) and (time, quantity) pairs of the
    last trades and the notionals of the last liquidations. *)
Record DataIngestionState : Type := {
  symbols : list string;
  price_cache : gmap string (list (Q * Q));
  volume_cache : gmap string (list (Q * Q));
  liquidation_cache : gmap string (list Q)
}.

(** The builtin [max(a, b)]: [b] only when it is strictly greater. *)
Definition py_max2 (a b : Q) : Q := if Qgt_bool b a then b else a.

Module DataIngestionManager.

(** [_update_price_velocity(symbol, data)] with [price = float(data["p"])],
    [qty = float(data["q"])] and [now = time.time()]. *)
Definition _update_price_velocity (symbol : string) (price qty now : Q)
  (self : DataIngestionState) : DataIngestionState :=
  let price_cache :=
    match price_cache self !! symbol with
    | None => <[symbol := []]> (price_cache self)
    | Some _ => price_cache self
    end in
  let volume_cache :=
    match volume_cache self !! symbol with
    | None => <[symbol := []]> (volume_cache self)
    | Some _ => volume_cache self
    end in
  {| symbols := symbols self;
     price_cache :=
       <[symbol := SignalEngine.deque_append 50
                     (dict_get price_cache symbol []) (now, price)]> price_cache;
     volume_cache :=
       <[symbol := SignalEngine.deque_append 50
                     (dict_get volume_cache symbol []) (now, qty)]> volume_cache;
     liquidation_cache := liquidation_cache self |}.

(** [_update_liquidation_impact(symbol, data)] with the price and the
    quantity of [data["o"]]. *)
Definition _update_liquidation_impact (round : Q -> Q) (symbol : string)
  (p q : Q) (self : DataIngestionState) : DataIngestionState :=
  let notional := round (p * q) in
  let liquidation_cache :=
    match liquidation_cache self !! symbol with
    | None => <[symbol := []]> (liquidation_cache self)
    | Some _ => liquidation_cache self
    end in
  {| symbols := symbols self;
     price_cache := price_cache self;
     volume_cache := volume_cache self;
     liquidation_cache :=
       <[symbol := SignalEngine.deque_append 100
                     (dict_get liquidation_cache symbol []) notional]>
         liquidation_cache |}.

(** The body of the loop of [_compute_features]: [None] is a [continue].
    The first and the last pair exist behind the guard on the length, so
    the defaults of [hd] and [last] are never used.  Every operation on
    floats is rounded by [round]; the literal 1e-9 is the float nearest to
    it, the literal 1e6 is a float. *)
Definition features_of_symbol (round : Q -> Q) (self : DataIngestionState)
  (symbol : string) : Outcome (option (gmap string Q)) :=
  match price_cache self !! symbol with
  | None => Return None
  | Some prices =>
      if (length prices <? 5)%nat then Return None
      else
        let '(t0, p0) := hd (0, 0) prices in
        let '(t1, p1) := List.last prices (0, 0) in
        let? quotient :=
          py_truediv (round (p1 - p0))
            (py_max2 (round (t1 - t0)) (round (1 # 1000000000))) in
        let price_velocity := round quotient in
        let? volumes := getitem (volume_cache self) symbol in
        let v_total := float_sum round (map snd volumes) in
        let? quotient :=
          py_truediv v_total
            (inject_Z (Z.of_nat (Nat.max (length volumes) 1))) in
        let v_avg := round quotient in
        let? volume_accel :=
          if Qgt_bool v_avg 0 then
            let? quotient := py_truediv v_total v_avg in
            Return (round quotient)
          else Return 0 in
        let? quotient :=
          py_truediv
            (float_sum round (dict_get (liquidation_cache self) symbol []))
            1000000 in
        let liq_heat := round quotient in
        Return (Some (list_to_map
          [("price_velocity", price_velocity);
           ("volume_acceleration", volume_accel);
           ("liquidation_heat", liq_heat)]))
  end.

Fixpoint _compute_features_from (round : Q -> Q) (self : DataIngestionState)
  (todo : list string) (features : list (string * gmap string Q))
  : Outcome (list (string * gmap string Q)) :=
  match todo with
  | [] => Return features
  | symbol :: rest =>
      let? feat := features_of_symbol round self symbol in
      match feat with
      | None => _compute_features_from round self rest features
      | Some feat =>
          _compute_features_from round self rest
            (setitem features symbol feat)
      end
  end.

Definition _compute_features (round : Q -> Q) (self : DataIngestionState)
  : Outcome (list (string * gmap string Q)) :=
  _compute_features_from round self (symbols self) [].

End DataIngestionManager.

(** ** ai_adaptation/online.py *)

(** An entry of [AIAdaptationEngine.signal_stats]. *)
Record SignalStats : Type := {
  stats_total : nat;
  stats_win : nat;
  stats_ev_error_sum : Q
}.

(** The dicts of the engine are kept as their items, in insertion order;
    the two histories are lists. *)
Record AIAdaptationState : Type := {
  signal_stats : list (string * SignalStats);
  win_history : list Q;
  loss_history : list Q
}.

(** [d.get(key)] on a dict kept as its items. *)
Fixpoint items_lookup {V} (d : list (string * V)) (key : string) : option V :=
  match d with
  | [] => None
  | (k, v) :: rest => if String.eqb k key then Some v else items_lookup rest key
  end.

(** [del d[key]] on a dict kept as its items. *)
Definition items_del {V} (d : list (string * V)) (key : string)
  : list (string * V) :=
  List.filter (fun item => negb (String.eqb (fst item) key)) d.

(** [np.mean] of a list that is not empty. *)
Definition np_mean (l : list Q) : Q :=
  py_sum l / inject_Z (Z.of_nat (length l)).

Module AIAdaptationEngine.

Definition set_signal_stats (d : list (string * SignalStats))
  (self : AIAdaptationState) : AIAdaptationState :=
  {| signal_stats := d; win_history := win_history self;
     loss_history := loss_history self |}.

(** [get_win_rate(signal_name)]; the default of the lookup has a total of
    1 and no win. *)
Definition get_win_rate (signal_name : string) (self : AIAdaptationState)
  : Outcome Q :=
  let stats :=
    items_get (signal_stats self) signal_name
      {| stats_total := 1; stats_win := 0; stats_ev_error_sum := 0 |} in
  py_truediv (inject_Z (Z.of_nat (stats_win stats)))
    (inject_Z (Z.of_nat (stats_total stats))).

(** [update_from_trade(signal_name, result, ev_predicted, ev_realized)]:
    the engine after the call, and whether the call returned. *)
Definition update_from_trade (signal_name : string) (result : bool)
  (ev_predicted ev_realized : Q) (self : AIAdaptationState)
  : AIAdaptationState * Outcome unit :=
  let zero := {| stats_total := 0; stats_win := 0; stats_ev_error_sum := 0 |} in
  let d :=
    match items_lookup (signal_stats self) signal_name with
    | Some _ => signal_stats self
    | None => signal_stats self ++ [(signal_name, zero)]
    end in
  let stats := items_get d signal_name zero in
  let stats :=
    {| stats_total := stats_total stats + 1;
       stats_win := if result then stats_win stats + 1 else stats_win stats;
       stats_ev_error_sum :=
         stats_ev_error_sum stats + Qabs (ev_realized - ev_predicted) |} in
  let self :=
    {| signal_stats := setitem d signal_name stats;
       win_history :=
         if result then win_history self ++ [ev_realized] else win_history self;
       loss_history :=
         if result then loss_history self else loss_history self ++ [ev_realized]
    |} in
  (self, let? _ := get_win_rate signal_name self in Return tt).

(** The loop of [prune_low_performance_signals] over the items as they
    were when it started. *)
Fixpoint prune_from (todo : list (string * SignalStats)) (min_win_rate : Q)
  (self : AIAdaptationState) : AIAdaptationState * Outcome unit :=
  match todo with
  | [] => (self, Return tt)
  | (signal, stats) :: rest =>
      match get_win_rate signal self with
      | Raise e => (self, Raise e)
      | Return win_rate =>
          if (100 <=? stats_total stats)%nat && Qlt_bool win_rate min_win_rate
          then prune_from rest min_win_rate
                 (set_signal_stats (items_del (signal_stats self) signal) self)
          else prune_from rest min_win_rate self
      end
  end.

Definition prune_low_performance_signals (min_win_rate : Q)
  (self : AIAdaptationState) : AIAdaptationState * Outcome unit :=
  prune_from (signal_stats self) min_win_rate self.

Fixpoint bayesian_update_from (todo : list (string * SignalStats))
  (prior_alpha prior_beta : Z) (posteriors : list (string * Q))
  : Outcome (list (string * Q)) :=
  match todo with
  | [] => Return posteriors
  | (signal, stats) :: rest =>
      let alpha_post := (prior_alpha + Z.of_nat (stats_win stats))%Z in
      let beta_post :=
        (prior_beta + Z.of_nat (stats_total stats)
         - Z.of_nat (stats_win stats))%Z in
      let? p :=
        py_truediv (inject_Z alpha_post) (inject_Z (alpha_post + beta_post)) in
      bayesian_update_from rest prior_alpha prior_beta
        (setitem posteriors signal p)
  end.

Definition bayesian_update_winrate (prior_alpha prior_beta : Z)
  (self : AIAdaptationState) : Outcome (list (string * Q)) :=
  bayesian_update_from (signal_stats self) prior_alpha prior_beta [].

(** [ev_drift_monitor()]: the pairs of [zip(win_history, loss_history)],
    once per signal. *)
Definition ev_drift_monitor (self : AIAdaptationState) : Q :=
  let errors :=
    flat_map
      (fun _ : string * SignalStats =>
         map (fun pair => Qabs (fst pair - snd pair))
           (combine (win_history self) (loss_history self)))
      (signal_stats self) in
  match errors with
  | [] => 0.0
  | _ => np_mean errors
  end.

Fixpoint adaptive_signal_weights_from (todo : list (string * SignalStats))
  (learning_rate : Q) (self : AIAdaptationState) (weights : list (string * Q))
  : Outcome (list (string * Q)) :=
  match todo with
  | [] => Return weights
  | (signal, stats) :: rest =>
      let? win_rate := get_win_rate signal self in
      let weights :=
        setitem weights signal
          (py_min 1.0
             (py_max2 0.0
                (items_get weights signal 0.1
                 + learning_rate * (win_rate - 0.5)))) in
      adaptive_signal_weights_from rest learning_rate self weights
  end.

Definition adaptive_signal_weights (learning_rate : Q)
  (self : AIAdaptationState) : Outcome (list (string * Q)) :=
  adaptive_signal_weights_from (signal_stats self) learning_rate self [].

End AIAdaptationEngine.

(** * Vocabulary of the properties *)

(** The weights that [_fusion] reads with [weights[...]]; the other two are
    read with [weights.get(..., 0)]. *)
Definition mandatory_weights : list string :=
  ["breakout"; "momentum"; "whale_flow"; "orderbook_imbalance";
   "funding_flip"; "macro_sentiment"; "onchain_flow"].

Definition configured (weights : gmap string Q) : Prop :=
  Forall (fun key => is_Some (weights !! key)) mandatory_weights.

(** The keys of a breakdown, in the order [_fusion] writes them. *)
Definition component_names : list string :=
  ["breakout"; "momentum"; "whale_flow"; "orderbook_imbalance";
   "funding_flip"; "macro_sentiment"; "onchain_flow"; "etf_flow";
   "social_sentiment"].

(** Weights in the shape of production.json. *)
Definition example_weights : gmap string Q :=
  list_to_map
    [("breakout", 0.2); ("momentum", 0.15); ("whale_flow", 0.15);
     ("orderbook_imbalance", 0.1); ("funding_flip", 0.1);
     ("macro_sentiment", 0.1); ("onchain_flow", 0.1); ("etf_flow", 0.05);
     ("social_sentiment", 0.05)].

(** The entry that [_record_history] is handed for a result. *)
Definition history_entry_of (r : EVResult) : TradeHistoryEntry :=
  {| th_symbol := symbol r; th_p := p_win r; th_G := G r; th_L := L r;
     th_EV := EV r; th_tier := tier r; th_win := Qgt_bool (EV r) 0 |}.

(** The market state has a depth the loss estimator can divide by. *)
Definition valid_market_state (state : gmap string Q) : Prop :=
  ~ dict_get state "depth_score" 1.0 == 0.

(** The Beta prior of the configuration is a Beta distribution. *)
Definition valid_prior (self : EVEngineState) : Prop :=
  0 < beta_prior_alpha self /\ 0 < beta_prior_beta self.

(** Both bounded histories are within their capacity. *)
Definition histories_bounded (w : World) : Prop :=
  (Z.of_nat (length (history (ev_engine w))) <= trade_window (ev_engine w))%Z /\
  (length (signal_history (signal_engine w)) <= SignalEngine.history_maxlen)%nat.

(** A method keeps a property of the process, whatever its outcome. *)
Definition preserves {A} (P : World -> Prop) (m : M A) : Prop :=
  forall env w, P w -> P (fst (m env w)).

(** *** A process to evaluate the methods on *)

(** The exponential series up to the fourth power; it is exact at 0, the
    only point where the examples evaluate it. *)
Definition exp_series (x : Q) : Q :=
  1 + x + x * x / 2 + x * x * x / 6 + x * x * x * x / 24.

(** One second between two readings of the clock, a flat account, and
    numbers that the float arithmetic does not have to round. *)
Definition example_env : Env :=
  {| utcnow_at := fun k => (Z.of_nat k * 1000000)%Z;
     random_choice_at := fun _ => true;
     randint_at := fun _ lo _ => lo;
     np_exp := exp_series;
     available_balance_at := fun _ => 10000;
     equity_at := fun _ => 10000;
     equity_peak_at := fun _ => 10000;
     margin_ratio_at := fun _ => 1;
     float_round := fun x => x |}.

Definition example_signal : Signal :=
  {| signal_score := 0.9; EV_estimate := 1; signal_tier := T1_explosive;
     signal_components := [("breakout", 0.2)] |}.

Definition example_state : gmap string Q :=
  list_to_map
    [("volatility", 0); ("trend_consistency", 1); ("ATR", 0.05);
     ("momentum", 2); ("liquidity_score", 2); ("depth_score", 1);
     ("slippage", 0); ("funding_rate", 0)].

Definition example_config : Config :=
  {| base_threshold := 0.05; daily_drawdown_limit_pct := 0.1;
     margin_health_threshold := 0.2 |}.

Definition armed : RiskManagerState :=
  {| drawdown_history := []; loss_streak := 0;
     circuit_breaker_active := false; last_trigger_time := None;
     max_daily_loss := 0 |}.

(** The process after start-up and one turn of signal fusion that found a
    signal for BTCUSDT; the trade window is 3. *)
Definition example_world : World :=
  {| config := example_config;
     signal_engine :=
       {| signals := {["BTCUSDT" := example_signal]}; signal_history := [];
          weights := example_weights; activation_threshold := 0.5 |};
     ev_engine :=
       {| beta_prior_alpha := 1; beta_prior_beta := 1; trade_window := 3;
          history := [] |};
     risk_manager := armed;
     executor :=
       {| active_positions := ∅; cooldowns := ∅; trade_log := [] |};
     log := [];
     readings := 0 |}.

(** The log record that a rotation leaves: the exit that [_maybe_rotate]
    asks for. *)
Definition is_rotation (r : LogRecord) : bool :=
  match r with
  | LogExit _ reason => String.eqb reason "Rotated for higher EV"
  | _ => false
  end.

(** The state of the example with an order book of depth zero. *)
Definition zero_depth_state : gmap string Q :=
  <["depth_score" := 0]> example_state.

(** The breaker is tripped, and was last triggered at [t0]. *)
Definition tripped_at (t0 : Z) (w : World) : Prop :=
  circuit_breaker_active (risk_manager w) = true /\
  last_trigger_time (risk_manager w) = Some t0.

(** [n] successive queries of the breaker, and what each returned. *)
Fixpoint poll (n : nat) : M (list bool) :=
  match n with
  | O => ret []
  | S n =>
      let* b := RiskManager.check_circuit_breaker in
      let* bs := poll n in
      ret (b :: bs)
  end.

(** Three losses in a row, then a fourth trade that is not a loss. *)
Definition three_losses (p1 p2 p3 : Q) : M unit :=
  RiskManager.register_trade_result p1 ;;
  RiskManager.register_trade_result p2 ;;
  RiskManager.register_trade_result p3.

(** From [w] to [w'] the execution engine and the configuration are left
    alone, and readings are only added. *)
Definition untouched (w w' : World) : Prop :=
  executor w' = executor w /\ config w' = config w /\
  (readings w <= readings w')%nat.

(** The process of the example after one execution cycle over BTCUSDT: the
    symbol was flat, its EV is above the threshold, and it now has a
    position. *)
Definition held_world : World :=
  fst (ExecutionEngine.execute_cycle [("BTCUSDT", example_state)]
         example_env example_world).

(** The collaborators of the example, with the account at half its peak:
    a drawdown of 50%, above the limit of the example configuration. *)
Definition drawdown_env : Env :=
  {| utcnow_at := utcnow_at example_env;
     random_choice_at := random_choice_at example_env;
     randint_at := randint_at example_env;
     np_exp := exp_series;
     available_balance_at := fun _ => 5000;
     equity_at := fun _ => 5000;
     equity_peak_at := fun _ => 10000;
     margin_ratio_at := fun _ => 1;
     float_round := fun x => x |}.

(** The rotations that the log shows. *)
Definition rotations (w : World) : list LogRecord :=
  List.filter is_rotation (log w).

(** A method returns, whatever the process it is called in. *)
Definition returns {A} (m : M A) : Prop :=
  forall env w, exists w' a, m env w = (w', Return a).

(** From [w0] to [w] no rotation was logged and no order placed, and the
    position of the symbol is the one it was or is gone. *)
Definition kept (sym : string) (w0 w : World) : Prop :=
  rotations w = rotations w0 /\
  trade_log (executor w) = trade_log (executor w0) /\
  (active_positions (executor w) !! sym = active_positions (executor w0) !! sym
   \/ active_positions (executor w) !! sym = None).

(** *** Vocabulary of the further properties *)

(** The range [randint] is asked for in each branch of
    [_recommend_leverage], by the tier of the same branch of
    [_classify_ev]. *)
Definition tier_leverage_range (t : Tier) : Z * Z :=
  match t with
  | T1_explosive => (90, 120)
  | T2_strong => (50, 85)
  | T3_moderate => (20, 50)
  | T4_neutral => (10, 30)
  | T5_scalping => (5, 15)
  | T6_defensive => (1, 5)
  end%Z.

(** [np.random.randint(lo, hi)] draws from [lo, hi). *)
Definition fair_randint (env : Env) : Prop :=
  forall k lo hi, (lo < hi)%Z -> (lo <= randint_at env k lo hi < hi)%Z.

(** The engine with further entries at the end of its history. *)
Definition with_more_history (extra : list TradeHistoryEntry)
  (self : EVEngineState) : EVEngineState :=
  {| beta_prior_alpha := beta_prior_alpha self;
     beta_prior_beta := beta_prior_beta self;
     trade_window := trade_window self;
     history := history self ++ extra |}.

(** A tripped breaker knows when it was triggered. *)
Definition breaker_consistent (w : World) : Prop :=
  circuit_breaker_active (risk_manager w) = true ->
  is_Some (last_trigger_time (risk_manager w)).

(** The trades of a list registered one after the other. *)
Fixpoint register_all (pnls : list Q) : M unit :=
  match pnls with
  | [] => ret tt
  | pnl :: rest =>
      RiskManager.register_trade_result pnl ;; register_all rest
  end.

(** The number of losses at the end of a list of trades, on top of the [n]
    that came before it. *)
Definition losses_in_a_row (n : nat) (pnls : list Q) : nat :=
  fold_left (fun n pnl => if Qlt_bool pnl 0 then S n else O) pnls n.

(** Whether a run of losses reaches three somewhere along the list. *)
Fixpoint reaches_three (n : nat) (pnls : list Q) : bool :=
  match pnls with
  | [] => false
  | pnl :: rest =>
      let n' := if Qlt_bool pnl 0 then S n else O in
      (Qlt_bool pnl 0 && (3 <=? n')%nat) || reaches_three n' rest
  end.

(** The risk manager with another drawdown history. *)
Definition with_drawdowns (l : list Q) (self : RiskManagerState)
  : RiskManagerState :=
  {| drawdown_history := l; loss_streak := loss_streak self;
     circuit_breaker_active := circuit_breaker_active self;
     last_trigger_time := last_trigger_time self;
     max_daily_loss := max_daily_loss self |}.

(** The process after [_trigger_circuit_breaker(reason)]. *)
Definition trip (reason : string) (env : Env) (w : World) : World :=
  add_log (LogBreakerTriggered reason)
    (set_risk_manager
       (RiskManager.set_last_trigger_time (utcnow_at env (readings w)))
       (tick (set_risk_manager (RiskManager.set_circuit_breaker_active true) w))).

(** The state of the example with a slippage of 100%: the fees and the
    loss estimate outweigh the gain. *)
Definition costly_state : gmap string Q := <["slippage" := 1]> example_state.

(** A signal as the fusion publishes it: the nine components in the order
    of the fusion, their sum as score, and the tier of its EV estimate. *)
Definition well_formed (s : Signal) : Prop :=
  map fst (signal_components s) = component_names /\
  signal_score s = py_sum (values (signal_components s)) /\
  signal_tier s = EVEngine._classify_ev (EV_estimate s).

(** From [w] to [w'] only the signal engine and the number of readings may
    differ. *)
Definition signal_engine_only (w w' : World) : Prop :=
  config w' = config w /\ ev_engine w' = ev_engine w /\
  risk_manager w' = risk_manager w /\ executor w' = executor w /\
  log w' = log w.


(** From [w0] to [w] the position of the symbol is still the one it was,
    and neither the execution engine nor the log has changed. *)
Definition still_held (sym : string) (pos : Position) (w0 w : World) : Prop :=
  active_positions (executor w) !! sym = Some pos /\
  executor w = executor w0 /\ log w = log w0.

(** From [w0] to [w] the position of the symbol was closed once, for
    [reason]: it is gone, the log has one more record, and the symbol cools
    down for five minutes from a reading of the clock made in between;
    nothing else of the execution engine has changed. *)
Definition exited_once (env : Env) (sym reason : string) (w0 w : World)
  : Prop :=
  log w = log w0 ++ [LogExit sym reason] /\
  exists k,
    (readings w0 <= k < readings w)%nat /\
    executor w
    = ExecutionEngine.set_cooldowns
        <[sym := (utcnow_at env k + timedelta_minutes 5)%Z]>
        (ExecutionEngine.set_active_positions (delete sym) (executor w0)).

(** The four reasons of [_maybe_exit], in the order of its rules. *)
Definition exit_reasons : list string :=
  ["Signal invalid"; "Time exceeded"; "No profit after 15m"; "EV decayed"].


(** The standard model of float arithmetic: a rounded number is within the
    relative error [u] of the number. *)
Definition accurate (u : Q) (round : Q -> Q) : Prop :=
  forall x, Qabs (round x - x) <= u * Qabs x.

(** The price cache and the volume cache hold the same symbols, with as
    many pairs for each. *)
Definition caches_aligned (self : DataIngestionState) : Prop :=
  forall sym,
    length <$> (price_cache self !! sym) = length <$> (volume_cache self !! sym).

(** The manager at start-up, tracking [syms]. *)
Definition empty_caches (syms : list string) : DataIngestionState :=
  {| symbols := syms; price_cache := ∅; volume_cache := ∅;
     liquidation_cache := ∅ |}.

(** The trades of a list cached one after the other, for one symbol. *)
Fixpoint cache_trades (sym : string) (trades : list (Q * Q * Q))
  (self : DataIngestionState) : DataIngestionState :=
  match trades with
  | [] => self
  | (price, qty, now) :: rest =>
      cache_trades sym rest
        (DataIngestionManager._update_price_velocity sym price qty now self)
  end.


(** No symbol has more than fifty cached trades. *)
Definition caches_bounded (self : DataIngestionState) : Prop :=
  forall sym prices,
    price_cache self !! sym = Some prices -> (length prices <= 50)%nat.


(** The engine at start-up. *)
Definition fresh_engine : AIAdaptationState :=
  {| signal_stats := []; win_history := []; loss_history := [] |}.

(** A finished trade as [update_from_trade] is told of it: the signal,
    whether it won, the predicted and the realized EV. *)
Definition Trade : Type := string * bool * Q * Q.

(** The trades of a list reported one after the other. *)
Fixpoint update_all (trades : list Trade) (self : AIAdaptationState)
  : AIAdaptationState * Outcome unit :=
  match trades with
  | [] => (self, Return tt)
  | (signal, result, ev_predicted, ev_realized) :: rest =>
      match AIAdaptationEngine.update_from_trade signal result ev_predicted
              ev_realized self with
      | (self, Return _) => update_all rest self
      | (self, Raise e) => (self, Raise e)
      end
  end.

(** The trades of a signal in a list, and those of them that won. *)
Definition trades_of (signal : string) (trades : list Trade) : nat :=
  length (List.filter (fun t : Trade => String.eqb (fst (fst (fst t))) signal)
            trades).

Definition wins_of (signal : string) (trades : list Trade) : nat :=
  length (List.filter
            (fun t : Trade =>
               String.eqb (fst (fst (fst t))) signal && snd (fst (fst t)))
            trades).

(** Every signal has one entry, with at least one trade and no more wins
    than trades. *)
Definition stats_sound (self : AIAdaptationState) : Prop :=
  List.NoDup (map fst (signal_stats self)) /\
  Forall (fun item : string * SignalStats =>
            (1 <= stats_total (snd item))%nat /\
            (stats_win (snd item) <= stats_total (snd item))%nat)
    (signal_stats self).


(** The number of trades and of wins of an entry, (0, 0) for no entry. *)
Definition stats_counts (stats : option SignalStats) : nat * nat :=
  match stats with
  | Some stats => (stats_total stats, stats_win stats)
  | None => (O, O)
  end.


(** The win rate that an entry stands for. *)
Definition win_rate_of (stats : SignalStats) : Q :=
  inject_Z (Z.of_nat (stats_win stats)) / inject_Z (Z.of_nat (stats_total stats)).

(** The weight that [adaptive_signal_weights] gives an entry, starting
    from 0.1. *)
Definition adaptive_weight_of (learning_rate : Q) (stats : SignalStats) : Q :=
  py_min 1.0 (py_max2 0.0 (0.1 + learning_rate * (win_rate_of stats - 0.5))).

(** The entries that [prune_low_performance_signals] keeps. *)
Definition survives (min_win_rate : Q) (item : string * SignalStats) : bool :=
  negb ((100 <=? stats_total (snd item))%nat
        && Qlt_bool (win_rate_of (snd item)) min_win_rate).


(** The posterior mean that [bayesian_update_winrate] gives an entry. *)
Definition posterior_of (prior_alpha prior_beta : Z) (stats : SignalStats) : Q :=
  inject_Z (prior_alpha + Z.of_nat (stats_win stats))
  / inject_Z (prior_alpha + Z.of_nat (stats_win stats)
              + (prior_beta + Z.of_nat (stats_total stats)
                 - Z.of_nat (stats_win stats))).


(** The conditions under which the symbols of a snapshot are evaluated
    without an exception: a Beta prior, a breaker that knows its trigger
    time, and no position in any of the symbols. *)
Definition ready_for (snapshot : list (string * gmap string Q)) (w : World)
  : Prop :=
  valid_prior (ev_engine w) /\ breaker_consistent w /\
  Forall (fun item => active_positions (executor w) !! fst item = None) snapshot.


(** * Properties *)

(** ** Comparisons and clipping *)

Lemma Qge_bool_true (a b : Q) : Qge_bool a b = true <-> b <= a.
Proof. unfold Qge_bool. apply Qle_bool_iff. Qed.

Lemma Qge_bool_false (a b : Q) : Qge_bool a b = false <-> a < b.
Proof.
  unfold Qge_bool. split; intros H.
  - apply Qnot_le_lt. intros Hle. apply Qle_bool_iff in Hle. congruence.
  - destruct (Qle_bool b a) eqn:E; [|reflexivity].
    apply Qle_bool_iff in E. lra.
Qed.

Lemma Qlt_bool_true (a b : Q) : Qlt_bool a b = true <-> a < b.
Proof.
  unfold Qlt_bool. rewrite negb_true_iff. apply (Qge_bool_false a b).
Qed.

Lemma Qlt_bool_false (a b : Q) : Qlt_bool a b = false <-> b <= a.
Proof.
  unfold Qlt_bool. rewrite negb_false_iff. apply Qle_bool_iff.
Qed.

Lemma Qgt_bool_true (a b : Q) : Qgt_bool a b = true <-> b < a.
Proof. apply Qlt_bool_true. Qed.

Lemma Qgt_bool_false (a b : Q) : Qgt_bool a b = false <-> a <= b.
Proof. apply Qlt_bool_false. Qed.

Lemma Qeq_bool_false (a b : Q) : Qeq_bool a b = false <-> ~ a == b.
Proof.
  split.
  - intros H E. apply Qeq_bool_iff in E. congruence.
  - intros H. destruct (Qeq_bool a b) eqn:E; [|reflexivity].
    apply Qeq_bool_iff in E. contradiction.
Qed.

(** Case analysis on every comparison of the goal, each turned into the
    inequality it decides. *)
Ltac qcase :=
  repeat match goal with
  | |- context [Qge_bool ?a ?b] =>
      let E := fresh "E" in
      destruct (Qge_bool a b) eqn:E;
      [apply Qge_bool_true in E | apply Qge_bool_false in E]
  | |- context [Qgt_bool ?a ?b] =>
      let E := fresh "E" in
      destruct (Qgt_bool a b) eqn:E;
      [apply Qgt_bool_true in E | apply Qgt_bool_false in E]
  | |- context [Qlt_bool ?a ?b] =>
      let E := fresh "E" in
      destruct (Qlt_bool a b) eqn:E;
      [apply Qlt_bool_true in E | apply Qlt_bool_false in E]
  end.

Lemma np_clip_bounds (x lo hi : Q) :
  lo <= hi -> lo <= np_clip x lo hi /\ np_clip x lo hi <= hi.
Proof. intros H. unfold np_clip. qcase; lra. Qed.

Lemma py_truediv_Return (a b : Q) :
  ~ b == 0 -> py_truediv a b = Return (a / b).
Proof.
  intros H. unfold py_truediv.
  apply Qeq_bool_false in H. now rewrite H.
Qed.

Lemma py_truediv_Raise (a b : Q) :
  b == 0 -> py_truediv a b = Raise ZeroDivisionError.
Proof.
  intros H. unfold py_truediv.
  apply Qeq_bool_iff in H. now rewrite H.
Qed.

(** ** Rounding *)

Lemma Qmult_le_nonpos (c d x : Q) : x <= 0 -> d <= c -> c * x <= d * x.
Proof. intros Hx Hc. nra. Qed.

Lemma Qmult_le_nonneg (x y z : Q) : 0 <= z -> x <= y -> z * x <= z * y.
Proof. intros Hz Hxy. nra. Qed.

Section Rounding.

Variables (u : Q) (round : Q -> Q).
Hypothesis Hround : accurate u round.

Lemma accurate_error_nonneg : 0 <= u.
Proof.
  pose proof (Hround 1) as H. pose proof (Qabs_nonneg (round 1 - 1)) as H0.
  change (Qabs 1) with 1 in H. lra.
Qed.

Lemma accurate_nonneg x :
  0 <= x -> x * (1 - u) <= round x <= x * (1 + u).
Proof.
  intros Hx. pose proof (Hround x) as H.
  rewrite (Qabs_pos x Hx) in H. apply Qabs_Qle_condition in H. lra.
Qed.

Lemma accurate_nonpos x :
  x <= 0 -> x * (1 + u) <= round x <= x * (1 - u).
Proof.
  intros Hx. pose proof (Hround x) as H.
  rewrite (Qabs_neg x Hx) in H. apply Qabs_Qle_condition in H. lra.
Qed.

(** With an error of at most one part in a thousand, a number of a
    range that is not negative is rounded into the range widened by as
    much. *)
Lemma accurate_within x lo hi :
  u <= 1 # 1000 -> 0 <= lo -> lo <= x <= hi ->
  0.999 * lo <= round x <= 1.001 * hi.
Proof.
  intros Hu Hlo [H1 H2]. pose proof accurate_error_nonneg as Hu0.
  destruct (accurate_nonneg x ltac:(lra)) as [Ha Hb]. nra.
Qed.

Lemma accurate_positive x : u < 1 -> 0 < x -> 0 < round x.
Proof.
  intros Hu Hx. destruct (accurate_nonneg x ltac:(lra)) as [Ha _]. nra.
Qed.

(** The sum of at most ten losses, rounded at every addition. *)
Lemma float_sum_losses_from (l : list Q) : forall (j : nat) (a f : Q),
  u <= 1 # 1000 ->
  Forall (fun x => x < 0) l ->
  (j + length l <= 10)%nat ->
  a <= 0 ->
  (1 + 2 * (inject_Z (Z.of_nat j) * u)) * a <= f
  <= (1 - inject_Z (Z.of_nat j) * u) * a ->
  (1 + 2 * (inject_Z (Z.of_nat (j + length l)) * u)) * fold_left Qplus l a
  <= fold_left (fun acc x => round (acc + x)) l f
  <= (1 - inject_Z (Z.of_nat (j + length l)) * u) * fold_left Qplus l a.
Proof.
  pose proof accurate_error_nonneg as Hu0.
  induction l as [|x l IH]; intros j a f Hu Hl Hlen Ha Hf.
  - cbn [fold_left length]. rewrite Nat.add_0_r. exact Hf.
  - cbn [fold_left length] in *. apply Forall_cons in Hl as [Hx Hl].
    replace (j + S (length l))%nat with (S j + length l)%nat by lia.
    apply IH; [exact Hu | exact Hl | lia | lra |].
    assert (HJ : inject_Z (Z.of_nat (S j)) * u
                 == inject_Z (Z.of_nat j) * u + u).
    { rewrite Nat2Z.inj_succ. unfold Z.succ. rewrite inject_Z_plus. ring. }
    rewrite HJ.
    assert (HJ0 : 0 <= inject_Z (Z.of_nat j)).
    { change 0 with (inject_Z 0). rewrite <- Zle_Qle. lia. }
    assert (HJ1 : inject_Z (Z.of_nat j) <= 10).
    { change 10 with (inject_Z 10). rewrite <- Zle_Qle. lia. }
    assert (HJu : 0 <= inject_Z (Z.of_nat j) * u <= 1 # 100) by nra.
    set (Ju := inject_Z (Z.of_nat j) * u) in *. clearbody Ju.
    assert (Hf0 : f <= 0) by nra.
    assert (Hfx : f + x <= 0) by lra.
    destruct (accurate_nonpos (f + x) Hfx) as [Hlo Hhi].
    set (r := round (f + x)) in *. clearbody r.
    assert (H1 : f + x <= (1 - Ju) * (a + x)) by nra.
    assert (H2 : (1 + 2 * Ju) * (a + x) <= f + x) by nra.
    assert (Hax : a + x <= 0) by lra.
    set (ax := a + x) in *. set (fx := f + x) in *. clearbody ax fx.
    split.
    + assert (H3 : (1 + 2 * Ju) * ax * (1 + u) <= r) by nra.
      assert (H5 : (1 + 2 * Ju) * (1 + u) <= 1 + 2 * (Ju + u)) by nra.
      assert (H4 : (1 + 2 * (Ju + u)) * ax <= (1 + 2 * Ju) * (1 + u) * ax).
      { apply Qmult_le_nonpos; [exact Hax | exact H5]. }
      lra.
    + assert (H3 : r <= (1 - Ju) * ax * (1 - u)) by nra.
      assert (H5 : 1 - (Ju + u) <= (1 - Ju) * (1 - u)) by nra.
      assert (H4 : (1 - Ju) * (1 - u) * ax <= (1 - (Ju + u)) * ax).
      { apply Qmult_le_nonpos; [exact Hax | exact H5]. }
      lra.
Qed.

Lemma py_sum_losses (l : list Q) (a : Q) :
  Forall (fun pnl => pnl < 0) l -> fold_left Qplus l a <= a.
Proof.
  intros H. revert a. induction H as [|x l Hx _ IH]; intros a; cbn [fold_left].
  - lra.
  - specialize (IH (a + x)). lra.
Qed.

Lemma float_sum_losses (l : list Q) :
  u <= 1 # 1000 ->
  Forall (fun x => x < 0) l ->
  (length l <= 10)%nat ->
  0.99 * - py_sum l <= - float_sum round l <= 1.02 * - py_sum l.
Proof.
  intros Hu Hl Hlen. pose proof accurate_error_nonneg as Hu0.
  pose proof (float_sum_losses_from l 0 0 0 Hu Hl ltac:(lia) ltac:(lra)
                ltac:(lra)) as H.
  cbn [Nat.add] in H. fold (py_sum l) in H. fold (float_sum round l) in H.
  pose proof (py_sum_losses l 0 Hl) as Hs. fold (py_sum l) in Hs.
  assert (HN0 : 0 <= inject_Z (Z.of_nat (length l))).
  { change 0 with (inject_Z 0). rewrite <- Zle_Qle. lia. }
  assert (HN1 : inject_Z (Z.of_nat (length l)) <= 10).
  { change 10 with (inject_Z 10). rewrite <- Zle_Qle. lia. }
  assert (HNu : 0 <= inject_Z (Z.of_nat (length l)) * u <= 1 # 100) by nra.
  set (Nu := inject_Z (Z.of_nat (length l)) * u) in *. clearbody Nu.
  set (S := py_sum l) in *. set (F := float_sum round l) in *.
  clearbody S F. nra.
Qed.

(** The rounded sum of positive numbers is positive. *)
Lemma float_sum_positive_from (l : list Q) : forall f,
  u < 1 -> Forall (fun x => 0 < x) l -> 0 <= f -> (0 < f \/ l <> []) ->
  0 < fold_left (fun acc x => round (acc + x)) l f.
Proof.
  induction l as [|x l IH]; intros f Hu Hl Hf Hne; cbn [fold_left].
  - destruct Hne as [H|H]; [exact H | contradiction].
  - apply Forall_cons in Hl as [Hx Hl].
    assert (Hp : 0 < round (f + x))
      by (apply accurate_positive; lra).
    apply IH; [exact Hu | exact Hl | lra | left; exact Hp].
Qed.

Lemma float_sum_positive (l : list Q) :
  u < 1 -> Forall (fun x => 0 < x) l -> l <> [] -> 0 < float_sum round l.
Proof.
  intros Hu Hl Hne. apply float_sum_positive_from; try assumption; [lra|].
  right. exact Hne.
Qed.

End Rounding.

Lemma accurate_identity : accurate 0 (fun x => x).
Proof.
  intros x. assert (H : x - x == 0) by ring.
  rewrite H, Qmult_0_l. apply Qle_refl.
Defined.

(** ** Tiers *)

Section Tiers.

Lemma classify_T1 ev : EVEngine._classify_ev ev = T1_explosive <-> 0.35 <= ev.
Proof. unfold EVEngine._classify_ev. qcase; split; (discriminate || lra || reflexivity). Qed.

Lemma classify_T2 ev :
  EVEngine._classify_ev ev = T2_strong <-> 0.20 <= ev < 0.35.
Proof. unfold EVEngine._classify_ev. qcase; split; (discriminate || lra || reflexivity). Qed.

Lemma classify_T3 ev :
  EVEngine._classify_ev ev = T3_moderate <-> 0.10 <= ev < 0.20.
Proof. unfold EVEngine._classify_ev. qcase; split; (discriminate || lra || reflexivity). Qed.

Lemma classify_T4 ev :
  EVEngine._classify_ev ev = T4_neutral <-> 0.03 <= ev < 0.10.
Proof. unfold EVEngine._classify_ev. qcase; split; (discriminate || lra || reflexivity). Qed.

Lemma classify_T5 ev :
  EVEngine._classify_ev ev = T5_scalping <-> -0.02 <= ev < 0.03.
Proof. unfold EVEngine._classify_ev. qcase; split; (discriminate || lra || reflexivity). Qed.

Lemma classify_T6 ev : EVEngine._classify_ev ev = T6_defensive <-> ev < -0.02.
Proof. unfold EVEngine._classify_ev. qcase; split; (discriminate || lra || reflexivity). Qed.

Lemma classify_monotone ev ev' :
  ev <= ev' ->
  (tier_rank (EVEngine._classify_ev ev) <= tier_rank (EVEngine._classify_ev ev'))%nat.
Proof.
  intros H. unfold EVEngine._classify_ev.
  qcase; simpl; try lia; exfalso; lra.
Qed.

Lemma classifiers_agree exp threshold score feat :
  snd (SignalEngine._ev_classify exp threshold score feat) =
  EVEngine._classify_ev (fst (SignalEngine._ev_classify exp threshold score feat)).
Proof. reflexivity. Qed.

End Tiers.

(** C9. The tier is a function of the value of EV alone; it is T1_explosive
    exactly from 0.35 up, T2_strong exactly on [0.20, 0.35), T3_moderate on
    [0.10, 0.20), T4_neutral on [0.03, 0.10), T5_scalping on [-0.02, 0.03) and
    T6_defensive below -0.02, so that each boundary belongs to the higher
    band; a larger EV never gets a lower band; and the tier that signal
    fusion attaches to its coarse EV is the one the EV engine gives that
    EV. *)
Theorem tier_is_monotone_step_function (ev ev' : Q) (exp : Q -> Q)
  (threshold score : Q) (feat : gmap string Q) :
  (EVEngine._classify_ev ev = T1_explosive <-> 0.35 <= ev) /\
  (EVEngine._classify_ev ev = T2_strong <-> 0.20 <= ev < 0.35) /\
  (EVEngine._classify_ev ev = T3_moderate <-> 0.10 <= ev < 0.20) /\
  (EVEngine._classify_ev ev = T4_neutral <-> 0.03 <= ev < 0.10) /\
  (EVEngine._classify_ev ev = T5_scalping <-> -0.02 <= ev < 0.03) /\
  (EVEngine._classify_ev ev = T6_defensive <-> ev < -0.02) /\
  (ev == ev' -> EVEngine._classify_ev ev = EVEngine._classify_ev ev') /\
  (ev <= ev' ->
   (tier_rank (EVEngine._classify_ev ev)
    <= tier_rank (EVEngine._classify_ev ev'))%nat) /\
  snd (SignalEngine._ev_classify exp threshold score feat) =
  EVEngine._classify_ev (fst (SignalEngine._ev_classify exp threshold score feat)).
Proof.
  split; [apply classify_T1|].
  split; [apply classify_T2|].
  split; [apply classify_T3|].
  split; [apply classify_T4|].
  split; [apply classify_T5|].
  split; [apply classify_T6|].
  split; [|split; [apply classify_monotone | apply classifiers_agree]].
  intros H. unfold EVEngine._classify_ev.
  qcase; try reflexivity; exfalso; lra.
Qed.

(** The boundaries themselves, and two values in different bands. *)
Lemma tier_is_monotone_step_function_witness :
  EVEngine._classify_ev 0.35 = T1_explosive /\
  EVEngine._classify_ev 0.20 = T2_strong /\
  EVEngine._classify_ev (-0.02) = T5_scalping /\
  EVEngine._classify_ev (35 # 100) = EVEngine._classify_ev (7 # 20) /\
  (tier_rank (EVEngine._classify_ev 0.03)
   <= tier_rank (EVEngine._classify_ev 0.35))%nat.
Proof.
  pose proof (tier_is_monotone_step_function 0.35 (7 # 20) (fun _ => 1) 0 0 ∅)
    as (H1 & _ & _ & _ & _ & _ & He & _).
  pose proof (tier_is_monotone_step_function 0.20 0.20 (fun _ => 1) 0 0 ∅)
    as (_ & H2 & _).
  pose proof (tier_is_monotone_step_function (-0.02) 0 (fun _ => 1) 0 0 ∅)
    as (_ & _ & _ & _ & H5 & _).
  pose proof (tier_is_monotone_step_function 0.03 0.35 (fun _ => 1) 0 0 ∅)
    as (_ & _ & _ & _ & _ & _ & _ & Hm & _).
  split; [apply H1; lra|].
  split; [apply H2; lra|].
  split; [apply H5; lra|].
  split; [apply He; reflexivity | apply Hm; lra].
Defined.

(** ** Signal fusion *)

Section Fusion.

Variable weights : gmap string Q.
Hypothesis Hweights : configured weights.

Lemma fusion_returns (feat : gmap string Q) :
  exists breakdown,
    SignalEngine._fusion weights feat
    = Return (breakdown, py_sum (values breakdown)) /\
    map fst breakdown = component_names /\
    (feat !! "price_velocity" = None -> items_get breakdown "breakout" 1 == 0) /\
    (feat !! "volume_acceleration" = None ->
     items_get breakdown "momentum" 1 == 0) /\
    (feat !! "liquidation_heat" = None ->
     items_get breakdown "whale_flow" 1 == 0) /\
    (feat !! "order_imbalance" = None ->
     items_get breakdown "orderbook_imbalance" 1 == 0) /\
    (feat !! "funding_bias" = None ->
     items_get breakdown "funding_flip" 1
     == -0.2 * dict_get weights "funding_flip" 0) /\
    (feat !! "macro_sentiment_score" = None ->
     items_get breakdown "macro_sentiment" 1 == 0) /\
    (feat !! "onchain_score" = None ->
     items_get breakdown "onchain_flow" 1 == 0) /\
    (feat !! "etf_flow_score" = None -> items_get breakdown "etf_flow" 1 == 0) /\
    (feat !! "social_sentiment_score" = None ->
     items_get breakdown "social_sentiment" 1 == 0).
Proof.
  pose proof Hweights as Hw. unfold configured, mandatory_weights in Hw.
  rewrite !Forall_cons in Hw.
  destruct Hw as ([w1 H1] & [w2 H2] & [w3 H3] & [w4 H4] & [w5 H5] & [w6 H6]
                  & [w7 H7] & _).
  unfold SignalEngine._fusion, getitem, dict_get.
  rewrite H1, H2, H3, H4, H5, H6, H7. cbn [obind default].
  eexists. split; [reflexivity|].
  split; [reflexivity|].
  cbn [setitem items_get String.eqb Ascii.eqb Bool.eqb andb].
  repeat split; intros ->; cbn [default id];
    repeat match goal with
    | |- context [Qgt_bool ?a ?b] =>
        let v := eval vm_compute in (Qgt_bool a b) in
        change (Qgt_bool a b) with v
    | |- context [py_min ?a ?b] =>
        let v := eval vm_compute in (py_min a b) in
        change (py_min a b) with v
    end; cbv iota; ring.
Qed.

Lemma fusion_empty :
  exists breakdown total,
    SignalEngine._fusion weights ∅ = Return (breakdown, total) /\
    Forall2 Qeq (values breakdown)
      [0; 0; 0; 0; -0.2 * dict_get weights "funding_flip" 0; 0; 0; 0; 0] /\
    total == -0.2 * dict_get weights "funding_flip" 0.
Proof.
  pose proof Hweights as Hw. unfold configured, mandatory_weights in Hw.
  rewrite !Forall_cons in Hw.
  destruct Hw as ([w1 H1] & [w2 H2] & [w3 H3] & [w4 H4] & [w5 H5] & [w6 H6]
                  & [w7 H7] & _).
  unfold SignalEngine._fusion, getitem, dict_get.
  rewrite !lookup_empty, H1, H2, H3, H4, H5, H6, H7. cbn [obind default].
  eexists _, _. split; [reflexivity|].
  cbn [setitem values map snd String.eqb Ascii.eqb Bool.eqb andb py_sum fold_left].
  repeat match goal with
    | |- context [Qgt_bool ?a ?b] =>
        let v := eval vm_compute in (Qgt_bool a b) in
        change (Qgt_bool a b) with v
    | |- context [py_min ?a ?b] =>
        let v := eval vm_compute in (py_min a b) in
        change (py_min a b) with v
    end; cbv iota.
  unfold id. split; [|ring].
  repeat (constructor; [ring|]). constructor.
Qed.

End Fusion.

(** C7, as the code has it. With the seven mandatory weights configured,
    [_fusion] returns on every feature mapping, whatever features are absent
    from it, and the score is the sum of the nine contributions; an absent
    feature is read as 0, which makes its component contribute zero for
    every component but [funding_flip], whose transform sends 0 to -0.2;
    fusing the empty mapping gives eight zero contributions, the
    contribution -0.2 * weight for [funding_flip], and that same value as
    the score. *)
Theorem fusion_missing_features_default (weights feat : gmap string Q) :
  configured weights ->
  (exists breakdown,
    SignalEngine._fusion weights feat
    = Return (breakdown, py_sum (values breakdown)) /\
    map fst breakdown = component_names /\
    (feat !! "price_velocity" = None -> items_get breakdown "breakout" 1 == 0) /\
    (feat !! "volume_acceleration" = None ->
     items_get breakdown "momentum" 1 == 0) /\
    (feat !! "liquidation_heat" = None ->
     items_get breakdown "whale_flow" 1 == 0) /\
    (feat !! "order_imbalance" = None ->
     items_get breakdown "orderbook_imbalance" 1 == 0) /\
    (feat !! "funding_bias" = None ->
     items_get breakdown "funding_flip" 1
     == -0.2 * dict_get weights "funding_flip" 0) /\
    (feat !! "macro_sentiment_score" = None ->
     items_get breakdown "macro_sentiment" 1 == 0) /\
    (feat !! "onchain_score" = None ->
     items_get breakdown "onchain_flow" 1 == 0) /\
    (feat !! "etf_flow_score" = None -> items_get breakdown "etf_flow" 1 == 0) /\
    (feat !! "social_sentiment_score" = None ->
     items_get breakdown "social_sentiment" 1 == 0)) /\
  (exists breakdown total,
    SignalEngine._fusion weights ∅ = Return (breakdown, total) /\
    Forall2 Qeq (values breakdown)
      [0; 0; 0; 0; -0.2 * dict_get weights "funding_flip" 0; 0; 0; 0; 0] /\
    total == -0.2 * dict_get weights "funding_flip" 0).
Proof.
  intros Hw. split; [apply fusion_returns | apply fusion_empty]; exact Hw.
Qed.

Lemma example_weights_configured : configured example_weights.
Proof.
  unfold configured, mandatory_weights.
  repeat constructor; vm_compute; eexists; reflexivity.
Defined.

Lemma fusion_missing_features_default_witness :
  configured example_weights /\
  exists breakdown total,
    SignalEngine._fusion example_weights ∅ = Return (breakdown, total) /\
    total == -0.2 * 0.1.
Proof.
  split; [exact example_weights_configured|].
  destruct (fusion_missing_features_default example_weights ∅
              example_weights_configured) as [_ (bd & total & H1 & _ & H3)].
  exists bd, total. split; [exact H1|]. rewrite H3. reflexivity.
Defined.

(** C7, as the claim words it, fails: with the weights of the example the
    empty feature mapping gets a non-zero [funding_flip] contribution and a
    non-zero score. *)
Lemma fusion_empty_is_not_neutral :
  exists breakdown total,
    SignalEngine._fusion example_weights ∅ = Return (breakdown, total) /\
    ~ items_get breakdown "funding_flip" 0 == 0 /\
    ~ total == 0.
Proof.
  eexists _, _. split; [vm_compute; reflexivity|].
  split; intros H; vm_compute in H; discriminate H.
Qed.

(** ** The estimators of the EV engine *)

Section Estimators.

Lemma count_trades_nonneg cond history : 0 <= inject_Z (EVEngine.count_trades cond history).
Proof.
  unfold EVEngine.count_trades.
  change 0 with (inject_Z 0). rewrite <- Zle_Qle. apply Nat2Z.is_nonneg.
Qed.

Lemma estimate_probability_bounds exp self symbol score state p :
  EVEngine._estimate_probability exp self symbol score state = Return p ->
  0.01 <= p <= 0.99.
Proof.
  unfold EVEngine._estimate_probability.
  destruct (py_truediv _ _); cbn [obind]; [|discriminate].
  intros [= <-]. apply np_clip_bounds. lra.
Qed.

Lemma estimate_probability_returns exp self symbol score state :
  0 < beta_prior_alpha self -> 0 < beta_prior_beta self ->
  exists p, EVEngine._estimate_probability exp self symbol score state = Return p.
Proof.
  intros Ha Hb. unfold EVEngine._estimate_probability.
  rewrite py_truediv_Return; [cbn [obind]; eexists; reflexivity|].
  pose proof (count_trades_nonneg
    (fun t => String.eqb (th_symbol t) symbol && th_win t) (history self)).
  pose proof (count_trades_nonneg
    (fun t => String.eqb (th_symbol t) symbol && negb (th_win t)) (history self)).
  lra.
Qed.

Lemma estimate_gain_bounds state :
  0.5 <= EVEngine._estimate_gain state <= 5.0.
Proof. unfold EVEngine._estimate_gain. apply np_clip_bounds. lra. Qed.

Lemma estimate_loss_bounds state L :
  EVEngine._estimate_loss state = Return L -> 0.5 <= L <= 5.0.
Proof.
  unfold EVEngine._estimate_loss.
  destruct (py_truediv _ _); cbn [obind]; [|discriminate].
  intros [= <-]. apply np_clip_bounds. lra.
Qed.

Lemma estimate_loss_returns state :
  ~ dict_get state "depth_score" 1.0 == 0 ->
  exists L, EVEngine._estimate_loss state = Return L.
Proof.
  intros H. unfold EVEngine._estimate_loss.
  rewrite py_truediv_Return by exact H. cbn [obind]. eexists; reflexivity.
Qed.

Lemma estimate_loss_raises state :
  dict_get state "depth_score" 1.0 == 0 ->
  EVEngine._estimate_loss state = Raise ZeroDivisionError.
Proof.
  intros H. unfold EVEngine._estimate_loss.
  rewrite py_truediv_Raise by exact H. reflexivity.
Qed.

Lemma dynamic_kelly_bounds p G L k :
  EVEngine._dynamic_kelly p G L = Return k -> 0 <= k <= 0.25.
Proof.
  unfold EVEngine._dynamic_kelly.
  destruct (if negb (Qeq_bool L 0) then py_truediv G L else Return 1);
    cbn [obind]; [|discriminate].
  destruct (py_truediv _ _) as [kelly_fraction|]; cbn [obind]; [|discriminate].
  intros [= <-].
  destruct (np_clip_bounds kelly_fraction 0.0 0.25) as [H1 H2]; lra.
Qed.

Lemma dynamic_kelly_returns p G L :
  0 < G -> 0 < L -> exists k, EVEngine._dynamic_kelly p G L = Return k.
Proof.
  intros HG HL. unfold EVEngine._dynamic_kelly.
  assert (HL0 : ~ L == 0) by lra.
  apply Qeq_bool_false in HL0 as E. rewrite E. cbn [negb].
  rewrite py_truediv_Return by exact HL0. cbn [obind].
  rewrite py_truediv_Return; [cbn [obind]; eexists; reflexivity|].
  intros H0. assert (0 < G / L) by (apply Qlt_shift_div_l; lra). lra.
Qed.

(** The odds ratio is replaced by 1 when the loss is zero. *)
Lemma dynamic_kelly_zero_loss p G L :
  L == 0 ->
  EVEngine._dynamic_kelly p G L = Return (np_clip ((p * (1 + 1) - 1) / 1) 0.0 0.25).
Proof.
  intros H. unfold EVEngine._dynamic_kelly.
  apply Qeq_bool_iff in H. rewrite H. reflexivity.
Qed.

End Estimators.

(** ** One evaluation of EV *)

(** Unfolding of the monad on a goal. *)
Ltac mstep :=
  cbn [bind ret lift gets modify when reading try_except exp_of float_of utcnow
       random_choice np_random_randint logging fst snd negb].

Section Evaluation.

Variables (env : Env) (w : World) (sym : string) (state : gmap string Q).

Lemma recommend_leverage_reads ev :
  exists lev, EVEngine._recommend_leverage ev env w = (tick w, Return lev).
Proof.
  unfold EVEngine._recommend_leverage.
  repeat match goal with
         | |- context [Qge_bool ?a ?b] => destruct (Qge_bool a b)
         end; eexists; reflexivity.
Qed.

Lemma calculate_ev_no_signal :
  signals (signal_engine w) !! sym = None ->
  EVEngine.calculate_ev_for_symbol sym state env w = (w, Return None).
Proof.
  intros H. unfold EVEngine.calculate_ev_for_symbol, SignalEngine.get_signal.
  mstep. rewrite H. reflexivity.
Qed.

Lemma calculate_ev_returns sd p loss k :
  signals (signal_engine w) !! sym = Some sd ->
  EVEngine._estimate_probability (np_exp env) (ev_engine w) sym
    (signal_score sd) state = Return p ->
  EVEngine._estimate_loss state = Return loss ->
  EVEngine._dynamic_kelly p (EVEngine._estimate_gain state) loss = Return k ->
  exists r,
    EVEngine.calculate_ev_for_symbol sym state env w
    = (set_ev_engine (EVEngine.record (history_entry_of r)) (tick w),
       Return (Some r)) /\
    symbol r = sym /\ p_win r = p /\ G r = EVEngine._estimate_gain state /\
    L r = loss /\ kelly_position r = k /\
    EV r = p * EVEngine._estimate_gain state - (1 - p) * loss
           - EVEngine._estimate_fees state /\
    tier r = EVEngine._classify_ev (EV r) /\
    components r = signal_components sd.
Proof.
  intros Hs Hp Hl Hk.
  unfold EVEngine.calculate_ev_for_symbol, SignalEngine.get_signal.
  mstep. rewrite Hs. mstep. rewrite Hp, Hl. mstep. unfold bind at 1.
  destruct (recommend_leverage_reads
    (p * EVEngine._estimate_gain state - (1 - p) * loss
     - EVEngine._estimate_fees state)) as [lev ->].
  mstep. rewrite Hk. unfold EVEngine._record_history. mstep.
  eexists {| symbol := sym |}. cbn. repeat split; reflexivity.
Qed.

(** With a signal, a Beta prior and a depth that is not zero, the
    evaluation returns. *)
Lemma calculate_ev_total sd :
  signals (signal_engine w) !! sym = Some sd ->
  valid_prior (ev_engine w) -> valid_market_state state ->
  exists r,
    EVEngine.calculate_ev_for_symbol sym state env w
    = (set_ev_engine (EVEngine.record (history_entry_of r)) (tick w),
       Return (Some r)) /\
    symbol r = sym /\
    0.01 <= p_win r <= 0.99 /\ 0.5 <= G r <= 5.0 /\ 0.5 <= L r <= 5.0 /\
    0 <= kelly_position r <= 0.25 /\
    EV r = p_win r * G r - (1 - p_win r) * L r - EVEngine._estimate_fees state /\
    tier r = EVEngine._classify_ev (EV r).
Proof.
  intros Hs [Ha Hb] Hd.
  destruct (estimate_probability_returns (np_exp env) (ev_engine w) sym
              (signal_score sd) state Ha Hb) as [p Hp].
  destruct (estimate_loss_returns state Hd) as [loss Hl].
  pose proof (estimate_probability_bounds _ _ _ _ _ _ Hp) as Bp.
  pose proof (estimate_gain_bounds state) as Bg.
  pose proof (estimate_loss_bounds _ _ Hl) as Bl.
  destruct (dynamic_kelly_returns p (EVEngine._estimate_gain state) loss)
    as [k Hk]; [lra | lra |].
  pose proof (dynamic_kelly_bounds _ _ _ _ Hk) as Bk.
  destruct (calculate_ev_returns sd p loss k Hs Hp Hl Hk)
    as (r & Hr & H1 & H2 & H3 & H4 & H5 & H6 & H7 & _).
  exists r. rewrite H2, H3, H4, H5.
  repeat split; try assumption; lra.
Qed.

(** With a signal and a depth of zero, the evaluation raises and leaves no
    entry in the history. *)
Lemma calculate_ev_zero_depth sd :
  signals (signal_engine w) !! sym = Some sd ->
  valid_prior (ev_engine w) ->
  dict_get state "depth_score" 1.0 == 0 ->
  EVEngine.calculate_ev_for_symbol sym state env w
  = (w, Raise ZeroDivisionError).
Proof.
  intros Hs [Ha Hb] Hd.
  destruct (estimate_probability_returns (np_exp env) (ev_engine w) sym
              (signal_score sd) state Ha Hb) as [p Hp].
  unfold EVEngine.calculate_ev_for_symbol, SignalEngine.get_signal.
  mstep. rewrite Hs. mstep. rewrite Hp. mstep.
  rewrite (estimate_loss_raises state Hd). reflexivity.
Qed.

End Evaluation.

(** ** Properties kept by every step *)

Section Frame.

Context {A B : Type} (P : World -> Prop).

Lemma preserves_ret (a : A) : preserves P (ret a).
Proof. intros env w H. exact H. Qed.

Lemma preserves_lift (o : Outcome A) : preserves P (lift o).
Proof. intros env w H. exact H. Qed.

Lemma preserves_gets (f : World -> A) : preserves P (gets f).
Proof. intros env w H. exact H. Qed.

Lemma preserves_exp_of : preserves P exp_of.
Proof. intros env w H. exact H. Qed.

Lemma preserves_float_of : preserves P float_of.
Proof. intros env w H. exact H. Qed.

Lemma preserves_modify (f : World -> World) :
  (forall w, P w -> P (f w)) -> preserves P (modify f).
Proof. intros Hf env w H. apply Hf, H. Qed.

Lemma preserves_reading (f : Env -> nat -> A) :
  (forall w, P w -> P (tick w)) -> preserves P (reading f).
Proof. intros Hf env w H. apply Hf, H. Qed.

Lemma preserves_bind (m : M A) (k : A -> M B) :
  preserves P m -> (forall a, preserves P (k a)) -> preserves P (bind m k).
Proof.
  intros Hm Hk env w H. unfold bind.
  specialize (Hm env w H).
  destruct (m env w) as [w' [a|e]]; [apply Hk, Hm | exact Hm].
Qed.

Lemma preserves_try_except (m : M A) (h : Exn -> M A) :
  preserves P m -> (forall e, preserves P (h e)) -> preserves P (try_except m h).
Proof.
  intros Hm Hh env w H. unfold try_except.
  specialize (Hm env w H).
  destruct (m env w) as [w' [a|e]]; [exact Hm | apply Hh, Hm].
Qed.

End Frame.

Lemma preserves_when (P : World -> Prop) (b : bool) (m : M unit) :
  preserves P m -> preserves P (when b m).
Proof. intros Hm. destruct b; [exact Hm | apply preserves_ret]. Qed.

(** Walks through a method; what is left is what each assignment and each
    call of another method does to the property. *)
Ltac frame_step :=
  match goal with
  | |- preserves _ (ret _) => apply preserves_ret
  | |- preserves _ (lift _) => apply preserves_lift
  | |- preserves _ (gets _) => apply preserves_gets
  | |- preserves _ exp_of => apply preserves_exp_of
  | |- preserves _ float_of => apply preserves_float_of
  | |- preserves _ (bind _ _) => apply preserves_bind; [|intro]
  | |- preserves _ (try_except _ _) => apply preserves_try_except; [|intro]
  | |- preserves _ (when _ _) => apply preserves_when
  | |- preserves _ (logging _) => apply preserves_modify; intros ? ?
  | |- preserves _ (modify _) => apply preserves_modify; intros ? ?
  | |- preserves _ utcnow => apply preserves_reading; intros ? ?
  | |- preserves _ random_choice => apply preserves_reading; intros ? ?
  | |- preserves _ (np_random_randint _ _) => apply preserves_reading; intros ? ?
  | |- preserves _ (reading _) => apply preserves_reading; intros ? ?
  | |- preserves _ (if ?b then _ else _) => destruct b
  | |- preserves _ (match ?x with _ => _ end) => destruct x
  | |- preserves _ (let '(_, _) := ?x in _) => destruct x
  end.

Ltac frame := repeat frame_step; try assumption.

(** ** What each method leaves alone *)

Lemma ev_result_EV r : ev_result_float r "EV" = Return (EV r).
Proof. reflexivity. Qed.

Lemma ev_result_p_win r : ev_result_float r "p_win" = Return (p_win r).
Proof. reflexivity. Qed.

Lemma ev_result_kelly_position r :
  ev_result_float r "kelly_position" = Return (kelly_position r).
Proof. reflexivity. Qed.

(** The returned dict has no key "ev_entry". *)
Lemma ev_result_ev_entry r :
  ev_result_float r "ev_entry" = Raise (KeyError "ev_entry").
Proof. reflexivity. Qed.

(** Unfolding of the monad past the reads of a result. *)
Ltac mstep_result :=
  mstep;
  repeat (progress (rewrite ?ev_result_EV, ?ev_result_p_win,
                      ?ev_result_kelly_position, ?ev_result_ev_entry);
          mstep).

(** [_maybe_rotate] never gets past its first comparison: it raises
    KeyError, on the symbol when the position is gone and on "ev_entry"
    otherwise, and changes nothing. *)
Lemma maybe_rotate_raises sym r env w :
  ExecutionEngine._maybe_rotate sym r env w
  = (w, Raise (KeyError (match active_positions (executor w) !! sym with
                         | Some _ => "ev_entry"
                         | None => sym
                         end))).
Proof.
  unfold ExecutionEngine._maybe_rotate, getitem. mstep.
  destruct (active_positions (executor w) !! sym); reflexivity.
Qed.

Section Independent.

Variable P : World -> Prop.
Hypothesis P_tick : forall w, P w -> P (tick w).
Hypothesis P_log : forall r w, is_rotation r = false -> P w -> P (add_log r w).
Hypothesis P_risk : forall f w, P w -> P (set_risk_manager f w).
Hypothesis P_ev : forall e w, P w -> P (set_ev_engine (EVEngine.record e) w).
Hypothesis P_executor : forall f w, P w -> P (set_executor f w).

Ltac indep :=
  frame;
  first [ apply P_tick; assumption
        | apply P_log; [reflexivity | assumption]
        | apply P_risk; assumption
        | apply P_ev; assumption
        | apply P_executor; assumption ].

Lemma trigger_circuit_breaker_preserves reason :
  preserves P (RiskManager._trigger_circuit_breaker reason).
Proof. unfold RiskManager._trigger_circuit_breaker. indep. Qed.

Lemma check_circuit_breaker_preserves :
  preserves P RiskManager.check_circuit_breaker.
Proof. unfold RiskManager.check_circuit_breaker. indep. Qed.

Lemma register_trade_result_preserves pnl :
  preserves P (RiskManager.register_trade_result pnl).
Proof.
  unfold RiskManager.register_trade_result. frame.
  all: try (apply P_risk; assumption).
  apply trigger_circuit_breaker_preserves.
Qed.

Lemma pre_trade_check_preserves ev :
  preserves P (RiskManager.pre_trade_check ev).
Proof.
  unfold RiskManager.pre_trade_check, RiskManager._check_drawdown,
    RiskManager._check_margin_health.
  frame.
  all: first [ apply trigger_circuit_breaker_preserves
             | apply P_tick; assumption
             | apply P_log; [reflexivity | assumption] ].
Qed.

Lemma check_risk_preserves sym ev :
  preserves P (ExecutionEngine._check_risk sym ev).
Proof.
  unfold ExecutionEngine._check_risk. frame.
  all: first [ apply check_circuit_breaker_preserves
             | apply P_log; [reflexivity | assumption] ].
Qed.

Lemma in_cooldown_preserves sym :
  preserves P (ExecutionEngine._in_cooldown sym).
Proof. unfold ExecutionEngine._in_cooldown. indep. Qed.

Lemma recommend_leverage_preserves ev :
  preserves P (EVEngine._recommend_leverage ev).
Proof. unfold EVEngine._recommend_leverage. indep. Qed.

Lemma calculate_ev_preserves sym state :
  preserves P (EVEngine.calculate_ev_for_symbol sym state).
Proof.
  unfold EVEngine.calculate_ev_for_symbol, SignalEngine.get_signal,
    EVEngine._record_history.
  frame.
  - apply recommend_leverage_preserves.
  - apply P_ev; assumption.
Qed.

Lemma maybe_rotate_preserves sym r :
  preserves P (ExecutionEngine._maybe_rotate sym r).
Proof. intros env w H. rewrite maybe_rotate_raises. exact H. Qed.

Lemma enter_position_preserves sym r lev size :
  preserves P (ExecutionEngine._enter_position sym r lev size).
Proof.
  unfold ExecutionEngine._enter_position, ExecutionEngine._mock_order. indep.
Qed.

Lemma exit_position_preserves sym reason :
  String.eqb reason "Rotated for higher EV" = false ->
  preserves P (ExecutionEngine._exit_position sym reason).
Proof.
  intros Hreason. unfold ExecutionEngine._exit_position. frame.
  all: first [ apply P_tick; assumption
             | apply P_log; [exact Hreason | assumption]
             | apply P_executor; assumption ].
Qed.

Lemma maybe_exit_preserves sym r :
  preserves P (ExecutionEngine._maybe_exit sym r).
Proof.
  unfold ExecutionEngine._maybe_exit, ExecutionEngine._position_profitable.
  frame.
  all: first [ apply exit_position_preserves; reflexivity
             | apply P_tick; assumption ].
Qed.

Lemma execute_symbol_preserves sym state :
  preserves P (ExecutionEngine.execute_symbol sym state).
Proof.
  unfold ExecutionEngine.execute_symbol. frame.
  all: first [ apply calculate_ev_preserves
             | apply check_risk_preserves
             | apply in_cooldown_preserves
             | apply maybe_exit_preserves
             | apply maybe_rotate_preserves
             | apply enter_position_preserves ].
Qed.

Lemma execute_cycle_preserves snapshot :
  preserves P (ExecutionEngine.execute_cycle snapshot).
Proof.
  induction snapshot as [|[sym state] rest IH]; cbn [ExecutionEngine.execute_cycle].
  - apply preserves_ret.
  - apply preserves_bind; [apply execute_symbol_preserves | intros _; exact IH].
Qed.

End Independent.

(** ** The bounded histories *)

Section Histories.

Lemma record_history e self :
  history (EVEngine.record e self)
  = if (Z.of_nat (length (history self ++ [e])) >? trade_window self)%Z
    then tl (history self ++ [e]) else history self ++ [e].
Proof. reflexivity. Qed.

(** Below the window the entry is added at the end and nothing leaves. *)
Lemma record_below_window e self :
  (Z.of_nat (length (history self)) < trade_window self)%Z ->
  history (EVEngine.record e self) = history self ++ [e].
Proof.
  intros H. rewrite record_history.
  rewrite length_app, Nat.add_1_r.
  destruct (Z.gtb_spec (Z.of_nat (S (length (history self)))) (trade_window self));
    [lia | reflexivity].
Qed.

(** At the window the entry is added at the end and the oldest one leaves. *)
Lemma record_at_window e self oldest others :
  history self = oldest :: others ->
  Z.of_nat (length (history self)) = trade_window self ->
  history (EVEngine.record e self) = others ++ [e].
Proof.
  intros Hh H. rewrite record_history.
  rewrite length_app, Nat.add_1_r.
  destruct (Z.gtb_spec (Z.of_nat (S (length (history self)))) (trade_window self));
    [|lia].
  rewrite Hh. reflexivity.
Qed.

Lemma record_length e self :
  (Z.of_nat (length (history self)) <= trade_window self)%Z ->
  (Z.of_nat (length (history (EVEngine.record e self)))
   <= trade_window (EVEngine.record e self))%Z.
Proof.
  intros H. rewrite record_history. cbn [EVEngine.record trade_window].
  destruct (Z.gtb_spec (Z.of_nat (length (history self ++ [e]))) (trade_window self))
    as [Hgt|Hle]; [|exact Hle].
  rewrite length_app, Nat.add_1_r in Hgt.
  destruct (history self) as [|x l]; cbn [app tl length] in *.
  - lia.
  - rewrite length_app, Nat.add_1_r. lia.
Qed.

Lemma deque_append_length {A} maxlen (d : list A) x :
  (length d <= maxlen)%nat ->
  (length (SignalEngine.deque_append maxlen d x) <= maxlen)%nat.
Proof.
  intros H. unfold SignalEngine.deque_append.
  destruct (Nat.ltb_spec maxlen (length (d ++ [x]))) as [Hlt|Hle]; [|exact Hle].
  destruct d as [|y d]; cbn [app tl length] in *; [lia|].
  rewrite length_app, Nat.add_1_r. lia.
Qed.

(** A full deque drops its leftmost item. *)
Lemma deque_append_full {A} maxlen (d : list A) oldest others x :
  d = oldest :: others -> length d = maxlen ->
  SignalEngine.deque_append maxlen d x = others ++ [x].
Proof.
  intros -> H. unfold SignalEngine.deque_append.
  destruct (Nat.ltb_spec maxlen (length ((oldest :: others) ++ [x]))) as [Hlt|Hle].
  - reflexivity.
  - rewrite length_app, Nat.add_1_r in Hle. lia.
Qed.

Lemma histories_bounded_tick w : histories_bounded w -> histories_bounded (tick w).
Proof. intros H. exact H. Qed.

Lemma histories_bounded_log r w :
  is_rotation r = false -> histories_bounded w -> histories_bounded (add_log r w).
Proof. intros _ H. exact H. Qed.

Lemma histories_bounded_risk f w :
  histories_bounded w -> histories_bounded (set_risk_manager f w).
Proof. intros H. exact H. Qed.

Lemma histories_bounded_executor f w :
  histories_bounded w -> histories_bounded (set_executor f w).
Proof. intros H. exact H. Qed.

Lemma histories_bounded_record e w :
  histories_bounded w -> histories_bounded (set_ev_engine (EVEngine.record e) w).
Proof.
  intros [H1 H2]. split; [|exact H2].
  cbn [set_ev_engine ev_engine]. apply record_length, H1.
Qed.

Lemma histories_bounded_append r w :
  histories_bounded w ->
  histories_bounded (set_signal_engine (SignalEngine.append_history r) w).
Proof.
  intros [H1 H2]. split; [exact H1|].
  cbn [set_signal_engine signal_engine SignalEngine.append_history signal_history].
  apply deque_append_length, H2.
Qed.

Lemma compute_signals_bounded features sg :
  preserves histories_bounded (SignalEngine._compute_signals_from features sg).
Proof.
  revert sg. induction features as [|[sym feat] rest IH]; intros sg;
    cbn [SignalEngine._compute_signals_from].
  - apply preserves_ret.
  - frame; first [apply histories_bounded_append; assumption | apply IH].
Qed.

Lemma run_turn_bounded features :
  preserves histories_bounded (SignalEngine.run_turn features).
Proof.
  unfold SignalEngine.run_turn, SignalEngine._compute_signals. frame.
  apply compute_signals_bounded.
Qed.

Lemma calculate_ev_bounded sym state :
  preserves histories_bounded (EVEngine.calculate_ev_for_symbol sym state).
Proof.
  apply calculate_ev_preserves;
    auto using histories_bounded_record.
Qed.

Lemma execute_cycle_bounded snapshot :
  preserves histories_bounded (ExecutionEngine.execute_cycle snapshot).
Proof.
  apply execute_cycle_preserves;
    auto using histories_bounded_record.
Qed.

End Histories.

(** C8, as the code has it. A call of [calculate_ev_for_symbol] for a symbol
    that has a signal, under a Beta prior and with a depth that is not zero,
    returns a result and appends exactly one entry, whose win flag says
    whether the EV of the result is positive: below the window the entry is
    added and nothing leaves; at the window the oldest entry, and only it,
    leaves. A call for a symbol without a signal returns the empty result
    and appends nothing. An evaluation of EV, a turn of signal fusion and an
    execution cycle each keep both histories within their capacity,
    [trade_window] and 1000, whatever their outcome. *)
Theorem ev_history_is_bounded_fifo (env : Env) (w : World) (sym : string)
  (state : gmap string Q) :
  histories_bounded w ->
  (forall sd,
     signals (signal_engine w) !! sym = Some sd ->
     valid_prior (ev_engine w) -> valid_market_state state ->
     exists w' r,
       EVEngine.calculate_ev_for_symbol sym state env w = (w', Return (Some r)) /\
       (th_win (history_entry_of r) = true <-> 0 < EV r) /\
       th_EV (history_entry_of r) = EV r /\
       th_symbol (history_entry_of r) = sym /\
       ((Z.of_nat (length (history (ev_engine w))) < trade_window (ev_engine w))%Z ->
        history (ev_engine w') = history (ev_engine w) ++ [history_entry_of r]) /\
       (forall oldest others,
          history (ev_engine w) = oldest :: others ->
          Z.of_nat (length (history (ev_engine w))) = trade_window (ev_engine w) ->
          history (ev_engine w') = others ++ [history_entry_of r]) /\
       trade_window (ev_engine w') = trade_window (ev_engine w)) /\
  (signals (signal_engine w) !! sym = None ->
   EVEngine.calculate_ev_for_symbol sym state env w = (w, Return None)) /\
  histories_bounded (fst (EVEngine.calculate_ev_for_symbol sym state env w)) /\
  (forall features,
     histories_bounded (fst (SignalEngine.run_turn features env w))) /\
  (forall snapshot,
     histories_bounded (fst (ExecutionEngine.execute_cycle snapshot env w))).
Proof.
  intros Hb. split; [|split; [|split; [|split]]].
  - intros sd Hs Hp Hd.
    destruct (calculate_ev_total env w sym state sd Hs Hp Hd)
      as (r & Hr & Hsym & _).
    eexists _, r. split; [exact Hr|].
    split; [apply Qgt_bool_true|].
    split; [reflexivity|]. split; [exact Hsym|].
    cbn [set_ev_engine ev_engine tick].
    split; [apply record_below_window|].
    split; [|reflexivity].
    intros oldest others. apply record_at_window.
  - apply calculate_ev_no_signal.
  - apply calculate_ev_bounded, Hb.
  - intros features. apply run_turn_bounded, Hb.
  - intros snapshot. apply execute_cycle_bounded, Hb.
Qed.

Lemma example_world_bounded : histories_bounded example_world.
Proof. split; cbn; lia. Defined.

Lemma example_prior_valid : valid_prior (ev_engine example_world).
Proof. split; reflexivity. Defined.

Lemma example_state_valid : valid_market_state example_state.
Proof. intros H. vm_compute in H. discriminate H. Defined.

Lemma ev_history_is_bounded_fifo_witness :
  histories_bounded example_world /\
  (exists w' r,
     EVEngine.calculate_ev_for_symbol "BTCUSDT" example_state example_env
       example_world = (w', Return (Some r)) /\
     history (ev_engine w') = [history_entry_of r] /\
     th_win (history_entry_of r) = true) /\
  histories_bounded
    (fst (ExecutionEngine.execute_cycle [("BTCUSDT", example_state)]
            example_env example_world)).
Proof.
  split; [exact example_world_bounded|].
  destruct (ev_history_is_bounded_fifo example_env example_world "BTCUSDT"
              example_state example_world_bounded)
    as (Hcall & _ & _ & _ & Hcycle).
  split; [|apply Hcycle].
  destruct (Hcall example_signal eq_refl example_prior_valid example_state_valid)
    as (w' & r & Hr & Hwin & _ & _ & Hbelow & _).
  exists w', r. split; [exact Hr|].
  split; [apply Hbelow; cbn; lia|].
  clear Hbelow Hwin.
  vm_compute in Hr. injection Hr as _ <-. reflexivity.
Defined.

(** C8, as the claim words it, fails: a call for a symbol that has no signal
    returns the empty result and appends nothing, although the history is
    below its window. *)
Lemma evaluation_without_signal_records_nothing :
  snd (EVEngine.calculate_ev_for_symbol "ETHUSDT" example_state example_env
         example_world) = Return None /\
  history (ev_engine (fst (EVEngine.calculate_ev_for_symbol "ETHUSDT"
                             example_state example_env example_world)))
  = history (ev_engine example_world) /\
  (Z.of_nat (length (history (ev_engine example_world)))
   < trade_window (ev_engine example_world))%Z.
Proof.
  rewrite calculate_ev_no_signal by reflexivity.
  split; [reflexivity|]. split; [reflexivity|]. cbn. lia.
Qed.

(** C10. For every process state (so every history), every symbol that has
    a signal, under a Beta prior and for every market state whose depth is
    not zero, the evaluation of EV returns a result whose win probability
    is in [0.01, 0.99], whose gain and loss are in [0.5, 5.0] and whose
    Kelly fraction is in [0, 0.25]. *)
Theorem ev_outputs_within_clamps (env : Env) (w : World) (sym : string)
  (state : gmap string Q) (sd : Signal) :
  signals (signal_engine w) !! sym = Some sd ->
  valid_prior (ev_engine w) ->
  valid_market_state state ->
  exists w' r,
    EVEngine.calculate_ev_for_symbol sym state env w = (w', Return (Some r)) /\
    0.01 <= p_win r <= 0.99 /\
    0.5 <= G r <= 5.0 /\
    0.5 <= L r <= 5.0 /\
    0 <= kelly_position r <= 0.25.
Proof.
  intros Hs Hp Hd.
  destruct (calculate_ev_total env w sym state sd Hs Hp Hd)
    as (r & Hr & _ & Bp & Bg & Bl & Bk & _).
  eexists _, r. repeat split; try exact Hr; lra.
Qed.

Lemma ev_outputs_within_clamps_witness :
  signals (signal_engine example_world) !! "BTCUSDT" = Some example_signal /\
  valid_prior (ev_engine example_world) /\
  valid_market_state example_state /\
  exists w' r,
    EVEngine.calculate_ev_for_symbol "BTCUSDT" example_state example_env
      example_world = (w', Return (Some r)) /\
    0.01 <= p_win r <= 0.99 /\
    0.5 <= G r <= 5.0 /\
    0.5 <= L r <= 5.0 /\
    0 <= kelly_position r <= 0.25.
Proof.
  split; [reflexivity|].
  split; [exact example_prior_valid|].
  split; [exact example_state_valid|].
  exact (ev_outputs_within_clamps example_env example_world "BTCUSDT"
           example_state example_signal eq_refl example_prior_valid
           example_state_valid).
Defined.

(** ** Degenerate arithmetic *)

Section Degenerate.

(** The drawdown ratio is guarded: a peak of zero, or below, gives 0. *)
Lemma drawdown_ratio_returns round equity peak :
  exists d, RiskManager.drawdown_ratio round equity peak = Return d.
Proof.
  unfold RiskManager.drawdown_ratio. qcase.
  - rewrite py_truediv_Return by lra. eexists; reflexivity.
  - eexists; reflexivity.
Qed.

Lemma drawdown_ratio_zero_peak round equity :
  RiskManager.drawdown_ratio round equity 0 = Return 0.
Proof. reflexivity. Qed.

Lemma last_n_length {A} n (l : list A) :
  length (last_n n l) = Nat.min n (length l).
Proof. unfold last_n. rewrite length_skipn. lia. Qed.

(** The risk heat is guarded: an empty drawdown history gives 0, and the
    average of a history that is not empty divides by its length. *)
Lemma risk_heat_returns self :
  exists heat, RiskManager._risk_heat self = Return heat.
Proof.
  unfold RiskManager._risk_heat.
  destruct (drawdown_history self) as [|x l] eqn:E; [eexists; reflexivity|].
  rewrite py_truediv_Return; [cbn [obind]; eexists; reflexivity|].
  rewrite last_n_length. cbn [length].
  intros H. unfold Qeq in H. cbn [Qnum Qden inject_Z] in H.
  destruct (Nat.min_spec 10 (S (length l))) as [[_ Hm]|[_ Hm]];
    rewrite Hm in H; lia.
Qed.

Lemma risk_heat_empty self :
  drawdown_history self = [] -> RiskManager._risk_heat self = Return 0.0.
Proof. intros H. unfold RiskManager._risk_heat. rewrite H. reflexivity. Qed.

Lemma dynamic_stop_loss_returns self current_price entry_price volatility :
  exists stop,
    RiskManager.dynamic_stop_loss self current_price entry_price volatility
    = Return stop.
Proof.
  unfold RiskManager.dynamic_stop_loss.
  destruct (risk_heat_returns self) as [heat ->]. cbn [obind].
  eexists; reflexivity.
Qed.

End Degenerate.

(** C4: the depth divisor of the loss estimator is not guarded. A market
    state whose depth score is zero makes [_estimate_loss] raise
    ZeroDivisionError, and with it the whole evaluation of EV for a symbol
    that has a signal; the default 1.0 only replaces a depth score that is
    absent. *)
Theorem loss_estimator_raises_on_zero_depth (env : Env) (w : World)
  (sym : string) (state : gmap string Q) (sd : Signal) :
  signals (signal_engine w) !! sym = Some sd ->
  valid_prior (ev_engine w) ->
  dict_get state "depth_score" 1.0 == 0 ->
  EVEngine._estimate_loss state = Raise ZeroDivisionError /\
  EVEngine.calculate_ev_for_symbol sym state env w = (w, Raise ZeroDivisionError).
Proof.
  intros Hs Hp Hd. split.
  - apply estimate_loss_raises, Hd.
  - apply (calculate_ev_zero_depth env w sym state sd Hs Hp Hd).
Qed.

Lemma loss_estimator_raises_on_zero_depth_witness :
  signals (signal_engine example_world) !! "BTCUSDT" = Some example_signal /\
  valid_prior (ev_engine example_world) /\
  dict_get zero_depth_state "depth_score" 1.0 == 0 /\
  EVEngine._estimate_loss zero_depth_state = Raise ZeroDivisionError /\
  EVEngine.calculate_ev_for_symbol "BTCUSDT" zero_depth_state example_env
    example_world = (example_world, Raise ZeroDivisionError).
Proof.
  split; [reflexivity|].
  split; [exact example_prior_valid|].
  split; [reflexivity|].
  exact (loss_estimator_raises_on_zero_depth example_env example_world
           "BTCUSDT" zero_depth_state example_signal eq_refl
           example_prior_valid eq_refl).
Defined.

(** ** The circuit breaker *)

Section Breaker.

Variable env : Env.

(** A losing trade lengthens the streak, and trips the breaker at the time
    of the call once the streak has reached three. *)
Lemma register_loss w pnl :
  pnl < 0 ->
  exists w',
    RiskManager.register_trade_result pnl env w = (w', Return tt) /\
    loss_streak (risk_manager w') = S (loss_streak (risk_manager w)) /\
    (readings w <= readings w' <= S (readings w))%nat /\
    ((3 <= S (loss_streak (risk_manager w)))%nat ->
     tripped_at (utcnow_at env (readings w)) w' /\
     readings w' = S (readings w)).
Proof.
  intros H. apply Qlt_bool_true in H.
  unfold RiskManager.register_trade_result. rewrite H. mstep.
  cbn [set_risk_manager risk_manager RiskManager.append_drawdown
       RiskManager.set_loss_streak loss_streak].
  rewrite Nat.add_1_r.
  destruct (3 <=? S (loss_streak (risk_manager w)))%nat eqn:E.
  - unfold RiskManager._trigger_circuit_breaker. mstep.
    eexists. split; [reflexivity|]. cbn.
    repeat split; try lia; reflexivity.
  - mstep. eexists. split; [reflexivity|]. cbn.
    apply Nat.leb_gt in E. repeat split; try lia; lia.
Qed.

(** A trade that is not a loss resets the streak. *)
Lemma register_gain w pnl :
  ~ pnl < 0 ->
  exists w',
    RiskManager.register_trade_result pnl env w = (w', Return tt) /\
    loss_streak (risk_manager w') = O /\
    circuit_breaker_active (risk_manager w')
    = circuit_breaker_active (risk_manager w).
Proof.
  intros H. unfold RiskManager.register_trade_result.
  destruct (Qlt_bool pnl 0) eqn:E; [apply Qlt_bool_true in E; contradiction|].
  mstep. eexists. split; [reflexivity|]. split; reflexivity.
Qed.

Lemma check_armed w :
  circuit_breaker_active (risk_manager w) = false ->
  RiskManager.check_circuit_breaker env w = (w, Return false).
Proof.
  intros H. unfold RiskManager.check_circuit_breaker. mstep. rewrite H.
  reflexivity.
Qed.

(** Up to 180 minutes after the trigger a query answers true and changes
    nothing but the number of readings. *)
Lemma check_tripped_within w t0 :
  tripped_at t0 w ->
  (utcnow_at env (readings w) <= t0 + timedelta_minutes 180)%Z ->
  RiskManager.check_circuit_breaker env w = (tick w, Return true).
Proof.
  intros [Ha Ht] Hnow. unfold RiskManager.check_circuit_breaker. mstep.
  rewrite Ha, Ht. mstep.
  destruct (Z.gtb_spec (utcnow_at env (readings w) - t0) (timedelta_minutes 180));
    [lia | reflexivity].
Qed.

(** Later than that, a query answers false, arms the breaker and resets the
    streak. *)
Lemma check_tripped_after w t0 :
  tripped_at t0 w ->
  (t0 + timedelta_minutes 180 < utcnow_at env (readings w))%Z ->
  exists w',
    RiskManager.check_circuit_breaker env w = (w', Return false) /\
    circuit_breaker_active (risk_manager w') = false /\
    loss_streak (risk_manager w') = O.
Proof.
  intros [Ha Ht] Hnow. unfold RiskManager.check_circuit_breaker. mstep.
  rewrite Ha, Ht. mstep.
  destruct (Z.gtb_spec (utcnow_at env (readings w) - t0) (timedelta_minutes 180));
    [|lia].
  mstep. eexists. split; [reflexivity|]. split; reflexivity.
Qed.

Lemma poll_tripped n : forall w t0,
  tripped_at t0 w ->
  (forall k, (readings w <= k < readings w + n)%nat ->
             (utcnow_at env k <= t0 + timedelta_minutes 180)%Z) ->
  exists w',
    poll n env w = (w', Return (repeat true n)) /\
    risk_manager w' = risk_manager w /\
    readings w' = (readings w + n)%nat.
Proof.
  induction n as [|n IH]; intros w t0 Ht Hclock.
  - exists w. cbn. repeat split. lia.
  - cbn [poll]. unfold bind at 1.
    rewrite (check_tripped_within w t0 Ht) by (apply Hclock; lia).
    destruct (IH (tick w) t0 Ht) as (w' & Hp & Hr & Hk).
    { intros k Hk. apply Hclock. cbn [tick readings] in Hk. lia. }
    unfold bind at 1. rewrite Hp. mstep.
    exists w'. split; [reflexivity|].
    split; [exact Hr|]. rewrite Hk. cbn [tick readings]. lia.
Qed.

Lemma three_losses_trip w p1 p2 p3 :
  p1 < 0 -> p2 < 0 -> p3 < 0 ->
  exists w3 k,
    three_losses p1 p2 p3 env w = (w3, Return tt) /\
    tripped_at (utcnow_at env k) w3 /\
    (readings w <= k < readings w3)%nat /\
    (3 <= loss_streak (risk_manager w3))%nat.
Proof.
  intros H1 H2 H3. unfold three_losses.
  destruct (register_loss w p1 H1) as (w1 & E1 & S1 & R1 & _).
  destruct (register_loss w1 p2 H2) as (w2 & E2 & S2 & R2 & _).
  destruct (register_loss w2 p3 H3) as (w3 & E3 & S3 & R3 & T3).
  destruct T3 as [T3 K3]; [lia|].
  unfold bind at 1. rewrite E1. unfold bind at 1. rewrite E2, E3.
  exists w3, (readings w2). repeat split; try apply T3; lia.
Qed.

End Breaker.

(** C5. After three consecutive losing registrations the breaker is
    tripped, with the time of the third registration as trigger time; every
    query made while the clock is at most 180 minutes past the trigger time
    returns true and leaves the risk state as it is; the first query made
    strictly later returns false, arms the breaker and resets the loss
    streak to 0, after which queries return false; and a registration that
    is not a loss resets the streak. *)
Theorem breaker_trips_for_180_minutes (env : Env) (w : World) (p1 p2 p3 : Q) :
  p1 < 0 -> p2 < 0 -> p3 < 0 ->
  exists w3 k,
    three_losses p1 p2 p3 env w = (w3, Return tt) /\
    (readings w <= k < readings w3)%nat /\
    let t0 := utcnow_at env k in
    tripped_at t0 w3 /\
    (forall n,
       (forall i, (readings w3 <= i < readings w3 + n)%nat ->
                  (utcnow_at env i <= t0 + timedelta_minutes 180)%Z) ->
       exists wn,
         poll n env w3 = (wn, Return (repeat true n)) /\
         risk_manager wn = risk_manager w3 /\
         ((t0 + timedelta_minutes 180 < utcnow_at env (readings wn))%Z ->
          exists w',
            RiskManager.check_circuit_breaker env wn = (w', Return false) /\
            circuit_breaker_active (risk_manager w') = false /\
            loss_streak (risk_manager w') = O /\
            RiskManager.check_circuit_breaker env w' = (w', Return false))) /\
    (forall p w0,
       ~ p < 0 ->
       loss_streak
         (risk_manager (fst (RiskManager.register_trade_result p env w0))) = O).
Proof.
  intros H1 H2 H3.
  destruct (three_losses_trip env w p1 p2 p3 H1 H2 H3) as (w3 & k & E & T & K & _).
  exists w3, k. split; [exact E|]. split; [exact K|].
  cbn zeta. split; [exact T|]. split.
  - intros n Hclock.
    destruct (poll_tripped env n w3 _ T Hclock) as (wn & Hp & Hr & Hk).
    exists wn. split; [exact Hp|]. split; [exact Hr|].
    intros Hlate.
    assert (Tn : tripped_at (utcnow_at env k) wn).
    { destruct T as [Ta Tt]. split; rewrite Hr; assumption. }
    destruct (check_tripped_after env wn _ Tn Hlate) as (w' & Hc & Ha & Hs).
    exists w'. repeat split; try assumption.
    apply check_armed, Ha.
  - intros p w0 Hp.
    destruct (register_gain env w0 p Hp) as (w' & -> & Hs & _). exact Hs.
Qed.

Lemma breaker_trips_for_180_minutes_witness :
  -1 < 0 /\
  exists w3 k,
    three_losses (-1) (-1) (-1) example_env example_world = (w3, Return tt) /\
    tripped_at (utcnow_at example_env k) w3 /\
    loss_streak
      (risk_manager
         (fst (RiskManager.register_trade_result 1 example_env w3))) = O.
Proof.
  split; [reflexivity|].
  destruct (breaker_trips_for_180_minutes example_env example_world
              (-1) (-1) (-1) eq_refl eq_refl eq_refl)
    as (w3 & k & E & _ & T & _ & Hgain).
  exists w3, k. split; [exact E|]. split; [exact T|].
  apply Hgain. intros H. discriminate H.
Defined.

(** ** Cooldowns *)

Section Cooldown.

Variables (env : Env) (sym : string).


(** Exiting a symbol that has no position does nothing. *)
Lemma exit_position_flat w reason :
  active_positions (executor w) !! sym = None ->
  exists w',
    ExecutionEngine._exit_position sym reason env w = (w', Return tt) /\
    active_positions (executor w') = active_positions (executor w) /\
    cooldowns (executor w') = cooldowns (executor w) /\
    log w' = log w /\ readings w' = readings w.
Proof.
  intros H. unfold ExecutionEngine._exit_position. mstep. rewrite H. mstep.
  eexists. split; [reflexivity|]. repeat split.
  cbn. apply delete_id, H.
Qed.

Lemma in_cooldown_until w until :
  cooldowns (executor w) !! sym = Some until ->
  ExecutionEngine._in_cooldown sym env w
  = (tick w, Return (utcnow_at env (readings w) <? until)%Z).
Proof.
  intros H. unfold ExecutionEngine._in_cooldown. mstep. rewrite H. mstep.
  destruct (utcnow_at env (readings w) <? until)%Z; reflexivity.
Qed.

Lemma in_cooldown_never w :
  cooldowns (executor w) !! sym = None ->
  ExecutionEngine._in_cooldown sym env w = (w, Return false).
Proof.
  intros H. unfold ExecutionEngine._in_cooldown. mstep. rewrite H. reflexivity.
Qed.

Lemma untouched_refl w : untouched w w.
Proof. unfold untouched. auto. Qed.

Lemma calculate_ev_untouched state w :
  untouched w (fst (EVEngine.calculate_ev_for_symbol sym state env w)).
Proof.
  apply (calculate_ev_preserves (untouched w)); try apply untouched_refl.
  - intros w' (H1 & H2 & H3). repeat split; try assumption. cbn. lia.
  - intros e w' H. exact H.
Qed.

Lemma check_risk_untouched ev w :
  untouched w (fst (ExecutionEngine._check_risk sym ev env w)).
Proof.
  apply (check_risk_preserves (untouched w)); try apply untouched_refl.
  - intros w' (H1 & H2 & H3). repeat split; try assumption. cbn. lia.
  - intros r w' _ H. exact H.
  - intros f w' H. exact H.
Qed.

(** An evaluation reads the random source at most once. *)
Lemma calculate_ev_readings state w :
  (readings (fst (EVEngine.calculate_ev_for_symbol sym state env w))
   <= S (readings w))%nat.
Proof.
  unfold EVEngine.calculate_ev_for_symbol, SignalEngine.get_signal. mstep.
  destruct (signals (signal_engine w) !! sym) as [sd|]; mstep; [|lia].
  destruct (EVEngine._estimate_probability _ _ _ _ _) as [p|e]; mstep; [|lia].
  destruct (EVEngine._estimate_loss state) as [loss|e]; mstep; [|lia].
  unfold bind at 1.
  destruct (recommend_leverage_reads env w
    (p * EVEngine._estimate_gain state - (1 - p) * loss
     - EVEngine._estimate_fees state)) as [lev ->].
  mstep. destruct (EVEngine._dynamic_kelly _ _ _) as [k|e]; mstep; cbn; lia.
Qed.




End Cooldown.

(** ** Entries *)

Section Entry.

Variable env : Env.

Lemma enter_position_opens sym r lev size w :
  exists w' pos,
    ExecutionEngine._enter_position sym r lev size env w = (w', Return tt) /\
    active_positions (executor w')
    = <[sym := pos]> (active_positions (executor w)) /\
    cooldowns (executor w') = cooldowns (executor w) /\
    ev_entry pos = EV r /\ leverage pos = lev /\ open pos = true /\
    notional pos = available_balance_at env (readings w) * size * inject_Z lev /\
    length (trade_log (executor w')) = S (length (trade_log (executor w))).
Proof.
  unfold ExecutionEngine._enter_position, ExecutionEngine._mock_order.
  mstep_result. eexists _, _. split; [reflexivity|].
  cbn. rewrite length_app. cbn. repeat split. lia.
Qed.

(** The risk check of the execution engine passes exactly when the query of
    the breaker answers false and the EV is not below -0.05. *)
Lemma check_risk_true sym ev w w' :
  ExecutionEngine._check_risk sym ev env w = (w', Return true) ->
  RiskManager.check_circuit_breaker env w = (w', Return false) /\ ~ ev < -0.05.
Proof.
  unfold ExecutionEngine._check_risk. unfold bind at 1.
  destruct (RiskManager.check_circuit_breaker env w) as [w1 [[|]|e]]; mstep.
  - discriminate.
  - destruct (Qlt_bool ev (-0.05)) eqn:E; mstep; [discriminate|].
    intros [= ->]. split; [reflexivity|].
    apply Qlt_bool_false in E. lra.
  - discriminate.
Qed.

Lemma check_risk_passes sym ev w w' :
  RiskManager.check_circuit_breaker env w = (w', Return false) ->
  ~ ev < -0.05 ->
  ExecutionEngine._check_risk sym ev env w = (w', Return true).
Proof.
  intros H Hev. unfold ExecutionEngine._check_risk. unfold bind at 1.
  rewrite H. mstep.
  destruct (Qlt_bool ev (-0.05)) eqn:E; [|reflexivity].
  apply Qlt_bool_true in E. contradiction.
Qed.

Lemma in_cooldown_untouched sym w :
  untouched w (fst (ExecutionEngine._in_cooldown sym env w)).
Proof.
  apply (in_cooldown_preserves (untouched w)); try apply untouched_refl.
  intros w' (H1 & H2 & H3). repeat split; try assumption. cbn. lia.
Qed.

(** Exits only remove positions. *)
Lemma exit_position_keeps_flat sym reason other :
  preserves (fun w => active_positions (executor w) !! other = None)
    (ExecutionEngine._exit_position sym reason).
Proof.
  unfold ExecutionEngine._exit_position. frame.
  all: cbn; rewrite lookup_delete; case_decide; congruence.
Qed.

Lemma maybe_exit_keeps_flat sym r other :
  preserves (fun w => active_positions (executor w) !! other = None)
    (ExecutionEngine._maybe_exit sym r).
Proof.
  unfold ExecutionEngine._maybe_exit, ExecutionEngine._position_profitable.
  frame; apply exit_position_keeps_flat.
Qed.

(** The loop body opens a position for a flat symbol only if it is the
    symbol of the body, the evaluation returned a result whose EV is above
    the base threshold, the risk check of the execution engine passed on it
    and the symbol was not in cooldown. *)
Lemma execute_symbol_entry sym state other w :
  active_positions (executor w) !! other = None ->
  is_Some (active_positions
             (executor (fst (ExecutionEngine.execute_symbol sym state env w)))
           !! other) ->
  other = sym /\
  exists r w1 w2 w3,
    EVEngine.calculate_ev_for_symbol sym state env w = (w1, Return (Some r)) /\
    RiskManager.check_circuit_breaker env w1 = (w2, Return false) /\
    ~ EV r < -0.05 /\
    ExecutionEngine._in_cooldown sym env w2 = (w3, Return false) /\
    base_threshold (config w) < EV r.
Proof.
  intros Hflat. unfold ExecutionEngine.execute_symbol.
  unfold bind at 1.
  pose proof (calculate_ev_untouched env sym state w) as (E1 & C1 & _).
  destruct (EVEngine.calculate_ev_for_symbol sym state env w)
    as [w1 [[r|]|e]] eqn:Hcalc; cbn [fst] in E1, C1.
  2,3: mstep; rewrite E1, Hflat; intros [? ?]; discriminate.
  mstep_result. unfold bind at 1.
  pose proof (check_risk_untouched env sym (EV r) w1) as (E2 & C2 & _).
  destruct (ExecutionEngine._check_risk sym (EV r) env w1)
    as [w2 [[|]|e]] eqn:Hrisk; cbn [fst] in E2, C2; mstep.
  2,3: rewrite E2, E1, Hflat; intros [? ?]; discriminate.
  apply check_risk_true in Hrisk as [Hbreaker Hfloor].
  unfold bind at 1.
  pose proof (in_cooldown_untouched sym w2) as (E3 & C3 & _).
  destruct (ExecutionEngine._in_cooldown sym env w2)
    as [w3 [[|]|e]] eqn:Hcd; cbn [fst] in E3, C3; mstep.
  1,3: rewrite E3, E2, E1, Hflat; intros [? ?]; discriminate.
  assert (Hflat3 : active_positions (executor w3) !! other = None)
    by (rewrite E3, E2, E1; exact Hflat).
  destruct (active_positions (executor w3) !! sym) eqn:Hpos.
  - (* a held symbol: exits only remove positions, the rotation raises *)
    unfold bind at 1.
    pose proof (maybe_exit_keeps_flat sym r other env w3 Hflat3) as Hkeep.
    destruct (ExecutionEngine._maybe_exit sym r env w3) as [w4 [[]|e]];
      cbn [fst] in Hkeep.
    + rewrite maybe_rotate_raises. cbn [fst]. rewrite Hkeep.
      intros [? ?]; discriminate.
    + cbn [fst]. rewrite Hkeep. intros [? ?]; discriminate.
  - mstep.
    destruct (Qgt_bool (EV r) (base_threshold (config w3))) eqn:Hthr; mstep.
    + destruct (enter_position_opens sym r (recommended_leverage r)
                  (kelly_position r) w3) as (w4 & pos & -> & Hp & _).
      cbn [fst]. rewrite Hp. intros Hsome.
      destruct (decide (other = sym)) as [->|Hne].
      * split; [reflexivity|].
        exists r, w1, w2, w3. repeat split; try assumption.
        apply Qgt_bool_true in Hthr. rewrite C3, C2, C1 in Hthr. exact Hthr.
      * rewrite lookup_insert_ne, Hflat3 in Hsome by congruence.
        destruct Hsome; discriminate.
    + rewrite Hflat3. intros [? ?]; discriminate.
Qed.

End Entry.

Section EntryAfterCooldown.

Variables (env : Env) (sym : string) (state : gmap string Q).

Lemma check_circuit_breaker_untouched w :
  untouched w (fst (RiskManager.check_circuit_breaker env w)).
Proof.
  apply (check_circuit_breaker_preserves (untouched w)); try apply untouched_refl.
  - intros w' (H1 & H2 & H3). repeat split; try assumption. cbn. lia.
  - intros r w' _ H. exact H.
  - intros f w' H. exact H.
Qed.


End EntryAfterCooldown.



(** ** Methods that return *)

Section Returns.

Context {A B : Type}.

Lemma returns_ret (a : A) : returns (ret a).
Proof. intros env w. eexists _, _. reflexivity. Qed.

Lemma returns_gets (f : World -> A) : returns (gets f).
Proof. intros env w. eexists _, _. reflexivity. Qed.

Lemma returns_modify (f : World -> World) : returns (modify f).
Proof. intros env w. eexists _, _. reflexivity. Qed.

Lemma returns_reading (f : Env -> nat -> A) : returns (reading f).
Proof. intros env w. eexists _, _. reflexivity. Qed.

Lemma returns_lift (a : A) : returns (lift (Return a)).
Proof. intros env w. eexists _, _. reflexivity. Qed.

Lemma returns_bind (m : M A) (k : A -> M B) :
  returns m -> (forall a, returns (k a)) -> returns (bind m k).
Proof.
  intros Hm Hk env w. unfold bind.
  destruct (Hm env w) as (w1 & a & ->). apply Hk.
Qed.

End Returns.

Lemma returns_when (b : bool) (m : M unit) : returns m -> returns (when b m).
Proof. intros Hm. destruct b; [exact Hm | apply returns_ret]. Qed.

Ltac returns_step :=
  match goal with
  | |- returns (ret _) => apply returns_ret
  | |- returns (lift (Return _)) => apply returns_lift
  | |- returns (gets _) => apply returns_gets
  | |- returns (bind _ _) => apply returns_bind; [|intro]
  | |- returns (when _ _) => apply returns_when
  | |- returns (logging _) => apply returns_modify
  | |- returns (modify _) => apply returns_modify
  | |- returns utcnow => apply returns_reading
  | |- returns random_choice => apply returns_reading
  | |- returns (reading _) => apply returns_reading
  | |- returns (if ?b then _ else _) => destruct b
  | |- returns (match ?x with _ => _ end) => destruct x
  end.

Lemma exit_position_returns sym reason :
  returns (ExecutionEngine._exit_position sym reason).
Proof. unfold ExecutionEngine._exit_position. repeat returns_step. Qed.

(** ** Rotation *)

Section Rotation.

Variables (env : Env) (sym : string).

Lemma rotations_add_log record w :
  is_rotation record = false -> rotations (add_log record w) = rotations w.
Proof.
  intros H. unfold rotations. cbn [add_log log].
  rewrite List.filter_app. cbn [List.filter]. rewrite H. apply app_nil_r.
Qed.

Lemma kept_refl w : kept sym w w.
Proof. unfold kept. auto. Qed.

Lemma kept_tick w0 w : kept sym w0 w -> kept sym w0 (tick w).
Proof. intros H. exact H. Qed.

Lemma kept_log w0 record w :
  is_rotation record = false -> kept sym w0 w -> kept sym w0 (add_log record w).
Proof.
  intros Hr (H1 & H2 & H3). split; [|split; assumption].
  rewrite rotations_add_log; assumption.
Qed.

Lemma kept_risk w0 f w : kept sym w0 w -> kept sym w0 (set_risk_manager f w).
Proof. intros H. exact H. Qed.

Lemma kept_ev w0 e w :
  kept sym w0 w -> kept sym w0 (set_ev_engine (EVEngine.record e) w).
Proof. intros H. exact H. Qed.

Lemma exit_position_kept w0 reason :
  String.eqb reason "Rotated for higher EV" = false ->
  preserves (kept sym w0) (ExecutionEngine._exit_position sym reason).
Proof.
  intros Hreason. unfold ExecutionEngine._exit_position. frame.
  all: try (apply kept_log; assumption).
  all: match goal with
       | K : kept _ _ _ |- _ => destruct K as (H1 & H2 & H3)
       end;
       split; [exact H1|]; split; [exact H2|];
       first [ exact H3 | right; cbn; apply lookup_delete_eq ].
Qed.

Lemma maybe_exit_kept w0 r :
  preserves (kept sym w0) (ExecutionEngine._maybe_exit sym r).
Proof.
  unfold ExecutionEngine._maybe_exit, ExecutionEngine._position_profitable.
  frame; apply exit_position_kept; reflexivity.
Qed.

(** With its position at hand, [_maybe_exit] returns. *)
Lemma maybe_exit_returns r w pos :
  active_positions (executor w) !! sym = Some pos ->
  exists w', ExecutionEngine._maybe_exit sym r env w = (w', Return tt).
Proof.
  intros Hpos.
  unfold ExecutionEngine._maybe_exit, ExecutionEngine._position_profitable,
    getitem.
  mstep. rewrite Hpos. mstep_result.
  match goal with
  | |- exists w', ?m env ?w0 = _ =>
      assert (R : returns m)
        by (repeat returns_step; apply exit_position_returns);
      destruct (R env w0) as (w' & [] & ->)
  end.
  exists w'. reflexivity.
Qed.

(** The loop body on a symbol that holds a position and passes the risk
    and cooldown checks: [_maybe_exit] returns, [_maybe_rotate] raises
    KeyError, and the body ends on that exception with no rotation logged,
    no order placed and the position not replaced. *)
Lemma execute_symbol_held state w pos r w1 w2 w3 :
  active_positions (executor w) !! sym = Some pos ->
  EVEngine.calculate_ev_for_symbol sym state env w = (w1, Return (Some r)) ->
  ExecutionEngine._check_risk sym (EV r) env w1 = (w2, Return true) ->
  ExecutionEngine._in_cooldown sym env w2 = (w3, Return false) ->
  exists w' key,
    ExecutionEngine.execute_symbol sym state env w = (w', Raise (KeyError key)) /\
    (key = "ev_entry" \/ key = sym) /\
    kept sym w w'.
Proof.
  intros Hpos Hcalc Hrisk Hcd.
  assert (K1 : kept sym w w1).
  { pose proof (calculate_ev_preserves (kept sym w) (kept_tick w) (kept_ev w)
                  sym state env w (kept_refl w)) as K.
    rewrite Hcalc in K. exact K. }
  assert (K2 : kept sym w w2).
  { pose proof (check_risk_preserves (kept sym w) (kept_tick w) (kept_log w)
                  (kept_risk w) sym (EV r) env w1 K1) as K.
    rewrite Hrisk in K. exact K. }
  assert (K3 : kept sym w w3).
  { pose proof (in_cooldown_preserves (kept sym w) (kept_tick w) sym env w2 K2)
      as K.
    rewrite Hcd in K. exact K. }
  pose proof (calculate_ev_untouched env sym state w) as (E1 & _).
  pose proof (check_risk_untouched env sym (EV r) w1) as (E2 & _).
  pose proof (in_cooldown_untouched env sym w2) as (E3 & _).
  rewrite Hcalc in E1. rewrite Hrisk in E2. rewrite Hcd in E3. cbn [fst] in *.
  assert (Hpos3 : active_positions (executor w3) !! sym = Some pos)
    by (rewrite E3, E2, E1; exact Hpos).
  destruct (maybe_exit_returns r w3 pos Hpos3) as (w4 & Hexit).
  pose proof (maybe_exit_kept w r env w3 K3) as K4.
  rewrite Hexit in K4. cbn [fst] in K4.
  unfold ExecutionEngine.execute_symbol. unfold bind at 1. rewrite Hcalc.
  mstep_result. unfold bind at 1. rewrite Hrisk. mstep.
  unfold bind at 1. rewrite Hcd. mstep. rewrite Hpos3.
  unfold bind at 1. rewrite Hexit. rewrite maybe_rotate_raises.
  eexists _, _. split; [reflexivity|]. split; [|exact K4].
  destruct (active_positions (executor w4) !! sym); auto.
Qed.

(** No execution cycle logs a rotation. *)
Lemma rotation_never_fires snapshot w :
  rotations (fst (ExecutionEngine.execute_cycle snapshot env w)) = rotations w.
Proof.
  apply (execute_cycle_preserves (fun w' => rotations w' = rotations w));
    try reflexivity; try (intros; assumption).
  intros record w' Hr H. rewrite rotations_add_log; assumption.
Qed.

End Rotation.

(** C1: the rotation step never rotates. Whenever the loop reaches a symbol
    that holds a position and passes the risk and cooldown checks, whatever
    the new EV is against the entry EVs, [_maybe_rotate] raises KeyError
    (the result of the EV engine has no key "ev_entry"; the entry EV is a
    key of the position) and the exception ends the whole cycle: no
    rotation is logged, no order is placed, the position is not reopened,
    and the symbols after it in the snapshot are not looked at. *)
Theorem open_position_cycle_raises_KeyError (env : Env) (w : World)
  (sym : string) (state : gmap string Q) (rest : list (string * gmap string Q))
  (pos : Position) (r : EVResult) (w1 w2 w3 : World) :
  active_positions (executor w) !! sym = Some pos ->
  EVEngine.calculate_ev_for_symbol sym state env w = (w1, Return (Some r)) ->
  ExecutionEngine._check_risk sym (EV r) env w1 = (w2, Return true) ->
  ExecutionEngine._in_cooldown sym env w2 = (w3, Return false) ->
  exists w' key,
    ExecutionEngine.execute_cycle ((sym, state) :: rest) env w
    = (w', Raise (KeyError key)) /\
    (key = "ev_entry" \/ key = sym) /\
    rotations w' = rotations w /\
    trade_log (executor w') = trade_log (executor w) /\
    (active_positions (executor w') !! sym = Some pos \/
     active_positions (executor w') !! sym = None).
Proof.
  intros Hpos Hcalc Hrisk Hcd.
  destruct (execute_symbol_held env sym state w pos r w1 w2 w3 Hpos Hcalc Hrisk Hcd)
    as (w' & key & Hbody & Hkey & K1 & K2 & K3).
  exists w', key. cbn [ExecutionEngine.execute_cycle]. unfold bind at 1.
  rewrite Hbody. split; [reflexivity|]. split; [exact Hkey|].
  split; [exact K1|]. split; [exact K2|].
  rewrite Hpos in K3. exact K3.
Qed.

Lemma open_position_cycle_raises_KeyError_witness :
  exists pos r w',
    active_positions (executor held_world) !! "BTCUSDT" = Some pos /\
    snd (EVEngine.calculate_ev_for_symbol "BTCUSDT" example_state example_env
           held_world) = Return (Some r) /\
    ev_entry pos <= EV r /\
    fst (ExecutionEngine.execute_cycle
           [("BTCUSDT", example_state); ("ETHUSDT", example_state)]
           example_env held_world) = w' /\
    (exists key,
       snd (ExecutionEngine.execute_cycle
              [("BTCUSDT", example_state); ("ETHUSDT", example_state)]
              example_env held_world) = Raise (KeyError key)) /\
    rotations w' = rotations held_world /\
    trade_log (executor w') = trade_log (executor held_world).
Proof.
  eassert (Hpos : active_positions (executor held_world) !! "BTCUSDT" = Some _)
    by (vm_compute; reflexivity).
  eassert (Hcalc : EVEngine.calculate_ev_for_symbol "BTCUSDT" example_state
                     example_env held_world = (_, Return (Some _)))
    by (vm_compute; reflexivity).
  match type of Hcalc with
  | _ = (?w1, Return (Some ?r)) =>
      eassert (Hrisk : ExecutionEngine._check_risk "BTCUSDT" (EV r) example_env w1
                       = (_, Return true))
        by (vm_compute; reflexivity)
  end.
  match type of Hrisk with
  | _ = (?w2, _) =>
      eassert (Hcd : ExecutionEngine._in_cooldown "BTCUSDT" example_env w2
                     = (_, Return false))
        by (vm_compute; reflexivity)
  end.
  destruct (open_position_cycle_raises_KeyError example_env held_world
              "BTCUSDT" example_state [("ETHUSDT", example_state)]
              _ _ _ _ _ Hpos Hcalc Hrisk Hcd)
    as (w' & key & Hcycle & _ & Hrot & Hlog & _).
  eexists _, _, w'. split; [exact Hpos|].
  split; [rewrite Hcalc; reflexivity|].
  split; [vm_compute; discriminate|].
  rewrite Hcycle. cbn [fst snd].
  split; [reflexivity|]. split; [exists key; reflexivity|].
  split; assumption.
Defined.

(** C3: with exactly one position open, the rotation check is not a
    no-op: it reads the key "ev_entry" of the result of the EV engine,
    which that result does not have, and raises KeyError; the process is
    left as it was, and no execution cycle started from it ever logs a
    rotation. *)
Theorem rotation_check_raises_with_one_position (env : Env) (w : World)
  (sym : string) (pos : Position) (r : EVResult) :
  active_positions (executor w) = {[sym := pos]} ->
  ExecutionEngine._maybe_rotate sym r env w = (w, Raise (KeyError "ev_entry")) /\
  forall snapshot,
    rotations (fst (ExecutionEngine.execute_cycle snapshot env w)) = rotations w.
Proof.
  intros Hone. split.
  - rewrite maybe_rotate_raises, Hone, lookup_singleton_eq. reflexivity.
  - intros snapshot. apply rotation_never_fires.
Qed.

Lemma rotation_check_raises_with_one_position_witness :
  exists pos r,
    active_positions (executor held_world) = {["BTCUSDT" := pos]} /\
    snd (EVEngine.calculate_ev_for_symbol "BTCUSDT" example_state example_env
           held_world) = Return (Some r) /\
    ExecutionEngine._maybe_rotate "BTCUSDT" r example_env held_world
    = (held_world, Raise (KeyError "ev_entry")).
Proof.
  eassert (Hone : active_positions (executor held_world) = {["BTCUSDT" := _]})
    by (vm_compute; reflexivity).
  eassert (Hcalc : snd (EVEngine.calculate_ev_for_symbol "BTCUSDT" example_state
                          example_env held_world) = Return (Some _))
    by (vm_compute; reflexivity).
  match type of Hcalc with
  | _ = Return (Some ?r) =>
      destruct (rotation_check_raises_with_one_position example_env held_world
                  "BTCUSDT" _ r Hone) as [Hraise _]
  end.
  eexists _, _. split; [exact Hone|]. split; [exact Hcalc | exact Hraise].
Defined.

(** ** What an entry requires *)

Section EntryRequires.

Variable env : Env.



Lemma execute_symbol_config sym state w :
  config (fst (ExecutionEngine.execute_symbol sym state env w)) = config w.
Proof.
  apply (execute_symbol_preserves (fun w' => config w' = config w));
    try reflexivity; intros; assumption.
Qed.

Lemma execute_cycle_entry snapshot : forall w sym,
  active_positions (executor w) !! sym = None ->
  is_Some (active_positions
             (executor (fst (ExecutionEngine.execute_cycle snapshot env w)))
           !! sym) ->
  exists state w0 r w1 w2 w3,
    In (sym, state) snapshot /\
    config w0 = config w /\
    active_positions (executor w0) !! sym = None /\
    EVEngine.calculate_ev_for_symbol sym state env w0 = (w1, Return (Some r)) /\
    base_threshold (config w) < EV r /\
    RiskManager.check_circuit_breaker env w1 = (w2, Return false) /\
    ~ EV r < -0.05 /\
    ExecutionEngine._in_cooldown sym env w2 = (w3, Return false).
Proof.
  induction snapshot as [|[sym' state'] rest IH]; intros w sym Hflat Hopen.
  - cbn in Hopen. rewrite Hflat in Hopen. destruct Hopen; discriminate.
  - cbn [ExecutionEngine.execute_cycle] in Hopen. unfold bind at 1 in Hopen.
    pose proof (execute_symbol_entry env sym' state' sym w Hflat) as Hbody.
    pose proof (execute_symbol_config sym' state' w) as Hcfg.
    destruct (ExecutionEngine.execute_symbol sym' state' env w)
      as [wb out]; cbn [fst] in Hbody, Hcfg.
    destruct (active_positions (executor wb) !! sym) as [p|] eqn:Hb.
    + destruct Hbody as (-> & r & w1 & w2 & w3 & H1 & H2 & H3 & H4 & H5);
        [eexists; reflexivity|].
      exists state', w, r, w1, w2, w3.
      repeat split; try assumption. left. reflexivity.
    + destruct out as [[]|e]; cbn [fst] in Hopen.
      * destruct (IH wb sym Hb Hopen)
          as (state & w0 & r & w1 & w2 & w3 & Hin & Hc & H0 & H1 & H2 & H3).
        exists state, w0, r, w1, w2, w3.
        split; [right; exact Hin|]. split; [congruence|].
        split; [exact H0|]. split; [exact H1|].
        rewrite <- Hcfg. exact (conj H2 H3).
      * rewrite Hb in Hopen. destruct Hopen; discriminate.
Qed.


End EntryRequires.




(** * Further properties of the code *)

(** ** The EV engine *)

(** The range of the leverage, by the tier of the EV. *)
Lemma recommend_leverage_range env w ev :
  fair_randint env ->
  exists lev,
    EVEngine._recommend_leverage ev env w = (tick w, Return lev) /\
    (fst (tier_leverage_range (EVEngine._classify_ev ev)) <= lev
     < snd (tier_leverage_range (EVEngine._classify_ev ev)))%Z /\
    (1 <= lev < 120)%Z.
Proof.
  intros Hfair.
  unfold EVEngine._recommend_leverage, EVEngine._classify_ev.
  repeat match goal with
         | |- context [Qge_bool ?a ?b] => destruct (Qge_bool a b)
         end;
    (eexists; split; [reflexivity|]);
    cbn [tier_leverage_range fst snd];
    match goal with
    | |- context [randint_at env ?k ?lo ?hi] =>
        pose proof (Hfair k lo hi ltac:(lia))
    end; lia.
Qed.

(** X1. The leverage that [_recommend_leverage] draws for an EV lies in the
    range of the tier that [_classify_ev] gives that EV: the two chains of
    thresholds agree. In particular it is between 1 and 119. *)
Theorem recommended_leverage_in_tier_range (env : Env) (w : World) (ev : Q) :
  fair_randint env ->
  exists lev,
    EVEngine._recommend_leverage ev env w = (tick w, Return lev) /\
    (fst (tier_leverage_range (EVEngine._classify_ev ev)) <= lev
     < snd (tier_leverage_range (EVEngine._classify_ev ev)))%Z /\
    (1 <= lev < 120)%Z.
Proof.
  apply recommend_leverage_range.
Qed.

Lemma example_env_fair : fair_randint example_env.
Proof. intros k lo hi H. cbn. lia. Defined.

Lemma recommended_leverage_in_tier_range_witness :
  fair_randint example_env /\
  exists lev,
    EVEngine._recommend_leverage 0.25 example_env example_world
    = (tick example_world, Return lev) /\
    (50 <= lev < 85)%Z.
Proof.
  split; [exact example_env_fair|].
  destruct (recommended_leverage_in_tier_range example_env example_world 0.25
              example_env_fair) as (lev & H1 & H2 & _).
  exists lev. split; [exact H1 | exact H2].
Defined.

(** The Kelly fraction against the edge of the odds, without the
    divisions. *)
Lemma dynamic_kelly_edge (p gain loss : Q) :
  0 < gain -> 0 < loss ->
  exists k,
    EVEngine._dynamic_kelly p gain loss = Return k /\
    (k == 0 <-> p * (gain + loss) <= loss) /\
    (k == 0.25 <-> 0.25 * gain <= p * (gain + loss) - loss).
Proof.
  intros HG HL. unfold EVEngine._dynamic_kelly.
  assert (HL0 : ~ loss == 0) by lra.
  apply Qeq_bool_false in HL0 as E. rewrite E. cbn [negb].
  rewrite py_truediv_Return by exact HL0. cbn [obind].
  assert (Hb : 0 < gain / loss) by (apply Qlt_shift_div_l; lra).
  rewrite py_truediv_Return by lra. cbn [obind].
  eexists. split; [reflexivity|].
  set (b := gain / loss) in *.
  assert (Hgl : gain == b * loss) by (unfold b; field; exact HL0).
  set (f := (p * (b + 1) - 1) / b).
  assert (Hf : f * b == p * (b + 1) - 1) by (unfold f; field; lra).
  assert (Hedge : (p * (gain + loss) - loss) == f * b * loss).
  { rewrite Hf, Hgl. ring. }
  assert (Hc : 0 < b * loss) by nra.
  assert (A1 : p * (gain + loss) <= loss <-> f <= 0).
  { split; intros H; nra. }
  assert (A2 : 0.25 * gain <= p * (gain + loss) - loss <-> 0.25 <= f).
  { split; intros H; nra. }
  rewrite A1, A2. clearbody f. unfold np_clip.
  destruct (Qlt_bool f 0.0) eqn:E1;
    [apply Qlt_bool_true in E1 | apply Qlt_bool_false in E1];
    match goal with
    | |- context [Qlt_bool ?x ?y] =>
        destruct (Qlt_bool x y) eqn:E2;
        [apply Qlt_bool_true in E2 | apply Qlt_bool_false in E2]
    end;
    (split; split; intros H); lra.
Qed.

(** X2. For a positive gain and a positive loss the Kelly fraction is zero
    exactly when the odds give no edge, p * (G + L) <= L, and is capped at
    0.25 exactly when p * (G + L) - L >= 0.25 * G. *)
Theorem kelly_zero_without_edge (p gain loss : Q) :
  0 < gain -> 0 < loss ->
  exists k,
    EVEngine._dynamic_kelly p gain loss = Return k /\
    (k == 0 <-> p * (gain + loss) <= loss) /\
    (k == 0.25 <-> 0.25 * gain <= p * (gain + loss) - loss).
Proof.
  apply dynamic_kelly_edge.
Qed.

Lemma kelly_zero_without_edge_witness :
  0 < 2 /\ 0 < 1 /\
  exists k,
    EVEngine._dynamic_kelly (1 # 4) 2 1 = Return k /\ k == 0.
Proof.
  split; [reflexivity|]. split; [reflexivity|].
  destruct (kelly_zero_without_edge (1 # 4) 2 1 eq_refl eq_refl)
    as (k & H1 & H2 & _).
  exists k. split; [exact H1|]. apply H2. vm_compute. discriminate.
Defined.

(** What a result of the evaluation was computed from. *)
Lemma calculate_ev_inv env w sym state w' r :
  EVEngine.calculate_ev_for_symbol sym state env w = (w', Return (Some r)) ->
  exists sd,
    signals (signal_engine w) !! sym = Some sd /\
    EVEngine._estimate_probability (np_exp env) (ev_engine w) sym
      (signal_score sd) state = Return (p_win r) /\
    EVEngine._estimate_loss state = Return (L r) /\
    EVEngine._dynamic_kelly (p_win r) (G r) (L r) = Return (kelly_position r) /\
    G r = EVEngine._estimate_gain state /\
    EV r = p_win r * G r - (1 - p_win r) * L r - EVEngine._estimate_fees state /\
    tier r = EVEngine._classify_ev (EV r) /\
    symbol r = sym /\ components r = signal_components sd /\
    w' = set_ev_engine (EVEngine.record (history_entry_of r)) (tick w).
Proof.
  intros H.
  destruct (signals (signal_engine w) !! sym) as [sd|] eqn:Hs;
    [|rewrite (calculate_ev_no_signal env w sym state Hs) in H; discriminate].
  exists sd. split; [reflexivity|].
  destruct (EVEngine._estimate_probability (np_exp env) (ev_engine w) sym
              (signal_score sd) state) as [p|e] eqn:Hp.
  2: { revert H. unfold EVEngine.calculate_ev_for_symbol, SignalEngine.get_signal.
       mstep. rewrite Hs. mstep. rewrite Hp. mstep. discriminate. }
  destruct (EVEngine._estimate_loss state) as [loss|e] eqn:Hl.
  2: { revert H. unfold EVEngine.calculate_ev_for_symbol, SignalEngine.get_signal.
       mstep. rewrite Hs. mstep. rewrite Hp, Hl. mstep. discriminate. }
  destruct (EVEngine._dynamic_kelly p (EVEngine._estimate_gain state) loss)
    as [k|e] eqn:Hk.
  2: { revert H. unfold EVEngine.calculate_ev_for_symbol, SignalEngine.get_signal.
       mstep. rewrite Hs. mstep. rewrite Hp, Hl. mstep. unfold bind at 1.
       destruct (recommend_leverage_reads env w (p * EVEngine._estimate_gain state
         - (1 - p) * loss - EVEngine._estimate_fees state)) as [lev ->].
       mstep. rewrite Hk. mstep. discriminate. }
  destruct (calculate_ev_returns env w sym state sd p loss k Hs Hp Hl Hk)
    as (r' & Hr & H1 & H2 & H3 & H4 & H5 & H6 & H7 & H8).
  rewrite Hr in H. injection H as <- <-.
  rewrite H2, H3, H4, H5.
  repeat split; try assumption; try reflexivity.
Qed.

Lemma estimate_fees_floor state :
  0 <= dict_get state "slippage" 0.01 -> 0.0016 <= EVEngine._estimate_fees state.
Proof.
  intros H. unfold EVEngine._estimate_fees.
  pose proof (Qabs_nonneg (dict_get state "funding_rate" 0.0)). lra.
Qed.

(** X3. With a slippage that is not negative the fee is at least 0.0016,
    and a result whose EV is positive has a positive Kelly fraction: the
    engine never sizes at zero a trade that it values above zero. *)
Theorem positive_ev_has_positive_kelly (env : Env) (w w' : World)
  (sym : string) (state : gmap string Q) (r : EVResult) :
  EVEngine.calculate_ev_for_symbol sym state env w = (w', Return (Some r)) ->
  0 <= dict_get state "slippage" 0.01 ->
  0 < EV r ->
  0 < kelly_position r /\ th_win (history_entry_of r) = true.
Proof.
  intros Hcalc Hslip Hev.
  destruct (calculate_ev_inv env w sym state w' r Hcalc)
    as (sd & _ & Hp & Hl & Hk & HG & HEV & _).
  pose proof (estimate_fees_floor state Hslip) as Hfee.
  pose proof (estimate_gain_bounds state) as Bg. rewrite <- HG in Bg.
  pose proof (estimate_loss_bounds _ _ Hl) as Bl.
  pose proof (dynamic_kelly_bounds _ _ _ _ Hk) as Bk.
  destruct (dynamic_kelly_edge (p_win r) (G r) (L r)) as (k & Hk' & Hz & _);
    [lra | lra |].
  rewrite Hk in Hk'. injection Hk' as <-.
  split; [|apply Qgt_bool_true, Hev].
  destruct (Qlt_le_dec 0 (kelly_position r)) as [Hpos|Hneg]; [exact Hpos|].
  assert (H0 : kelly_position r == 0) by lra.
  apply Hz in H0. rewrite HEV in Hev. nra.
Qed.

Lemma positive_ev_has_positive_kelly_witness :
  exists w' r,
    EVEngine.calculate_ev_for_symbol "BTCUSDT" example_state example_env
      example_world = (w', Return (Some r)) /\
    0 <= dict_get example_state "slippage" 0.01 /\
    0 < EV r /\ 0 < kelly_position r.
Proof.
  eassert (Hcalc : EVEngine.calculate_ev_for_symbol "BTCUSDT" example_state
                     example_env example_world = (_, Return (Some _)))
    by (vm_compute; reflexivity).
  match type of Hcalc with
  | _ = (?w1, Return (Some ?r)) =>
      assert (Hslip : 0 <= dict_get example_state "slippage" 0.01)
        by (vm_compute; discriminate);
      assert (Hev : 0 < EV r) by reflexivity;
      destruct (positive_ev_has_positive_kelly example_env example_world w1
                  "BTCUSDT" example_state r Hcalc Hslip Hev) as [Hk _];
      exists w1, r
  end.
  repeat split; assumption.
Defined.

(** X4. The probability estimate of a symbol counts the entries of that
    symbol only: entries recorded for other symbols do not move it. *)
Theorem estimate_ignores_other_symbols (exp : Q -> Q) (self : EVEngineState)
  (sym : string) (score : Q) (state : gmap string Q)
  (extra : list TradeHistoryEntry) :
  Forall (fun e => th_symbol e <> sym) extra ->
  EVEngine._estimate_probability exp (with_more_history extra self) sym score state
  = EVEngine._estimate_probability exp self sym score state.
Proof.
  intros Hother.
  assert (Hcount : forall flag,
    EVEngine.count_trades
      (fun t => String.eqb (th_symbol t) sym && flag t) (history self ++ extra)
    = EVEngine.count_trades
        (fun t => String.eqb (th_symbol t) sym && flag t) (history self)).
  { intros flag. unfold EVEngine.count_trades. f_equal.
    rewrite List.filter_app, length_app.
    replace (List.filter _ extra) with (@nil TradeHistoryEntry); [cbn; lia|].
    induction Hother as [|e l He _ IH]; [reflexivity|].
    cbn [List.filter]. apply String.eqb_neq in He. rewrite He. exact IH. }
  unfold EVEngine._estimate_probability.
  cbn [with_more_history history beta_prior_alpha beta_prior_beta].
  rewrite (Hcount th_win), (Hcount (fun t => negb (th_win t))). reflexivity.
Qed.

Lemma estimate_ignores_other_symbols_witness :
  Forall (fun e => th_symbol e <> "BTCUSDT")
    [history_entry_of {| symbol := "ETHUSDT"; p_win := 0.5; G := 1; L := 1;
                         EV := 1; tier := T1_explosive; kelly_position := 0;
                         recommended_leverage := 1; components := [] |}] /\
  EVEngine._estimate_probability exp_series
    (with_more_history
       [history_entry_of {| symbol := "ETHUSDT"; p_win := 0.5; G := 1; L := 1;
                            EV := 1; tier := T1_explosive; kelly_position := 0;
                            recommended_leverage := 1; components := [] |}]
       (ev_engine example_world)) "BTCUSDT" 0.9 example_state
  = EVEngine._estimate_probability exp_series (ev_engine example_world)
      "BTCUSDT" 0.9 example_state.
Proof.
  assert (H : Forall (fun e => th_symbol e <> "BTCUSDT")
    [history_entry_of {| symbol := "ETHUSDT"; p_win := 0.5; G := 1; L := 1;
                         EV := 1; tier := T1_explosive; kelly_position := 0;
                         recommended_leverage := 1; components := [] |}]).
  { constructor; [cbn; discriminate | constructor]. }
  split; [exact H|].
  exact (estimate_ignores_other_symbols exp_series (ev_engine example_world)
           "BTCUSDT" 0.9 example_state _ H).
Defined.

(** ** The risk manager *)

Section PreTrade.

Variables (env : Env) (w : World) (ev : Q).

Lemma pre_trade_check_blocked :
  circuit_breaker_active (risk_manager w) = true ->
  RiskManager.pre_trade_check ev env w = (add_log LogBreakerBlocked w, Return false).
Proof.
  intros H. unfold RiskManager.pre_trade_check. mstep. rewrite H. reflexivity.
Qed.

Lemma pre_trade_check_floor :
  circuit_breaker_active (risk_manager w) = false -> ev < -0.05 ->
  RiskManager.pre_trade_check ev env w = (add_log LogEVTooLow w, Return false).
Proof.
  intros H Hev. unfold RiskManager.pre_trade_check. mstep. rewrite H.
  apply Qlt_bool_true in Hev. rewrite Hev. reflexivity.
Qed.

Lemma trigger_result reason :
  RiskManager._trigger_circuit_breaker reason env w
  = (trip reason env w, Return tt).
Proof.
  reflexivity.
Qed.

Lemma check_drawdown_result d :
  RiskManager.drawdown_ratio (float_round env) (equity_at env (readings w))
    (equity_peak_at env (S (readings w))) = Return d ->
  RiskManager._check_drawdown env w
  = if Qgt_bool d (daily_drawdown_limit_pct (config w))
    then (trip "Daily drawdown limit hit" env
            (add_log (LogDrawdownExceeded d) (tick (tick w))), Return false)
    else (tick (tick w), Return true).
Proof.
  intros Hd. unfold RiskManager._check_drawdown.
  unfold bind at 1. mstep. unfold bind at 1. mstep. cbn [tick readings].
  unfold bind at 1. mstep. rewrite Hd. mstep. cbn [tick config].
  destruct (Qgt_bool d (daily_drawdown_limit_pct (config w))); reflexivity.
Qed.

Lemma check_margin_health_result :
  RiskManager._check_margin_health env w
  = if Qlt_bool (margin_ratio_at env (readings w))
         (margin_health_threshold (config w))
    then (trip "Margin health breach" env
            (add_log (LogMarginLow (margin_ratio_at env (readings w))) (tick w)),
          Return false)
    else (tick w, Return true).
Proof.
  unfold RiskManager._check_margin_health. mstep. cbn [tick config].
  destruct (Qlt_bool _ _); reflexivity.
Qed.

End PreTrade.

Section PreTradeAccounts.

Variables (env : Env) (w : World) (ev : Q).

Lemma pre_trade_check_run d :
  circuit_breaker_active (risk_manager w) = false -> ~ ev < -0.05 ->
  RiskManager.drawdown_ratio (float_round env) (equity_at env (readings w))
    (equity_peak_at env (S (readings w))) = Return d ->
  RiskManager.pre_trade_check ev env w
  = if Qgt_bool d (daily_drawdown_limit_pct (config w))
    then (trip "Daily drawdown limit hit" env
            (add_log (LogDrawdownExceeded d) (tick (tick w))), Return false)
    else if Qlt_bool (margin_ratio_at env (S (S (readings w))))
              (margin_health_threshold (config w))
    then (trip "Margin health breach" env
            (add_log (LogMarginLow (margin_ratio_at env (S (S (readings w)))))
               (tick (tick (tick w)))), Return false)
    else (tick (tick (tick w)), Return true).
Proof.
  intros Ha Hev Hd. unfold RiskManager.pre_trade_check. mstep. rewrite Ha.
  destruct (Qlt_bool ev (-0.05)) eqn:E;
    [apply Qlt_bool_true in E; contradiction|].
  unfold bind at 1. rewrite (check_drawdown_result env w d Hd).
  destruct (Qgt_bool d (daily_drawdown_limit_pct (config w))); mstep;
    [reflexivity|].
  unfold bind at 1. rewrite check_margin_health_result. cbn [tick readings config].
  destruct (Qlt_bool (margin_ratio_at env (S (S (readings w))))
              (margin_health_threshold (config w))); reflexivity.
Qed.

(** The three outcomes of the account checks. *)
Lemma pre_trade_check_accounts d :
  circuit_breaker_active (risk_manager w) = false -> ~ ev < -0.05 ->
  RiskManager.drawdown_ratio (float_round env) (equity_at env (readings w))
    (equity_peak_at env (S (readings w))) = Return d ->
  exists w',
    (daily_drawdown_limit_pct (config w) < d ->
     RiskManager.pre_trade_check ev env w = (w', Return false) /\
     tripped_at (utcnow_at env (S (S (readings w)))) w' /\
     readings w' = S (S (S (readings w)))) /\
    (d <= daily_drawdown_limit_pct (config w) ->
     margin_ratio_at env (S (S (readings w)))
     < margin_health_threshold (config w) ->
     RiskManager.pre_trade_check ev env w = (w', Return false) /\
     tripped_at (utcnow_at env (S (S (S (readings w))))) w' /\
     readings w' = S (S (S (S (readings w))))) /\
    (d <= daily_drawdown_limit_pct (config w) ->
     margin_health_threshold (config w)
     <= margin_ratio_at env (S (S (readings w))) ->
     RiskManager.pre_trade_check ev env w = (w', Return true) /\
     risk_manager w' = risk_manager w /\ log w' = log w).
Proof.
  intros Ha Hev Hd. rewrite (pre_trade_check_run d Ha Hev Hd).
  destruct (Qgt_bool d (daily_drawdown_limit_pct (config w))) eqn:E1;
    [apply Qgt_bool_true in E1 | apply Qgt_bool_false in E1].
  - eexists. split; [intros _; repeat split|]. split; intros; lra.
  - destruct (Qlt_bool (margin_ratio_at env (S (S (readings w))))
                (margin_health_threshold (config w))) eqn:E2;
      [apply Qlt_bool_true in E2 | apply Qlt_bool_false in E2].
    + eexists. split; [intros; lra|].
      split; [intros _ _; repeat split | intros; lra].
    + eexists. split; [intros; lra|]. split; [intros; lra|].
      intros _ _. repeat split.
Qed.

End PreTradeAccounts.


Section Drawdown.

Lemma recovery_mode_run env w d :
  RiskManager.drawdown_ratio (float_round env) (equity_at env (readings w))
    (equity_peak_at env (S (readings w))) = Return d ->
  RiskManager.recovery_mode env w
  = if Qgt_bool d (float_round env 0.20)
    then (add_log LogCapitalPreservation (tick (tick w)),
          Return (RiskManager.capital_preservation 0.5 ["T4"; "T5"]
                    "drawdown < 10% and EV > 0.05"))
    else (tick (tick w), Return RiskManager.normal).
Proof.
  intros Hd. unfold RiskManager.recovery_mode.
  mstep. cbn [tick readings]. rewrite Hd. mstep.
  destruct (Qgt_bool d (float_round env 0.20)); reflexivity.
Qed.

(** The rounded drawdown against the rounded 20%, when the equity is
    clearly below or clearly above 80% of the peak. *)
Lemma drawdown_ratio_margin u round equity peak d :
  accurate u round -> u <= 1 # 1000 ->
  RiskManager.drawdown_ratio round equity peak = Return d ->
  (peak <= 0 -> d <= round 0.20) /\
  (0 < peak -> equity <= 0.799 * peak -> round 0.20 < d) /\
  (0 < peak -> 0.801 * peak <= equity -> d <= round 0.20).
Proof.
  intros Hr Hu. pose proof (accurate_error_nonneg u round Hr) as Hu0.
  pose proof (accurate_nonneg u round Hr 0.20 ltac:(lra)) as [Hl Hh].
  unfold RiskManager.drawdown_ratio.
  destruct (Qgt_bool peak 0) eqn:E;
    [apply Qgt_bool_true in E | apply Qgt_bool_false in E].
  - rewrite py_truediv_Return by lra. cbn [obind]. intros [= <-].
    set (x := peak - equity).
    assert (Hq : round x / peak * peak == round x) by (field; lra).
    set (q := round x / peak) in *.
    split; [intros H; lra|]. split.
    + intros _ He.
      assert (Hx : 0.201 * peak <= x) by (unfold x; lra).
      pose proof (accurate_nonneg u round Hr x ltac:(lra)) as [Hx1 _].
      assert (Hq1 : 0.2007 <= q).
      { apply Qnot_lt_le. intros Hc.
        assert (q * peak < 0.2007 * peak) by (apply Qmult_lt_compat_r; lra).
        nra. }
      pose proof (accurate_nonneg u round Hr q ltac:(lra)) as [Hd1 _].
      nra.
    + intros _ He.
      assert (Hx : x <= 0.199 * peak) by (unfold x; lra).
      destruct (Qlt_le_dec x 0) as [Hneg|Hpos].
      * pose proof (accurate_nonpos u round Hr x ltac:(lra)) as [_ Hx1].
        assert (Hq1 : q <= 0).
        { apply Qnot_lt_le. intros Hc.
          assert (0 * peak < q * peak) by (apply Qmult_lt_compat_r; lra).
          nra. }
        pose proof (accurate_nonpos u round Hr q Hq1) as [_ Hd1]. nra.
      * pose proof (accurate_nonneg u round Hr x Hpos) as [Hx0 Hx1].
        assert (Hq0 : 0 <= q).
        { apply Qnot_lt_le. intros Hc.
          assert (q * peak < 0 * peak) by (apply Qmult_lt_compat_r; lra).
          nra. }
        assert (Hq1 : q <= 0.1992).
        { apply Qnot_lt_le. intros Hc.
          assert (0.1992 * peak < q * peak) by (apply Qmult_lt_compat_r; lra).
          nra. }
        pose proof (accurate_nonneg u round Hr q Hq0) as [_ Hd1]. nra.
  - intros [= <-]. split; [intros _; lra|].
    split; intros H; exfalso; lra.
Qed.

(** The drawdown that the floats compute is the quotient up to three
    rounding errors. *)
Lemma drawdown_ratio_error u round equity peak d :
  accurate u round -> u <= 1 -> 0 < peak ->
  RiskManager.drawdown_ratio round equity peak = Return d ->
  Qabs (d - (peak - equity) / peak)
  <= 3 * u * Qabs ((peak - equity) / peak).
Proof.
  intros Hr Hu Hp. pose proof (accurate_error_nonneg u round Hr) as Hu0.
  unfold RiskManager.drawdown_ratio.
  assert (E : Qgt_bool peak 0 = true) by (apply Qgt_bool_true; exact Hp).
  rewrite E. rewrite py_truediv_Return by lra. cbn [obind]. intros [= <-].
  set (x := peak - equity). set (y := round x).
  set (q := y / peak). set (r := x / peak).
  pose proof (Hr q) as Hdq. fold q in Hdq.
  assert (Hqr : Qabs (q - r) <= u * Qabs r).
  { assert (E1 : q - r == (y - x) * / peak) by (unfold q, r; field; lra).
    assert (E2 : r == x * / peak) by (unfold r; field; lra).
    rewrite E1, E2, !Qabs_Qmult.
    pose proof (Hr x) as Hx. fold y in Hx.
    assert (Hi : 0 < / peak) by (apply Qinv_lt_0_compat; exact Hp).
    rewrite (Qabs_pos (/ peak)) by lra.
    set (a := Qabs (y - x)) in *. set (b := Qabs x) in *. clearbody a b.
    set (i := / peak) in *. clearbody i. nra. }
  assert (Hq : Qabs q <= Qabs r + Qabs (q - r)).
  { assert (E1 : q == r + (q - r)) by ring.
    rewrite E1 at 1. apply Qabs_triangle. }
  assert (Ht : Qabs (round q - r) <= Qabs (round q - q) + Qabs (q - r)).
  { assert (E1 : round q - r == (round q - q) + (q - r)) by ring.
    rewrite E1 at 1. apply Qabs_triangle. }
  pose proof (Qabs_nonneg r) as Hr0.
  set (A := Qabs r) in *. set (B := Qabs (q - r)) in *.
  set (C := Qabs (round q - q)) in *. set (D := Qabs (round q - r)) in *.
  set (Q := Qabs q) in *. clearbody A B C D Q.
  assert (H1 : u * Q <= u * (A + B)) by (apply Qmult_le_nonneg; lra).
  assert (H2 : u * B <= u * (u * A)) by (apply Qmult_le_nonneg; lra).
  assert (H3 : u * (u * A) <= 1 * (u * A)).
  { apply Qmult_le_compat_r; [exact Hu|]. apply Qmult_le_0_compat; lra. }
  lra.
Qed.

End Drawdown.

(** The decision of [pre_trade_check], on the drawdown that it computes. *)
Lemma pre_trade_check_decides (env : Env) (w : World) (ev : Q) :
  exists w' ok d,
    RiskManager.pre_trade_check ev env w = (w', Return ok) /\
    RiskManager.drawdown_ratio (float_round env)
      (equity_at env (readings w))
      (equity_peak_at env (S (readings w))) = Return d /\
    (ok = true <->
     circuit_breaker_active (risk_manager w) = false /\
     ~ ev < -0.05 /\
     d <= daily_drawdown_limit_pct (config w) /\
     margin_health_threshold (config w)
     <= margin_ratio_at env (S (S (readings w)))) /\
    (ok = true -> risk_manager w' = risk_manager w /\ log w' = log w).
Proof.
  destruct (drawdown_ratio_returns (float_round env) (equity_at env (readings w))
              (equity_peak_at env (S (readings w)))) as [d Hd].
  destruct (circuit_breaker_active (risk_manager w)) eqn:Ha.
  { eexists _, false, d. rewrite (pre_trade_check_blocked env w ev Ha).
    split; [reflexivity|]. split; [exact Hd|].
    split; [split; [discriminate | intros [? _]; discriminate] | discriminate]. }
  destruct (Qlt_le_dec ev (-0.05)) as [Hlow|Hok].
  { eexists _, false, d. rewrite (pre_trade_check_floor env w ev Ha Hlow).
    split; [reflexivity|]. split; [exact Hd|].
    split; [split; [discriminate | intros (_ & H & _); contradiction]
           | discriminate]. }
  assert (Hev : ~ ev < -0.05) by lra.
  destruct (pre_trade_check_accounts env w ev d Ha Hev Hd) as (w' & H1 & H2 & H3).
  destruct (Qlt_le_dec (daily_drawdown_limit_pct (config w)) d) as [Hdd|Hdd].
  { destruct (H1 Hdd) as [E _]. exists w', false, d.
    split; [exact E|]. split; [exact Hd|].
    split; [split; [discriminate | intros (_ & _ & H & _); lra] | discriminate]. }
  destruct (Qlt_le_dec (margin_ratio_at env (S (S (readings w))))
              (margin_health_threshold (config w))) as [Hm|Hm].
  { destruct (H2 Hdd Hm) as [E _]. exists w', false, d.
    split; [exact E|]. split; [exact Hd|].
    split; [split; [discriminate | intros (_ & _ & _ & H); lra] | discriminate]. }
  destruct (H3 Hdd Hm) as (E & Hr & Hl). exists w', true, d.
  split; [exact E|]. split; [exact Hd|].
  split; [split; [intros _; repeat split; assumption | reflexivity]|].
  intros _. split; assumption.
Qed.

(** X5. [pre_trade_check] never raises, and it answers true exactly when
    the breaker is not active, the EV is not below -0.05, the drawdown of
    the account is at most the daily limit and the margin ratio is at least
    the health threshold; a check that passes leaves the risk state and the
    log as they are.  The drawdown is the one that the floats compute, the
    rounded quotient by the peak of the rounded difference of the peak and
    the equity: it is 0 when the peak is not positive, and otherwise, in a
    float arithmetic of relative error [u], within [3 u] of
    (peak - equity) / peak, relatively. *)
Theorem pre_trade_check_decision (env : Env) (w : World) (ev : Q) :
  exists w' ok d,
    RiskManager.pre_trade_check ev env w = (w', Return ok) /\
    RiskManager.drawdown_ratio (float_round env)
      (equity_at env (readings w))
      (equity_peak_at env (S (readings w))) = Return d /\
    (ok = true <->
     circuit_breaker_active (risk_manager w) = false /\
     ~ ev < -0.05 /\
     d <= daily_drawdown_limit_pct (config w) /\
     margin_health_threshold (config w)
     <= margin_ratio_at env (S (S (readings w)))) /\
    (ok = true -> risk_manager w' = risk_manager w /\ log w' = log w) /\
    (equity_peak_at env (S (readings w)) <= 0 -> d = 0) /\
    (forall u,
       accurate u (float_round env) -> u <= 1 ->
       0 < equity_peak_at env (S (readings w)) ->
       Qabs (d - (equity_peak_at env (S (readings w))
                  - equity_at env (readings w))
                 / equity_peak_at env (S (readings w)))
       <= 3 * u * Qabs ((equity_peak_at env (S (readings w))
                         - equity_at env (readings w))
                        / equity_peak_at env (S (readings w)))).
Proof.
  destruct (pre_trade_check_decides env w ev) as (w' & ok & d & E & Hd & H1 & H2).
  exists w', ok, d.
  split; [exact E|]. split; [exact Hd|]. split; [exact H1|].
  split; [exact H2|]. split.
  - intros Hp. unfold RiskManager.drawdown_ratio in Hd.
    assert (E0 : Qgt_bool (equity_peak_at env (S (readings w))) 0 = false)
      by (apply Qgt_bool_false; exact Hp).
    rewrite E0 in Hd. injection Hd as <-. reflexivity.
  - intros u Hr Hu Hp.
    exact (drawdown_ratio_error u _ _ _ d Hr Hu Hp Hd).
Qed.

Lemma pre_trade_check_decision_witness :
  accurate 0 (float_round drawdown_env) /\
  exists w' d,
    RiskManager.pre_trade_check 1 drawdown_env example_world
    = (w', Return false) /\
    RiskManager.drawdown_ratio (float_round drawdown_env)
      (equity_at drawdown_env (readings example_world))
      (equity_peak_at drawdown_env (S (readings example_world))) = Return d /\
    d == 1 # 2.
Proof.
  split; [exact accurate_identity|].
  destruct (pre_trade_check_decision drawdown_env example_world 1)
    as (w' & ok & d & E & Hd & H1 & _ & _ & H3).
  assert (Hp : 0 < equity_peak_at drawdown_env (S (readings example_world)))
    by reflexivity.
  pose proof (H3 0 accurate_identity ltac:(lra) Hp) as He.
  assert (Hv : d == 1 # 2).
  { rewrite Qmult_0_r, Qmult_0_l in He.
    apply Qabs_Qle_condition in He.
    change ((equity_peak_at drawdown_env (S (readings example_world))
             - equity_at drawdown_env (readings example_world))
            / equity_peak_at drawdown_env (S (readings example_world)))
      with ((10000 - 5000) / 10000) in He.
    assert (Hq : (10000 - 5000) / 10000 == 1 # 2) by reflexivity.
    lra. }
  exists w', d. split; [|split; [exact Hd | exact Hv]].
  rewrite E. destruct ok; [|reflexivity].
  destruct H1 as [H1 _]. destruct (H1 eq_refl) as (_ & _ & Hlim & _).
  exfalso. revert Hlim. rewrite Hv. vm_compute. intros H. apply H. reflexivity.
Defined.

(** X6. A pre-trade check that rejects for the account (the breaker was
    not active and the EV not below -0.05) trips the breaker at a clock
    reading taken during the check; from then on every pre-trade check is
    rejected at once, without a look at the account or at the clock:
    [pre_trade_check] itself never rearms the breaker. *)
Theorem account_rejection_trips_breaker (env : Env) (w w' : World) (ev : Q) :
  circuit_breaker_active (risk_manager w) = false ->
  ~ ev < -0.05 ->
  RiskManager.pre_trade_check ev env w = (w', Return false) ->
  (exists k, (readings w <= k < readings w')%nat /\
             tripped_at (utcnow_at env k) w') /\
  forall env2 ev2,
    RiskManager.pre_trade_check ev2 env2 w'
    = (add_log LogBreakerBlocked w', Return false).
Proof.
  intros Ha Hev Hcheck.
  destruct (drawdown_ratio_returns (float_round env) (equity_at env (readings w))
              (equity_peak_at env (S (readings w)))) as [d Hd].
  destruct (pre_trade_check_accounts env w ev d Ha Hev Hd) as (w1 & H1 & H2 & H3).
  assert (Htrip : exists k, (readings w <= k < readings w')%nat /\
                            tripped_at (utcnow_at env k) w').
  { destruct (Qlt_le_dec (daily_drawdown_limit_pct (config w)) d) as [Hdd|Hdd].
    { destruct (H1 Hdd) as (E & T & R). rewrite E in Hcheck.
      injection Hcheck as <-.
      exists (S (S (readings w))). split; [lia | exact T]. }
    destruct (Qlt_le_dec (margin_ratio_at env (S (S (readings w))))
                (margin_health_threshold (config w))) as [Hm|Hm].
    { destruct (H2 Hdd Hm) as (E & T & R). rewrite E in Hcheck.
      injection Hcheck as <-.
      exists (S (S (S (readings w)))). split; [lia | exact T]. }
    destruct (H3 Hdd Hm) as (E & _). rewrite E in Hcheck. discriminate. }
  split; [exact Htrip|].
  intros env2 ev2. apply pre_trade_check_blocked.
  destruct Htrip as (k & _ & T & _). exact T.
Qed.

Lemma account_rejection_trips_breaker_witness :
  exists w' ev,
    circuit_breaker_active (risk_manager example_world) = false /\
    ~ ev < -0.05 /\
    RiskManager.pre_trade_check ev drawdown_env example_world
    = (w', Return false) /\
    circuit_breaker_active (risk_manager w') = true.
Proof.
  eassert (Hcheck : RiskManager.pre_trade_check 1 drawdown_env example_world
                    = (_, Return false)) by (vm_compute; reflexivity).
  assert (Hev : ~ 1 < -0.05) by (intros H; discriminate H).
  match type of Hcheck with
  | _ = (?w1, _) =>
      destruct (account_rejection_trips_breaker drawdown_env example_world w1 1
                  eq_refl Hev Hcheck) as [(k & _ & T & _) _];
      exists w1, 1
  end.
  repeat split; assumption.
Defined.

(** ** Streaks of losses *)

Section Streak.

Variable env : Env.

Lemma register_step w pnl :
  exists w',
    RiskManager.register_trade_result pnl env w = (w', Return tt) /\
    loss_streak (risk_manager w')
    = (if Qlt_bool pnl 0 then S (loss_streak (risk_manager w)) else O) /\
    circuit_breaker_active (risk_manager w')
    = circuit_breaker_active (risk_manager w)
      || (Qlt_bool pnl 0 && (3 <=? S (loss_streak (risk_manager w)))%nat) /\
    drawdown_history (risk_manager w')
    = drawdown_history (risk_manager w) ++ (if Qlt_bool pnl 0 then [pnl] else []).
Proof.
  unfold RiskManager.register_trade_result.
  destruct (Qlt_bool pnl 0) eqn:E.
  - mstep.
    cbn [set_risk_manager risk_manager RiskManager.append_drawdown
         RiskManager.set_loss_streak loss_streak].
    rewrite Nat.add_1_r.
    destruct (3 <=? S (loss_streak (risk_manager w)))%nat eqn:E3.
    + unfold RiskManager._trigger_circuit_breaker. mstep.
      eexists. split; [reflexivity|]. cbn.
      rewrite orb_true_r. repeat split; lia.
    + mstep. eexists. split; [reflexivity|]. cbn.
      rewrite orb_false_r. repeat split; lia.
  - mstep. eexists. split; [reflexivity|]. cbn.
    rewrite orb_false_r, app_nil_r. repeat split.
Qed.

End Streak.

(** X7. Registering a list of trade results never raises.  Afterwards the
    streak is the number of losses at the end of the list (on top of the
    streak before it, when the list has only losses); the breaker is active
    exactly when it was active before or a run of losses reached three
    somewhere along the list, so that no gain ever rearms it; and the
    drawdown history has grown by every loss of the list, in order. *)
Theorem register_counts_losses_in_a_row (env : Env) (pnls : list Q) (w : World) :
  exists w',
    register_all pnls env w = (w', Return tt) /\
    loss_streak (risk_manager w')
    = losses_in_a_row (loss_streak (risk_manager w)) pnls /\
    circuit_breaker_active (risk_manager w')
    = circuit_breaker_active (risk_manager w)
      || reaches_three (loss_streak (risk_manager w)) pnls /\
    drawdown_history (risk_manager w')
    = drawdown_history (risk_manager w)
      ++ List.filter (fun pnl => Qlt_bool pnl 0) pnls.
Proof.
  revert w. induction pnls as [|pnl rest IH]; intros w.
  - exists w. cbn. rewrite orb_false_r, app_nil_r. repeat split.
  - destruct (register_step env w pnl) as (w1 & E1 & S1 & A1 & D1).
    destruct (IH w1) as (w' & E & S' & A & D).
    exists w'. cbn [register_all]. unfold bind at 1. rewrite E1.
    split; [exact E|].
    cbn [losses_in_a_row fold_left reaches_three List.filter].
    rewrite S1 in S', A. rewrite A1 in A. rewrite D1 in D.
    split; [exact S'|]. split.
    + rewrite A. rewrite orb_assoc. destruct (Qlt_bool pnl 0); reflexivity.
    + rewrite D. destruct (Qlt_bool pnl 0); cbn [app];
        [rewrite <- app_assoc; reflexivity | rewrite app_nil_r; reflexivity].
Qed.

(** ** The risk heat *)

Section Heat.

Lemma py_min_le_r a b : py_min a b <= b.
Proof.
  unfold py_min. qcase; lra.
Qed.

Lemma py_min_nonneg a b : 0 <= a -> 0 <= b -> 0 <= py_min a b.
Proof.
  intros Ha Hb. unfold py_min. qcase; lra.
Qed.

Lemma last_n_nonempty {A} (x : A) l : (0 < length (last_n 10 (x :: l)))%nat.
Proof.
  rewrite last_n_length. cbn [length].
  destruct (Nat.min_spec 10 (S (length l))) as [[_ ->]|[_ ->]]; lia.
Qed.

(** The heat of a history that is not empty. *)
Lemma risk_heat_value self x l :
  drawdown_history self = x :: l ->
  RiskManager._risk_heat self
  = Return (py_min
              (Qabs (py_sum (last_n 10 (x :: l))
                     / inject_Z (Z.of_nat (length (last_n 10 (x :: l)))))
               / 0.05) 1.0).
Proof.
  intros E. unfold RiskManager._risk_heat. rewrite E.
  rewrite py_truediv_Return; [reflexivity|].
  pose proof (last_n_nonempty x l) as H.
  intros H0. unfold Qeq in H0. cbn [Qnum Qden inject_Z] in H0. lia.
Qed.

Lemma risk_heat_range self heat :
  RiskManager._risk_heat self = Return heat -> 0 <= heat <= 1.
Proof.
  destruct (drawdown_history self) as [|x l] eqn:E.
  - rewrite (risk_heat_empty self E). intros [= <-]. lra.
  - rewrite (risk_heat_value self x l E).
    set (a := Qabs _). pose proof (Qabs_nonneg
      (py_sum (last_n 10 (x :: l))
       / inject_Z (Z.of_nat (length (last_n 10 (x :: l)))))) as Ha.
    fold a in Ha. clearbody a. intros [= <-].
    pose proof (py_min_le_r (a / 0.05) 1.0) as Hle.
    assert (Hge : 0 <= py_min (a / 0.05) 1.0); [|lra].
    apply py_min_nonneg; [|lra].
    apply Qle_shift_div_l; [reflexivity|]. lra.
Qed.

Lemma last_n_app {A} (older recent : list A) :
  last_n (length recent) (older ++ recent) = recent.
Proof.
  unfold last_n. rewrite length_app.
  replace (length older + length recent - length recent)%nat
    with (length older) by lia.
  apply drop_app_length.
Qed.

Lemma last_n_losses (n : nat) (l : list Q) :
  Forall (fun pnl => pnl < 0) l -> Forall (fun pnl => pnl < 0) (last_n n l).
Proof.
  intros H. unfold last_n. apply Forall_drop, H.
Qed.

Lemma risk_heat_rounded_returns round self :
  exists heat, RiskManager._risk_heat_rounded round self = Return heat.
Proof.
  unfold RiskManager._risk_heat_rounded.
  destruct (drawdown_history self) as [|x l] eqn:E; [eexists; reflexivity|].
  rewrite py_truediv_Return; [cbn [obind]; eexists; reflexivity|].
  pose proof (last_n_nonempty x l) as H.
  intros H0. unfold Qeq in H0. cbn [Qnum Qden inject_Z] in H0. lia.
Qed.

Lemma risk_heat_rounded_value round self x l :
  drawdown_history self = x :: l ->
  RiskManager._risk_heat_rounded round self
  = Return (py_min
              (round
                 (Qabs (round (float_sum round (last_n 10 (x :: l))
                               / inject_Z (Z.of_nat (length (last_n 10 (x :: l))))))
                  / round 0.05)) 1.0).
Proof.
  intros E. unfold RiskManager._risk_heat_rounded. rewrite E.
  rewrite py_truediv_Return; [reflexivity|].
  pose proof (last_n_nonempty x l) as H.
  intros H0. unfold Qeq in H0. cbn [Qnum Qden inject_Z] in H0. lia.
Qed.

(** In exact arithmetic the rounded heat is [_risk_heat]. *)
Lemma risk_heat_rounded_exact self :
  RiskManager._risk_heat_rounded (fun x => x) self
  = RiskManager._risk_heat self.
Proof. reflexivity. Qed.

Lemma hedge_position_run env w heat :
  RiskManager._risk_heat_rounded (float_round env) (risk_manager w)
  = Return heat ->
  RiskManager.hedge_position env w
  = if Qgt_bool heat (float_round env 0.8)
    then (add_log LogHedge w, Return (Some (["BTCUSDT"; "ETHUSDT"], "SHORT")))
    else (w, Return None).
Proof.
  intros H. unfold RiskManager.hedge_position. mstep. rewrite H. mstep.
  destruct (Qgt_bool heat (float_round env 0.8)); reflexivity.
Qed.

(** The rounded heat against the rounded level of the hedge, when the mean
    of the recent losses is clearly beyond or clearly within 4%. *)
Lemma risk_heat_rounded_margin u round (recent : list Q) :
  accurate u round -> u <= 1 # 1000 ->
  Forall (fun pnl => pnl < 0) recent ->
  (0 < length recent <= 10)%nat ->
  let n := inject_Z (Z.of_nat (length recent)) in
  let heat :=
    py_min (round (Qabs (round (float_sum round recent / n)) / round 0.05))
      1.0 in
  (0.041 * n <= - py_sum recent -> round 0.8 < heat) /\
  (- py_sum recent <= 0.039 * n -> heat <= round 0.8).
Proof.
  intros Hr Hu Hl [Hn0 Hn10] n heat.
  pose proof (float_sum_losses u round Hr recent Hu Hl Hn10) as [HF1 HF2].
  pose proof (py_sum_losses recent 0 Hl) as HS. fold (py_sum recent) in HS.
  assert (Hn : 1 <= n).
  { unfold n. change 1 with (inject_Z 1). rewrite <- Zle_Qle. lia. }
  clearbody n.
  set (S := py_sum recent) in *. set (F := float_sum round recent) in *.
  clearbody S F.
  assert (Hq : F / n * n == F) by (field; lra).
  set (q := F / n) in *.
  assert (Hq0 : q <= 0).
  { apply Qnot_lt_le. intros Hc.
    assert (0 * n < q * n) by (apply Qmult_lt_compat_r; lra). lra. }
  pose proof (accurate_within u round Hr 0.05 0.05 0.05 Hu ltac:(lra)
                ltac:(lra)) as [Hc1 Hc2].
  pose proof (accurate_within u round Hr 0.8 0.8 0.8 Hu ltac:(lra)
                ltac:(lra)) as [Ht1 Ht2].
  set (c := round 0.05) in *. set (t := round 0.8) in *.
  destruct (accurate_nonpos u round Hr q Hq0) as [Hr1 Hr2].
  pose proof (accurate_error_nonneg u round Hr) as Hu0.
  assert (Ha0 : round q <= 0) by nra.
  unfold heat. pose proof (Qabs_neg (round q) Ha0) as Habs.
  set (a := Qabs (round q)) in *.
  assert (Ha : - q * (1 - u) <= a <= - q * (1 + u)) by lra.
  clearbody a.
  assert (Hd : a / c * c == a) by (field; lra).
  set (d := a / c) in *.
  split; intros Hm.
  - assert (Hq1 : 0.04059 <= - q).
    { apply Qnot_lt_le. intros Hc.
      assert (- q * n < 0.04059 * n) by (apply Qmult_lt_compat_r; lra). lra. }
    assert (Ha1 : 0.04054 <= a) by nra.
    assert (Hd1 : 0.8099 <= d).
    { apply Qnot_lt_le. intros Hc.
      assert (d * c < 0.8099 * c) by (apply Qmult_lt_compat_r; lra). lra. }
    pose proof (accurate_within u round Hr d 0.8099 d Hu ltac:(lra)
                  ltac:(lra)) as [He1 _].
    unfold py_min. qcase; lra.
  - assert (Hq1 : - q <= 0.03978).
    { apply Qnot_lt_le. intros Hc.
      assert (0.03978 * n < - q * n) by (apply Qmult_lt_compat_r; lra). lra. }
    assert (Ha1 : 0 <= a <= 0.03982) by nra.
    assert (Hd0 : 0 <= d).
    { apply Qnot_lt_le. intros Hc.
      assert (d * c < 0 * c) by (apply Qmult_lt_compat_r; lra). lra. }
    assert (Hd1 : d <= 0.7973).
    { apply Qnot_lt_le. intros Hc.
      assert (0.7973 * c < d * c) by (apply Qmult_lt_compat_r; lra). lra. }
    pose proof (accurate_within u round Hr d 0 0.7973 Hu ltac:(lra)
                  ltac:(lra)) as [_ He1].
    unfold py_min. qcase; lra.
Qed.

End Heat.

(** X8. The risk heat is a number of [0, 1] whatever the drawdown history,
    and only the last ten recorded losses count: older entries of the
    history do not move it. *)
Theorem risk_heat_reads_last_ten_losses (self : RiskManagerState)
  (older recent : list Q) :
  drawdown_history self = older ++ recent ->
  length recent = 10%nat ->
  exists heat,
    RiskManager._risk_heat self = Return heat /\
    RiskManager._risk_heat (with_drawdowns recent self) = Return heat /\
    0 <= heat <= 1.
Proof.
  intros E Hlen.
  destruct (risk_heat_returns self) as [heat Hh].
  exists heat. split; [exact Hh|]. split; [|exact (risk_heat_range self heat Hh)].
  rewrite <- Hh.
  destruct recent as [|r0 recent]; [discriminate|].
  destruct (drawdown_history self) as [|x l] eqn:El.
  { destruct older; discriminate. }
  rewrite (risk_heat_value self x l El).
  rewrite (risk_heat_value (with_drawdowns (r0 :: recent) self) r0 recent eq_refl).
  rewrite E.
  assert (H1 : last_n 10 (older ++ r0 :: recent) = r0 :: recent).
  { rewrite <- Hlen. apply last_n_app. }
  assert (H2 : last_n 10 (r0 :: recent) = r0 :: recent).
  { rewrite <- Hlen. apply (last_n_app []). }
  rewrite H1, H2. reflexivity.
Qed.

Lemma risk_heat_reads_last_ten_losses_witness :
  exists heat,
    RiskManager._risk_heat
      (with_drawdowns ([-1; -1] ++ repeat (-(1 # 50)) 10) armed) = Return heat /\
    RiskManager._risk_heat (with_drawdowns (repeat (-(1 # 50)) 10) armed)
    = Return heat /\
    0 <= heat <= 1.
Proof.
  exact (risk_heat_reads_last_ten_losses
           (with_drawdowns ([-1; -1] ++ repeat (-(1 # 50)) 10) armed)
           [-1; -1] (repeat (-(1 # 50)) 10) eq_refl eq_refl).
Defined.

Lemma register_keeps_losses env w pnl :
  Forall (fun pnl => pnl < 0) (drawdown_history (risk_manager w)) ->
  Forall (fun pnl => pnl < 0)
    (drawdown_history
       (risk_manager (fst (RiskManager.register_trade_result pnl env w)))).
Proof.
  intros H. destruct (register_step env w pnl) as (w' & E & _ & _ & D).
  rewrite E. cbn [fst]. rewrite D. apply Forall_app. split; [exact H|].
  destruct (Qlt_bool pnl 0) eqn:Ep; [|constructor].
  apply Qlt_bool_true in Ep. repeat constructor. exact Ep.
Qed.

(** X9. [hedge_position] never raises and never changes the risk state or
    the positions.  It advises the short hedge of BTC and ETH exactly when
    the heat that the floats compute (the rounded mean of the last ten
    recorded losses, over the float 0.05, rounded and capped at 1) is above
    the float 0.8, and nothing otherwise.  On a history that holds losses
    only, which is what [register_trade_result] keeps, and with a float
    arithmetic accurate to one part in a thousand or better, the hedge is
    advised whenever the mean of the last ten losses is 4.1% or more, and
    it is not whenever that mean is 3.9% or less or no loss is recorded;
    in between the rounding decides. *)
Theorem hedge_advised_beyond_four_percent (env : Env) (w : World) :
  exists w' advice heat,
    RiskManager.hedge_position env w = (w', Return advice) /\
    risk_manager w' = risk_manager w /\ executor w' = executor w /\
    RiskManager._risk_heat_rounded (float_round env) (risk_manager w)
    = Return heat /\
    (advice = Some (["BTCUSDT"; "ETHUSDT"], "SHORT")
     <-> float_round env 0.8 < heat) /\
    (advice = None <-> heat <= float_round env 0.8) /\
    (forall pnl,
       Forall (fun pnl => pnl < 0) (drawdown_history (risk_manager w)) ->
       Forall (fun pnl => pnl < 0)
         (drawdown_history
            (risk_manager
               (fst (RiskManager.register_trade_result pnl env w))))) /\
    forall u,
      accurate u (float_round env) -> u <= 1 # 1000 ->
      Forall (fun pnl => pnl < 0) (drawdown_history (risk_manager w)) ->
      let recent := last_n 10 (drawdown_history (risk_manager w)) in
      let n := inject_Z (Z.of_nat (length recent)) in
      (drawdown_history (risk_manager w) = [] -> advice = None) /\
      (drawdown_history (risk_manager w) <> [] ->
       0.041 * n <= - py_sum recent ->
       advice = Some (["BTCUSDT"; "ETHUSDT"], "SHORT")) /\
      (- py_sum recent <= 0.039 * n -> advice = None).
Proof.
  destruct (risk_heat_rounded_returns (float_round env) (risk_manager w))
    as [heat Hh].
  rewrite (hedge_position_run env w heat Hh).
  assert (Hm : forall u,
    accurate u (float_round env) -> u <= 1 # 1000 ->
    Forall (fun pnl => pnl < 0) (drawdown_history (risk_manager w)) ->
    let recent := last_n 10 (drawdown_history (risk_manager w)) in
    let n := inject_Z (Z.of_nat (length recent)) in
    (drawdown_history (risk_manager w) = [] -> heat <= float_round env 0.8) /\
    (drawdown_history (risk_manager w) <> [] ->
     0.041 * n <= - py_sum recent -> float_round env 0.8 < heat) /\
    (- py_sum recent <= 0.039 * n -> heat <= float_round env 0.8)).
  { intros u Hr Hu Hl recent n.
    pose proof (accurate_within u _ Hr 0.8 0.8 0.8 Hu ltac:(lra) ltac:(lra))
      as [Ht _].
    destruct (drawdown_history (risk_manager w)) as [|x l] eqn:E.
    - unfold RiskManager._risk_heat_rounded in Hh. rewrite E in Hh.
      injection Hh as <-.
      split; [intros _; lra|]. split; [intros H; contradiction|].
      intros _. lra.
    - rewrite (risk_heat_rounded_value _ _ x l E) in Hh. injection Hh as <-.
      destruct (risk_heat_rounded_margin u (float_round env) recent Hr Hu)
        as [H1 H2].
      + apply last_n_losses, Hl.
      + split; [apply last_n_nonempty|].
        unfold recent. rewrite last_n_length. lia.
      + split; [discriminate|]. split; [intros _; exact H1 | exact H2]. }
  destruct (Qgt_bool heat (float_round env 0.8)) eqn:E;
    [apply Qgt_bool_true in E | apply Qgt_bool_false in E];
    eexists _, _, heat; (split; [reflexivity|]); (split; [reflexivity|]);
    (split; [reflexivity|]); (split; [exact Hh|]).
  - split; [split; [intros _; exact E | reflexivity]|].
    split; [split; [discriminate | intros H; lra]|].
    split; [intros pnl; apply register_keeps_losses|].
    intros u Hr Hu Hl recent n.
    destruct (Hm u Hr Hu Hl) as (H1 & H2 & H3).
    split; [intros H; specialize (H1 H); lra|].
    split; [reflexivity|]. intros H. specialize (H3 H). lra.
  - split; [split; [discriminate | intros H; lra]|].
    split; [split; [intros _; exact E | reflexivity]|].
    split; [intros pnl; apply register_keeps_losses|].
    intros u Hr Hu Hl recent n.
    destruct (Hm u Hr Hu Hl) as (H1 & H2 & H3).
    split; [reflexivity|].
    split; [|reflexivity]. intros Hne H. specialize (H2 Hne H). lra.
Qed.

Lemma hedge_advised_beyond_four_percent_witness :
  accurate 0 (float_round example_env) /\
  Forall (fun pnl => pnl < 0)
    (drawdown_history
       (risk_manager
          (set_risk_manager (with_drawdowns (repeat (-(1 # 20)) 10))
             example_world))) /\
  exists w',
    RiskManager.hedge_position example_env
      (set_risk_manager (with_drawdowns (repeat (-(1 # 20)) 10)) example_world)
    = (w', Return (Some (["BTCUSDT"; "ETHUSDT"], "SHORT"))).
Proof.
  assert (Hloss : Forall (fun pnl => pnl < 0)
            (drawdown_history
               (risk_manager
                  (set_risk_manager (with_drawdowns (repeat (-(1 # 20)) 10))
                     example_world)))).
  { cbn. repeat constructor. }
  split; [exact accurate_identity|]. split; [exact Hloss|].
  destruct (hedge_advised_beyond_four_percent example_env
              (set_risk_manager (with_drawdowns (repeat (-(1 # 20)) 10))
                 example_world))
    as (w' & advice & heat & E & _ & _ & _ & _ & _ & _ & H).
  destruct (H 0 accurate_identity ltac:(lra) Hloss) as (_ & H2 & _).
  exists w'. rewrite E, H2; [reflexivity | discriminate | vm_compute; discriminate].
Defined.

(** X10. The dynamic stop never raises and does not look at the current
    price.  With a base stop [entry - 2 * volatility] that is not negative
    it lies between the base stop and twice the base stop: the risk heat
    only moves it up, towards the entry price and beyond. *)
Theorem dynamic_stop_between_base_and_twice (self : RiskManagerState)
  (current_price entry_price volatility : Q) :
  0 <= entry_price - 2 * volatility ->
  exists stop,
    RiskManager.dynamic_stop_loss self current_price entry_price volatility
    = Return stop /\
    entry_price - 2 * volatility <= stop <= 2 * (entry_price - 2 * volatility) /\
    (drawdown_history self = [] -> stop == entry_price - 2 * volatility) /\
    forall other_price,
      RiskManager.dynamic_stop_loss self other_price entry_price volatility
      = Return stop.
Proof.
  intros Hbase. unfold RiskManager.dynamic_stop_loss.
  destruct (risk_heat_returns self) as [heat Hh]. rewrite Hh. cbn [obind].
  pose proof (risk_heat_range self heat Hh) as Hr.
  eexists. split; [reflexivity|]. split; [nra|]. split; [|reflexivity].
  intros E. rewrite (risk_heat_empty self E) in Hh. injection Hh as <-. ring.
Qed.

Lemma dynamic_stop_between_base_and_twice_witness :
  0 <= 100 - 2 * 5 /\
  exists stop,
    RiskManager.dynamic_stop_loss (with_drawdowns [-1] armed) 100 100 5
    = Return stop /\
    100 - 2 * 5 <= stop <= 2 * (100 - 2 * 5).
Proof.
  assert (H : 0 <= 100 - 2 * 5) by (vm_compute; discriminate).
  split; [exact H|].
  destruct (dynamic_stop_between_base_and_twice (with_drawdowns [-1] armed)
              100 100 5 H) as (stop & E & B & _).
  exists stop. split; [exact E | exact B].
Defined.

(** X22. [recovery_mode] never raises and leaves the risk state and the
    positions alone: it does not trip the breaker.  It answers capital
    preservation, with half the leverage and the tiers T4 and T5, exactly
    when the drawdown that it computes, the rounded quotient of the rounded
    difference, is above the float 0.20.  With a float arithmetic accurate
    to one part in a thousand or better this is the case whenever the peak
    is positive and the equity is at most 79.9% of it, and not the case
    whenever the equity is at least 80.1% of the peak or the peak is not
    positive; in between the rounding decides. *)
Theorem recovery_mode_below_80_percent_of_peak (env : Env) (w : World) :
  exists w' mode d,
    RiskManager.recovery_mode env w = (w', Return mode) /\
    risk_manager w' = risk_manager w /\ executor w' = executor w /\
    RiskManager.drawdown_ratio (float_round env) (equity_at env (readings w))
      (equity_peak_at env (S (readings w))) = Return d /\
    (mode = RiskManager.capital_preservation 0.5 ["T4"; "T5"]
              "drawdown < 10% and EV > 0.05"
     <-> float_round env 0.20 < d) /\
    (mode = RiskManager.normal <-> d <= float_round env 0.20) /\
    forall u,
      accurate u (float_round env) -> u <= 1 # 1000 ->
      (equity_peak_at env (S (readings w)) <= 0 -> mode = RiskManager.normal) /\
      (0 < equity_peak_at env (S (readings w)) ->
       equity_at env (readings w)
       <= 0.799 * equity_peak_at env (S (readings w)) ->
       mode = RiskManager.capital_preservation 0.5 ["T4"; "T5"]
                "drawdown < 10% and EV > 0.05") /\
      (0 < equity_peak_at env (S (readings w)) ->
       0.801 * equity_peak_at env (S (readings w))
       <= equity_at env (readings w) ->
       mode = RiskManager.normal).
Proof.
  destruct (drawdown_ratio_returns (float_round env) (equity_at env (readings w))
              (equity_peak_at env (S (readings w)))) as [d Hd].
  rewrite (recovery_mode_run env w d Hd).
  destruct (Qgt_bool d (float_round env 0.20)) eqn:E;
    [apply Qgt_bool_true in E | apply Qgt_bool_false in E];
    eexists _, _, d; (split; [reflexivity|]); (split; [reflexivity|]);
    (split; [reflexivity|]); (split; [exact Hd|]).
  - split; [split; [intros _; exact E | reflexivity]|].
    split; [split; [discriminate | intros H; lra]|].
    intros u Hr Hu.
    destruct (drawdown_ratio_margin u _ _ _ d Hr Hu Hd) as (H1 & H2 & H3).
    split; [intros H; specialize (H1 H); lra|].
    split; [reflexivity|]. intros Hp He. specialize (H3 Hp He). lra.
  - split; [split; [discriminate | intros H; lra]|].
    split; [split; [intros _; exact E | reflexivity]|].
    intros u Hr Hu.
    destruct (drawdown_ratio_margin u _ _ _ d Hr Hu Hd) as (H1 & H2 & H3).
    split; [reflexivity|].
    split; [|reflexivity]. intros Hp He. specialize (H2 Hp He). lra.
Qed.

Lemma recovery_mode_below_80_percent_of_peak_witness :
  accurate 0 (float_round drawdown_env) /\
  exists w',
    RiskManager.recovery_mode drawdown_env example_world
    = (w', Return (RiskManager.capital_preservation 0.5 ["T4"; "T5"]
                     "drawdown < 10% and EV > 0.05")).
Proof.
  split; [exact accurate_identity|].
  destruct (recovery_mode_below_80_percent_of_peak drawdown_env example_world)
    as (w' & mode & d & E & _ & _ & _ & _ & _ & H).
  destruct (H 0 accurate_identity ltac:(lra)) as (_ & H2 & _).
  exists w'. rewrite E, H2; [reflexivity | reflexivity |].
  cbn. lra.
Defined.

(** ** The trigger time of a tripped breaker *)

Section Consistent.

Lemma consistent_tick w : breaker_consistent w -> breaker_consistent (tick w).
Proof.
  intros H. exact H.
Qed.

Lemma consistent_log r w :
  breaker_consistent w -> breaker_consistent (add_log r w).
Proof.
  intros H. exact H.
Qed.

Lemma consistent_ev f w :
  breaker_consistent w -> breaker_consistent (set_ev_engine f w).
Proof.
  intros H. exact H.
Qed.

Lemma consistent_executor f w :
  breaker_consistent w -> breaker_consistent (set_executor f w).
Proof.
  intros H. exact H.
Qed.

Lemma trigger_consistent reason :
  preserves breaker_consistent (RiskManager._trigger_circuit_breaker reason).
Proof.
  intros env w _. rewrite trigger_result. intros _. cbn. eexists; reflexivity.
Qed.

Ltac consistent :=
  first [ apply trigger_consistent
        | assumption
        | match goal with
          | H : breaker_consistent _ |- breaker_consistent _ =>
              first [ exact H | intros Ha; cbn in Ha; discriminate Ha ]
          end ].

Lemma check_circuit_breaker_consistent :
  preserves breaker_consistent RiskManager.check_circuit_breaker.
Proof.
  unfold RiskManager.check_circuit_breaker. frame. all: consistent.
Qed.

Lemma register_trade_result_consistent pnl :
  preserves breaker_consistent (RiskManager.register_trade_result pnl).
Proof.
  unfold RiskManager.register_trade_result. frame. all: consistent.
Qed.

Lemma pre_trade_check_consistent ev :
  preserves breaker_consistent (RiskManager.pre_trade_check ev).
Proof.
  unfold RiskManager.pre_trade_check, RiskManager._check_drawdown,
    RiskManager._check_margin_health.
  frame. all: consistent.
Qed.

Lemma check_risk_consistent sym ev :
  preserves breaker_consistent (ExecutionEngine._check_risk sym ev).
Proof.
  unfold ExecutionEngine._check_risk. frame.
  all: first [ apply check_circuit_breaker_consistent | consistent ].
Qed.

Lemma execute_symbol_consistent sym state :
  preserves breaker_consistent (ExecutionEngine.execute_symbol sym state).
Proof.
  unfold ExecutionEngine.execute_symbol. frame.
  all: first [ apply calculate_ev_preserves;
               [exact consistent_tick | exact (fun e => consistent_ev _)]
             | apply check_risk_consistent
             | apply in_cooldown_preserves; exact consistent_tick
             | apply maybe_exit_preserves;
               [ exact consistent_tick | exact (fun r w _ => consistent_log r w)
               | exact consistent_executor ]
             | apply maybe_rotate_preserves
             | apply enter_position_preserves;
               [ exact consistent_tick | exact (fun r w _ => consistent_log r w)
               | exact consistent_executor ] ].
Qed.

Lemma execute_cycle_consistent snapshot :
  preserves breaker_consistent (ExecutionEngine.execute_cycle snapshot).
Proof.
  induction snapshot as [|[sym state] rest IH]; cbn [ExecutionEngine.execute_cycle].
  - apply preserves_ret.
  - apply preserves_bind; [apply execute_symbol_consistent | intros _; exact IH].
Qed.

Lemma check_circuit_breaker_returns env w :
  breaker_consistent w ->
  exists w' b, RiskManager.check_circuit_breaker env w = (w', Return b).
Proof.
  intros H. destruct (circuit_breaker_active (risk_manager w)) eqn:Ha.
  - destruct (H Ha) as [t0 Ht].
    destruct (Z.le_gt_cases (utcnow_at env (readings w))
                (t0 + timedelta_minutes 180)) as [Hin|Hout].
    + rewrite (check_tripped_within env w t0 (conj Ha Ht) Hin).
      eexists _, _. reflexivity.
    + destruct (check_tripped_after env w t0 (conj Ha Ht) Hout) as (w' & E & _).
      eexists _, _. exact E.
  - rewrite (check_armed env w Ha). eexists _, _. reflexivity.
Qed.

End Consistent.

(** X11. That an active breaker has a trigger time is an invariant: a query
    of the breaker, a registration of a trade result, a pre-trade check and
    a whole execution cycle each keep it, whether they return or raise;
    with it, the query of the breaker returns: it never subtracts the unset
    trigger time from the clock. *)
Theorem active_breaker_has_trigger_time (env : Env) (w : World)
  (snapshot : list (string * gmap string Q)) (pnl ev : Q) :
  breaker_consistent w ->
  (exists w' b,
     RiskManager.check_circuit_breaker env w = (w', Return b) /\
     breaker_consistent w') /\
  breaker_consistent (fst (RiskManager.register_trade_result pnl env w)) /\
  breaker_consistent (fst (RiskManager.pre_trade_check ev env w)) /\
  breaker_consistent (fst (ExecutionEngine.execute_cycle snapshot env w)).
Proof.
  intros H. split; [|split; [|split]].
  - destruct (check_circuit_breaker_returns env w H) as (w' & b & E).
    exists w', b. split; [exact E|].
    pose proof (check_circuit_breaker_consistent env w H) as H'.
    rewrite E in H'. exact H'.
  - apply register_trade_result_consistent, H.
  - apply pre_trade_check_consistent, H.
  - apply execute_cycle_consistent, H.
Qed.

Lemma active_breaker_has_trigger_time_witness :
  breaker_consistent example_world /\
  breaker_consistent
    (fst (three_losses (-1) (-1) (-1) example_env example_world)) /\
  circuit_breaker_active
    (risk_manager (fst (three_losses (-1) (-1) (-1) example_env example_world)))
  = true.
Proof.
  assert (H : breaker_consistent example_world) by (intros Ha; discriminate Ha).
  split; [exact H|]. split; [|reflexivity].
  unfold three_losses.
  destruct (active_breaker_has_trigger_time example_env example_world [] (-1) 0 H)
    as (_ & H1 & _).
  destruct (active_breaker_has_trigger_time example_env _ [] (-1) 0 H1)
    as (_ & H2 & _).
  destruct (active_breaker_has_trigger_time example_env _ [] (-1) 0 H2)
    as (_ & H3 & _).
  exact H3.
Defined.

(** ** Symbols that a cycle skips *)

Section Skipped.

Variable env : Env.

Lemma calculate_ev_risk sym state w :
  risk_manager (fst (EVEngine.calculate_ev_for_symbol sym state env w))
  = risk_manager w.
Proof.
  apply (calculate_ev_preserves (fun w' => risk_manager w' = risk_manager w));
    [intros w' H; exact H | intros e w' H; exact H | reflexivity].
Qed.

(** A symbol met while the breaker is tripped and within its 180 minutes. *)
Lemma execute_symbol_paused sym state w t0 :
  tripped_at t0 w ->
  (forall k, (readings w <= k < readings w + 2)%nat ->
             (utcnow_at env k <= t0 + timedelta_minutes 180)%Z) ->
  exists w' out,
    ExecutionEngine.execute_symbol sym state env w = (w', out) /\
    executor w' = executor w /\ risk_manager w' = risk_manager w /\
    (readings w <= readings w' <= readings w + 2)%nat.
Proof.
  intros Ht Hclock. unfold ExecutionEngine.execute_symbol. unfold bind at 1.
  pose proof (calculate_ev_untouched env sym state w) as (E1 & _ & R1).
  pose proof (calculate_ev_risk sym state w) as K1.
  pose proof (calculate_ev_readings env sym state w) as B1.
  destruct (EVEngine.calculate_ev_for_symbol sym state env w)
    as [w1 [[r|]|e]]; cbn [fst] in *.
  2, 3: eexists _, _; split; [reflexivity|]; repeat split; try assumption; lia.
  mstep_result. unfold ExecutionEngine._check_risk.
  unfold bind at 1. unfold bind at 1.
  assert (T1 : tripped_at t0 w1).
  { destruct Ht as [Ha Hl]. split; rewrite K1; assumption. }
  rewrite (check_tripped_within env w1 t0 T1) by (apply Hclock; lia).
  mstep. eexists _, _. split; [reflexivity|]. cbn.
  repeat split; try assumption; lia.
Qed.

Lemma execute_cycle_paused snapshot : forall w t0,
  tripped_at t0 w ->
  (forall k, (readings w <= k < readings w + 2 * length snapshot)%nat ->
             (utcnow_at env k <= t0 + timedelta_minutes 180)%Z) ->
  exists w' out,
    ExecutionEngine.execute_cycle snapshot env w = (w', out) /\
    executor w' = executor w /\ risk_manager w' = risk_manager w.
Proof.
  induction snapshot as [|[sym state] rest IH]; intros w t0 Ht Hclock.
  - eexists _, _. split; [reflexivity|]. split; reflexivity.
  - cbn [ExecutionEngine.execute_cycle length] in *. unfold bind at 1.
    destruct (execute_symbol_paused sym state w t0 Ht) as (w1 & out & -> & E1 & K1 & R1).
    { intros k Hk. apply Hclock. lia. }
    destruct out as [[]|e]; [|eexists _, _; split; [reflexivity|]; split; assumption].
    destruct (IH w1 t0) as (w' & out & -> & E & K).
    { destruct Ht as [Ha Hl]. split; rewrite K1; assumption. }
    { intros k Hk. apply Hclock. lia. }
    eexists _, _. split; [reflexivity|]. split; congruence.
Qed.

(** A symbol whose EV is below the floor of the risk check. *)
Lemma execute_symbol_below_floor sym state w w1 r :
  EVEngine.calculate_ev_for_symbol sym state env w = (w1, Return (Some r)) ->
  EV r < -0.05 ->
  executor (fst (ExecutionEngine.execute_symbol sym state env w)) = executor w.
Proof.
  intros Hcalc Hev.
  pose proof (calculate_ev_untouched env sym state w) as (E1 & _).
  rewrite Hcalc in E1. cbn [fst] in E1.
  unfold ExecutionEngine.execute_symbol. unfold bind at 1. rewrite Hcalc.
  mstep_result. unfold bind at 1.
  pose proof (check_risk_untouched env sym (EV r) w1) as (E2 & _).
  destruct (ExecutionEngine._check_risk sym (EV r) env w1)
    as [w2 [[|]|e]] eqn:Hc; cbn [fst] in E2; mstep; try congruence.
  apply check_risk_true in Hc. destruct Hc as [_ Hc]. contradiction.
Qed.

(** A cycle over symbols that have no signal. *)
Lemma execute_cycle_no_signal snapshot w :
  Forall (fun item => signals (signal_engine w) !! fst item = None) snapshot ->
  ExecutionEngine.execute_cycle snapshot env w = (w, Return tt).
Proof.
  induction 1 as [|[sym state] rest Hs _ IH]; [reflexivity|].
  cbn [ExecutionEngine.execute_cycle]. unfold bind at 1.
  unfold ExecutionEngine.execute_symbol. unfold bind at 1.
  rewrite (calculate_ev_no_signal env w sym state Hs). mstep. exact IH.
Qed.

End Skipped.

(** X12. While the breaker is tripped and its 180 minutes have not passed,
    an execution cycle opens no position, closes none and places no order,
    so that open positions are not exited either, and it leaves the risk
    state as it is.  A symbol takes at most two readings of the
    collaborators then. *)
Theorem tripped_breaker_pauses_cycle (env : Env)
  (snapshot : list (string * gmap string Q)) (w : World) (t0 : Z) :
  tripped_at t0 w ->
  (forall k, (readings w <= k < readings w + 2 * length snapshot)%nat ->
             (utcnow_at env k <= t0 + timedelta_minutes 180)%Z) ->
  executor (fst (ExecutionEngine.execute_cycle snapshot env w)) = executor w /\
  risk_manager (fst (ExecutionEngine.execute_cycle snapshot env w))
  = risk_manager w.
Proof.
  intros Ht Hclock.
  destruct (execute_cycle_paused env snapshot w t0 Ht Hclock)
    as (w' & out & -> & E & K).
  split; assumption.
Qed.

Lemma tripped_breaker_pauses_cycle_witness :
  exists t0,
    tripped_at t0 (fst (three_losses (-1) (-1) (-1) example_env held_world)) /\
    is_Some (active_positions
               (executor (fst (three_losses (-1) (-1) (-1) example_env held_world)))
             !! "BTCUSDT") /\
    executor (fst (ExecutionEngine.execute_cycle [("BTCUSDT", example_state)]
                     example_env
                     (fst (three_losses (-1) (-1) (-1) example_env held_world))))
    = executor (fst (three_losses (-1) (-1) (-1) example_env held_world)).
Proof.
  set (w := fst (three_losses (-1) (-1) (-1) example_env held_world)).
  assert (Ha : circuit_breaker_active (risk_manager w) = true)
    by (vm_compute; reflexivity).
  destruct (last_trigger_time (risk_manager w)) as [t0|] eqn:Hl;
    [|vm_compute in Hl; discriminate Hl].
  assert (Hr : readings w = 5%nat) by (vm_compute; reflexivity).
  assert (Hclock : forall k, (readings w <= k < readings w + 2 * 1)%nat ->
             (utcnow_at example_env k <= t0 + timedelta_minutes 180)%Z).
  { intros k Hk. rewrite Hr in Hk. vm_compute in Hl. injection Hl as <-.
    unfold example_env, utcnow_at, timedelta_minutes. lia. }
  exists t0. split; [split; assumption|].
  split; [vm_compute; eexists; reflexivity|].
  pose proof (tripped_breaker_pauses_cycle example_env
                [("BTCUSDT", example_state)] w t0 (conj Ha Hl) Hclock) as [HE _].
  exact HE.
Defined.

(** X13. A symbol whose EV is below -0.05 is skipped by the risk check
    before the exit rules are looked at: the execution engine is left as it
    is, so that a position held in that symbol stays open, with no exit and
    no cooldown. *)
Theorem position_below_floor_is_not_exited (env : Env) (sym : string)
  (state : gmap string Q) (w w1 : World) (r : EVResult) :
  EVEngine.calculate_ev_for_symbol sym state env w = (w1, Return (Some r)) ->
  EV r < -0.05 ->
  executor (fst (ExecutionEngine.execute_symbol sym state env w)) = executor w.
Proof.
  apply execute_symbol_below_floor.
Qed.

Lemma position_below_floor_is_not_exited_witness :
  exists w1 r pos,
    EVEngine.calculate_ev_for_symbol "BTCUSDT" costly_state example_env
      held_world = (w1, Return (Some r)) /\
    EV r < -0.05 /\
    active_positions (executor held_world) !! "BTCUSDT" = Some pos /\
    active_positions
      (executor (fst (ExecutionEngine.execute_symbol "BTCUSDT" costly_state
                        example_env held_world))) !! "BTCUSDT" = Some pos.
Proof.
  eassert (Hcalc : EVEngine.calculate_ev_for_symbol "BTCUSDT" costly_state
                     example_env held_world = (_, Return (Some _)))
    by (vm_compute; reflexivity).
  eassert (Hpos : active_positions (executor held_world) !! "BTCUSDT" = Some _)
    by (vm_compute; reflexivity).
  match type of Hcalc with
  | _ = (?w1, Return (Some ?r)) =>
      assert (Hev : EV r < -0.05) by reflexivity;
      pose proof (position_below_floor_is_not_exited example_env "BTCUSDT"
                    costly_state held_world w1 r Hcalc Hev) as HE;
      exists w1, r
  end.
  eexists. split; [exact Hcalc|]. split; [exact Hev|]. split; [exact Hpos|].
  rewrite HE. exact Hpos.
Defined.

(** X14. A cycle over symbols none of which has a signal does nothing at
    all: it returns, and the process is the one it was, with no reading of
    the clock or of the account, no log record and no history entry. *)
Theorem cycle_without_signals_does_nothing (env : Env)
  (snapshot : list (string * gmap string Q)) (w : World) :
  Forall (fun item => signals (signal_engine w) !! fst item = None) snapshot ->
  ExecutionEngine.execute_cycle snapshot env w = (w, Return tt).
Proof.
  apply execute_cycle_no_signal.
Qed.

Lemma cycle_without_signals_does_nothing_witness :
  Forall (fun item => signals (signal_engine example_world) !! fst item = None)
    [("ETHUSDT", example_state); ("SOLUSDT", zero_depth_state)] /\
  ExecutionEngine.execute_cycle
    [("ETHUSDT", example_state); ("SOLUSDT", zero_depth_state)]
    example_env example_world = (example_world, Return tt).
Proof.
  assert (H : Forall
    (fun item => signals (signal_engine example_world) !! fst item = None)
    [("ETHUSDT", example_state); ("SOLUSDT", zero_depth_state)]).
  { repeat constructor. }
  split; [exact H|].
  exact (cycle_without_signals_does_nothing example_env _ example_world H).
Defined.

(** ** The order and the position of an entry *)

Section EntryDetails.

Variable env : Env.

Lemma calculate_ev_leverage sym state w w' r :
  fair_randint env ->
  EVEngine.calculate_ev_for_symbol sym state env w = (w', Return (Some r)) ->
  (fst (tier_leverage_range (tier r)) <= recommended_leverage r
   < snd (tier_leverage_range (tier r)))%Z.
Proof.
  intros Hfair.
  unfold EVEngine.calculate_ev_for_symbol, SignalEngine.get_signal. mstep.
  destruct (signals (signal_engine w) !! sym) as [sd|]; mstep; [|discriminate].
  destruct (EVEngine._estimate_probability _ _ _ _ _) as [p|e]; mstep;
    [|discriminate].
  destruct (EVEngine._estimate_loss state) as [loss|e]; mstep; [|discriminate].
  unfold bind at 1.
  destruct (recommend_leverage_range env w
    (p * EVEngine._estimate_gain state - (1 - p) * loss
     - EVEngine._estimate_fees state) Hfair) as (lev & -> & Hr & _).
  mstep. destruct (EVEngine._dynamic_kelly _ _ _) as [k|e]; mstep;
    [|discriminate].
  unfold EVEngine._record_history. mstep. intros [= <- <-]. exact Hr.
Qed.

Lemma tier_leverage_below_120 t : (snd (tier_leverage_range t) <= 120)%Z.
Proof.
  destruct t; cbn; lia.
Qed.

Lemma tier_leverage_above_1 t : (1 <= fst (tier_leverage_range t))%Z.
Proof.
  destruct t; cbn; lia.
Qed.

Lemma items_get_absent {V} (l : list (string * V)) key dflt :
  ~ In key (map fst l) -> items_get l key dflt = dflt.
Proof.
  induction l as [|[k v] l IH]; intros H; [reflexivity|].
  cbn [items_get]. destruct (String.eqb_spec k key) as [->|Hne].
  - exfalso. apply H. left. reflexivity.
  - apply IH. intros Hin. apply H. right. exact Hin.
Qed.

Lemma enter_position_details sym r lev size w :
  exists w' pos order,
    ExecutionEngine._enter_position sym r lev size env w = (w', Return tt) /\
    active_positions (executor w')
    = <[sym := pos]> (active_positions (executor w)) /\
    trade_log (executor w') = trade_log (executor w) ++ [order] /\
    cooldowns (executor w') = cooldowns (executor w) /\
    pos = {| entry_time := utcnow_at env (S (S (readings w)));
             entry_price := items_get (components r) "price" 0;
             leverage := lev;
             notional := available_balance_at env (readings w) * size
                         * inject_Z lev;
             ev_entry := EV r;
             direction := if Qgt_bool (p_win r) 0.5 then BUY else SELL;
             open := true |} /\
    order = {| order_symbol := sym;
               side := if Qgt_bool (p_win r) 0.5 then BUY else SELL;
               order_size := available_balance_at env (readings w) * size
                             * inject_Z lev;
               order_leverage := lev;
               timestamp := utcnow_at env (S (readings w)) |}.
Proof.
  unfold ExecutionEngine._enter_position, ExecutionEngine._mock_order.
  mstep_result. eexists _, _, _. split; [reflexivity|].
  cbn. repeat split.
Qed.

Lemma execute_symbol_entry_details sym state w r w1 w2 w3 :
  active_positions (executor w) !! sym = None ->
  EVEngine.calculate_ev_for_symbol sym state env w = (w1, Return (Some r)) ->
  RiskManager.check_circuit_breaker env w1 = (w2, Return false) ->
  ~ EV r < -0.05 ->
  ExecutionEngine._in_cooldown sym env w2 = (w3, Return false) ->
  base_threshold (config w) < EV r ->
  exists w',
    ExecutionEngine.execute_symbol sym state env w = (w', Return tt) /\
    ExecutionEngine._enter_position sym r (recommended_leverage r)
      (kelly_position r) env w3 = (w', Return tt) /\
    executor w3 = executor w.
Proof.
  intros Hflat Hcalc Hbreaker Hfloor Hcd Hthr.
  pose proof (calculate_ev_untouched env sym state w) as (E1 & C1 & _).
  pose proof (check_circuit_breaker_untouched env w1) as (E2 & C2 & _).
  pose proof (in_cooldown_untouched env sym w2) as (E3 & C3 & _).
  rewrite Hcalc in E1, C1. rewrite Hbreaker in E2, C2. rewrite Hcd in E3, C3.
  cbn [fst] in *.
  unfold ExecutionEngine.execute_symbol. unfold bind at 1. rewrite Hcalc.
  mstep_result. unfold bind at 1.
  rewrite (check_risk_passes env sym (EV r) w1 w2 Hbreaker Hfloor). mstep.
  unfold bind at 1. rewrite Hcd. mstep.
  rewrite E3, E2, E1, Hflat. mstep. rewrite C3, C2, C1.
  apply Qgt_bool_true in Hthr. rewrite Hthr. mstep.
  destruct (enter_position_details sym r (recommended_leverage r)
              (kelly_position r) w3) as (w4 & pos & order & E & _).
  exists w4. rewrite E. repeat split; congruence.
Qed.

End EntryDetails.

(** X15. What an entry writes.  When a flat symbol passes the evaluation,
    the risk check and the cooldown check with an EV above the base
    threshold, the cycle adds one order to the trade log and one position
    for the symbol.  The notional is the available balance times the Kelly
    fraction times the recommended leverage, and is also the size of the
    order; the side is BUY exactly when p_win is above 0.5, SELL otherwise;
    the entry price is the component "price" of the signal, hence 0 for a
    signal of the fusion, whose components have no such key. *)
Theorem entry_writes_order_and_position (env : Env) (sym : string)
  (state : gmap string Q) (w w1 w2 w3 : World) (r : EVResult) :
  active_positions (executor w) !! sym = None ->
  EVEngine.calculate_ev_for_symbol sym state env w = (w1, Return (Some r)) ->
  RiskManager.check_circuit_breaker env w1 = (w2, Return false) ->
  ~ EV r < -0.05 ->
  ExecutionEngine._in_cooldown sym env w2 = (w3, Return false) ->
  base_threshold (config w) < EV r ->
  exists w' pos order,
    ExecutionEngine.execute_symbol sym state env w = (w', Return tt) /\
    active_positions (executor w')
    = <[sym := pos]> (active_positions (executor w)) /\
    trade_log (executor w') = trade_log (executor w) ++ [order] /\
    cooldowns (executor w') = cooldowns (executor w) /\
    notional pos
    = available_balance_at env (readings w3) * kelly_position r
      * inject_Z (recommended_leverage r) /\
    order_size order = notional pos /\
    leverage pos = recommended_leverage r /\
    order_leverage order = recommended_leverage r /\
    order_symbol order = sym /\
    side order = direction pos /\
    (direction pos = BUY <-> 0.5 < p_win r) /\
    ev_entry pos = EV r /\ open pos = true /\
    (map fst (components r) = component_names -> entry_price pos = 0).
Proof.
  intros Hflat Hcalc Hbreaker Hfloor Hcd Hthr.
  destruct (execute_symbol_entry_details env sym state w r w1 w2 w3
              Hflat Hcalc Hbreaker Hfloor Hcd Hthr) as (w' & Hrun & Henter & E3).
  destruct (enter_position_details env sym r (recommended_leverage r)
              (kelly_position r) w3)
    as (w4 & pos & order & E & Hp & Hl & Hc & -> & ->).
  rewrite Henter in E. injection E as <-.
  eexists w', _, _. split; [exact Hrun|].
  rewrite <- E3. split; [exact Hp|]. split; [exact Hl|]. split; [exact Hc|].
  cbn [notional order_size leverage order_leverage order_symbol side direction
       ev_entry open entry_price].
  repeat split.
  - destruct (Qgt_bool (p_win r) 0.5) eqn:E; [|discriminate].
    intros _. apply Qgt_bool_true in E. exact E.
  - intros H. apply Qgt_bool_true in H. rewrite H. reflexivity.
  - intros Hkeys. apply items_get_absent. rewrite Hkeys.
    unfold component_names. cbn [In].
    intros H. repeat (destruct H as [H|H]; [discriminate H|]). exact H.
Qed.

Lemma entry_writes_order_and_position_witness :
  exists w' pos order,
    ExecutionEngine.execute_symbol "BTCUSDT" example_state example_env
      example_world = (w', Return tt) /\
    active_positions (executor w') = {["BTCUSDT" := pos]} /\
    trade_log (executor w') = [order] /\
    order_size order = notional pos /\ side order = direction pos.
Proof.
  eassert (Hcalc : EVEngine.calculate_ev_for_symbol "BTCUSDT" example_state
                     example_env example_world = (_, Return (Some _)))
    by (vm_compute; reflexivity).
  match type of Hcalc with
  | _ = (?w1, Return (Some ?r)) =>
      assert (Hbreaker : RiskManager.check_circuit_breaker example_env w1
                         = (w1, Return false)) by reflexivity;
      assert (Hfloor : ~ EV r < -0.05) by (intros H; discriminate H);
      assert (Hcd : ExecutionEngine._in_cooldown "BTCUSDT" example_env w1
                    = (w1, Return false)) by reflexivity;
      assert (Hthr : base_threshold (config example_world) < EV r)
        by reflexivity;
      destruct (entry_writes_order_and_position example_env "BTCUSDT"
                  example_state example_world w1 w1 w1 r eq_refl Hcalc Hbreaker
                  Hfloor Hcd Hthr)
        as (w' & pos & order & H1 & H2 & H3 & _ & _ & H5 & _ & _ & _ & H6 & _)
  end.
  exists w', pos, order. split; [exact H1|]. split; [exact H2|].
  split; [exact H3|]. split; assumption.
Defined.

(** X16. The exposure that a result of the evaluation asks for.  With a
    random source that draws within its range, the recommended leverage of
    a result lies in the range of its tier, and the Kelly fraction times
    the leverage, the multiple of the balance that an entry turns into
    notional, is at most a quarter of the top leverage of the tier: never
    above 29.75. *)
Theorem exposure_multiple_is_bounded (env : Env) (sym : string)
  (state : gmap string Q) (w w' : World) (r : EVResult) :
  fair_randint env ->
  EVEngine.calculate_ev_for_symbol sym state env w = (w', Return (Some r)) ->
  (fst (tier_leverage_range (tier r)) <= recommended_leverage r
   < snd (tier_leverage_range (tier r)))%Z /\
  0 <= kelly_position r * inject_Z (recommended_leverage r)
    <= 0.25 * inject_Z (snd (tier_leverage_range (tier r)) - 1) /\
  kelly_position r * inject_Z (recommended_leverage r) <= 29.75.
Proof.
  intros Hfair Hcalc.
  pose proof (calculate_ev_leverage env sym state w w' r Hfair Hcalc) as Hlev.
  destruct (calculate_ev_inv env w sym state w' r Hcalc)
    as (sd & _ & _ & _ & Hk & _).
  pose proof (dynamic_kelly_bounds _ _ _ _ Hk) as Bk.
  pose proof (tier_leverage_below_120 (tier r)) as Hhi.
  pose proof (tier_leverage_above_1 (tier r)) as Hlo.
  split; [exact Hlev|].
  set (lev := recommended_leverage r) in *.
  set (hi := snd (tier_leverage_range (tier r))) in *.
  assert (H1 : 1 <= inject_Z lev).
  { change 1 with (inject_Z 1). rewrite <- Zle_Qle. lia. }
  assert (H2 : inject_Z lev <= inject_Z (hi - 1)).
  { rewrite <- Zle_Qle. lia. }
  assert (H3 : inject_Z (hi - 1) <= 119).
  { change 119 with (inject_Z 119). rewrite <- Zle_Qle. lia. }
  split; [split|]; nra.
Qed.

Lemma exposure_multiple_is_bounded_witness :
  fair_randint example_env /\
  exists w' r,
    EVEngine.calculate_ev_for_symbol "BTCUSDT" example_state example_env
      example_world = (w', Return (Some r)) /\
    kelly_position r * inject_Z (recommended_leverage r) <= 29.75.
Proof.
  split; [exact example_env_fair|].
  eassert (Hcalc : EVEngine.calculate_ev_for_symbol "BTCUSDT" example_state
                     example_env example_world = (_, Return (Some _)))
    by (vm_compute; reflexivity).
  match type of Hcalc with
  | _ = (?w1, Return (Some ?r)) =>
      destruct (exposure_multiple_is_bounded example_env "BTCUSDT"
                  example_state example_world w1 r example_env_fair Hcalc)
        as (_ & _ & H);
      exists w1, r
  end.
  split; [exact Hcalc | exact H].
Defined.

(** ** One turn of the signal engine *)

Section Turn.

Variable env : Env.

Lemma fusion_missing_weight weights feat key :
  In key mandatory_weights -> weights !! key = None ->
  exists missing,
    SignalEngine._fusion weights feat = Raise (KeyError missing) /\
    In missing mandatory_weights /\ weights !! missing = None.
Proof.
  intros Hin Hkey. unfold SignalEngine._fusion, getitem.
  repeat match goal with
  | |- context [weights !! ?k] =>
      lazymatch goal with
      | H : weights !! k = Some _ |- _ => fail
      | _ =>
          let E := fresh "E" in
          destruct (weights !! k) eqn:E; cbn [obind];
          [| exists k; split; [reflexivity|];
             split; [unfold mandatory_weights; cbn [In]; tauto | exact E]]
      end
  end.
  exfalso. unfold mandatory_weights in Hin. cbn [In] in Hin.
  repeat (destruct Hin as [<-|Hin]; [congruence|]). exact Hin.
Qed.

Lemma compute_signals_from_returns features : forall sg w,
  configured (weights_of w) ->
  exists w' sg',
    SignalEngine._compute_signals_from features sg env w = (w', Return sg') /\
    (forall sym, is_Some (sg' !! sym)
                 <-> is_Some (sg !! sym) \/ In sym (map fst features)) /\
    ((forall sym s, sg !! sym = Some s -> well_formed s) ->
     forall sym s, sg' !! sym = Some s -> well_formed s) /\
    signal_engine_only w w' /\
    signals (signal_engine w') = signals (signal_engine w) /\
    weights (signal_engine w') = weights (signal_engine w) /\
    readings w' = (readings w + length features)%nat.
Proof.
  induction features as [|[sym feat] rest IH]; intros sg w Hw.
  - exists w, sg. cbn. split; [reflexivity|]. split; [tauto|].
    split; [auto|]. split; [repeat split|]. split; [reflexivity|].
    split; [reflexivity | lia].
  - cbn [SignalEngine._compute_signals_from]. mstep.
    destruct (fusion_returns (weights_of w) Hw feat) as (bd & -> & Hkeys & _).
    mstep.
    destruct (SignalEngine._ev_classify (np_exp env) (threshold_of w)
                (py_sum (values bd)) feat) as [ev tr] eqn:Hc.
    pose proof (classifiers_agree (np_exp env) (threshold_of w)
                  (py_sum (values bd)) feat) as Hagree.
    rewrite Hc in Hagree. cbn [fst snd] in Hagree.
    mstep.
    match goal with
    | |- context [SignalEngine._compute_signals_from rest ?sg1 env ?w1] =>
        destruct (IH sg1 w1 Hw)
          as (w' & sg' & -> & Hdom & Hwf & Honly & Hsig & Hwt & Hr)
    end.
    exists w', sg'. split; [reflexivity|].
    split; [|split; [|split; [|split; [|split]]]].
    + intros s. rewrite Hdom. cbn [map fst In].
      destruct (decide (sym = s)) as [->|Hne].
      * rewrite lookup_insert_eq. split; [intros _; right; left; reflexivity|].
        intros _. left. eexists; reflexivity.
      * rewrite lookup_insert_ne by exact Hne. tauto.
    + intros Hsg. apply Hwf. intros s0 sd.
      destruct (decide (sym = s0)) as [->|Hne].
      * rewrite lookup_insert_eq. intros [= <-].
        split; [exact Hkeys|]. split; [reflexivity | exact Hagree].
      * rewrite lookup_insert_ne by exact Hne. apply Hsg.
    + exact Honly.
    + rewrite Hsig. reflexivity.
    + rewrite Hwt. reflexivity.
    + rewrite Hr. cbn. lia.
Qed.

Lemma run_turn_returns features w :
  exists w', SignalEngine.run_turn features env w = (w', Return tt).
Proof.
  unfold SignalEngine.run_turn, try_except, bind.
  destruct (SignalEngine._compute_signals features env w) as [w1 [sg|e]];
    eexists; reflexivity.
Qed.

End Turn.

(** X17. One turn of the signal engine with the mandatory weights
    configured returns, and the signals it publishes are those of the
    features of this turn and no other: a symbol that is not in the
    features loses its signal.  Each published signal has the nine
    components in the order of the fusion and their sum as score, and
    carries the tier that the EV engine gives its EV estimate.  Nothing but
    the signal engine changes, and the clock is read once per symbol. *)
Theorem turn_publishes_signals_of_features (env : Env) (w : World)
  (features : list (string * gmap string Q)) :
  configured (weights (signal_engine w)) ->
  exists w',
    SignalEngine.run_turn features env w = (w', Return tt) /\
    (forall sym, is_Some (signals (signal_engine w') !! sym)
                 <-> In sym (map fst features)) /\
    (forall sym s, signals (signal_engine w') !! sym = Some s -> well_formed s) /\
    signal_engine_only w w' /\
    readings w' = (readings w + length features)%nat.
Proof.
  intros Hw. unfold SignalEngine.run_turn, SignalEngine._compute_signals.
  destruct (compute_signals_from_returns env features ∅ w Hw)
    as (w1 & sg & E & Hdom & Hwf & Honly & _ & _ & Hr).
  unfold try_except, bind. rewrite E. cbn [modify].
  eexists. split; [reflexivity|].
  cbn [set_signal_engine signal_engine SignalEngine.set_signals signals readings].
  split; [|split; [|split]].
  - intros sym. rewrite Hdom. rewrite lookup_empty.
    split; [intros [[x Hx]|H]; [discriminate Hx | exact H] | auto].
  - apply Hwf. intros sym s H. rewrite lookup_empty in H. discriminate H.
  - exact Honly.
  - exact Hr.
Qed.

Lemma turn_publishes_signals_of_features_witness :
  configured (weights (signal_engine example_world)) /\
  exists w',
    SignalEngine.run_turn [("ETHUSDT", ∅)] example_env example_world
    = (w', Return tt) /\
    is_Some (signals (signal_engine w') !! "ETHUSDT") /\
    signals (signal_engine w') !! "BTCUSDT" = None.
Proof.
  split; [exact example_weights_configured|].
  destruct (turn_publishes_signals_of_features example_env example_world
              [("ETHUSDT", ∅)] example_weights_configured)
    as (w' & E & Hdom & _).
  exists w'. split; [exact E|]. split.
  - apply Hdom. left. reflexivity.
  - destruct (signals (signal_engine w') !! "BTCUSDT") eqn:Hb; [|reflexivity].
    assert (H : In "BTCUSDT" (map fst [("ETHUSDT", (∅ : gmap string Q))])).
    { apply Hdom. rewrite Hb. eexists; reflexivity. }
    destruct H as [H|[]]. discriminate H.
Defined.

(** X18. A turn of the signal engine never raises.  When a mandatory
    weight is missing from the configuration and there is a symbol to
    fuse, the turn only logs the KeyError of a missing weight: the signals
    of the turn before stay in place, and nothing is added to the signal
    history. *)
Theorem turn_with_missing_weight_keeps_signals (env : Env) (w : World)
  (features : list (string * gmap string Q)) (key : string) :
  In key mandatory_weights ->
  weights (signal_engine w) !! key = None ->
  features <> [] ->
  (forall w0 features0,
     exists w', SignalEngine.run_turn features0 env w0 = (w', Return tt)) /\
  exists missing,
    SignalEngine.run_turn features env w
    = (add_log (LogSignalFailure (KeyError missing)) w, Return tt) /\
    In missing mandatory_weights /\
    weights (signal_engine w) !! missing = None.
Proof.
  intros Hin Hkey Hne. split; [intros w0 f0; apply run_turn_returns|].
  destruct features as [|[sym feat] rest]; [contradiction|].
  destruct (fusion_missing_weight (weights (signal_engine w)) feat key Hin Hkey)
    as (missing & E & Hm & Hk).
  exists missing. split; [|split; assumption].
  unfold SignalEngine.run_turn, SignalEngine._compute_signals.
  cbn [SignalEngine._compute_signals_from].
  unfold try_except, bind. cbn [gets weights_of lift]. unfold weights_of.
  rewrite E. reflexivity.
Qed.

Lemma turn_with_missing_weight_keeps_signals_witness :
  exists w' missing,
    SignalEngine.run_turn [("ETHUSDT", ∅)] example_env
      (set_signal_engine
         (fun s => {| signals := signals s; signal_history := signal_history s;
                      weights := delete "momentum" (weights s);
                      activation_threshold := activation_threshold s |})
         example_world) = (w', Return tt) /\
    signals (signal_engine w') = signals (signal_engine example_world) /\
    log w' = [LogSignalFailure (KeyError missing)].
Proof.
  assert (Hin : In "momentum" mandatory_weights)
    by (unfold mandatory_weights; cbn [In]; tauto).
  assert (Hne : [("ETHUSDT", (∅ : gmap string Q))] <> []) by discriminate.
  assert (Hkey : weights (signal_engine
            (set_signal_engine
               (fun s => {| signals := signals s;
                            signal_history := signal_history s;
                            weights := delete "momentum" (weights s);
                            activation_threshold := activation_threshold s |})
               example_world)) !! "momentum" = None)
    by (vm_compute; reflexivity).
  destruct (turn_with_missing_weight_keeps_signals example_env
              (set_signal_engine
                 (fun s => {| signals := signals s;
                              signal_history := signal_history s;
                              weights := delete "momentum" (weights s);
                              activation_threshold := activation_threshold s |})
                 example_world)
              [("ETHUSDT", ∅)] "momentum" Hin Hkey Hne)
    as (_ & missing & E & _).
  eexists _, missing. split; [exact E|]. split; reflexivity.
Defined.

(** ** The exit rules *)

Section ExitRules.

Variables (env : Env) (sym : string) (pos : Position) (w0 : World).

Lemma exit_position_run_open w reason p :
  active_positions (executor w) !! sym = Some p ->
  ExecutionEngine._exit_position sym reason env w
  = (set_executor
       (ExecutionEngine.set_cooldowns
          <[sym := (utcnow_at env (readings w) + timedelta_minutes 5)%Z]>)
       (tick (add_log (LogExit sym reason)
                (set_executor
                   (ExecutionEngine.set_active_positions (delete sym)) w))),
     Return tt).
Proof.
  intros H. unfold ExecutionEngine._exit_position. mstep. rewrite H. reflexivity.
Qed.

Lemma exit_position_run_flat w reason :
  active_positions (executor w) !! sym = None ->
  ExecutionEngine._exit_position sym reason env w
  = (set_executor (ExecutionEngine.set_active_positions (delete sym)) w,
     Return tt).
Proof.
  intros H. unfold ExecutionEngine._exit_position. mstep. rewrite H. reflexivity.
Qed.

Lemma still_held_tick w :
  still_held sym pos w0 w -> still_held sym pos w0 (tick w).
Proof.
  intros H. exact H.
Qed.

Lemma exited_once_tick reason w :
  exited_once env sym reason w0 w -> exited_once env sym reason w0 (tick w).
Proof.
  intros (H1 & k & Hk & H2). split; [exact H1|].
  exists k. split; [cbn; lia | exact H2].
Qed.

(** One rule: it closes a position that is still held when its condition
    holds, and does nothing to a position that is gone. *)
Lemma exit_rule (b : bool) reason w :
  (readings w0 <= readings w)%nat ->
  exists w',
    when b (ExecutionEngine._exit_position sym reason) env w = (w', Return tt) /\
    (readings w <= readings w')%nat /\
    (still_held sym pos w0 w ->
     if b then exited_once env sym reason w0 w' else still_held sym pos w0 w') /\
    (forall reason0,
       exited_once env sym reason0 w0 w -> exited_once env sym reason0 w0 w').
Proof.
  intros Hr. destruct b; cbn [when].
  2: { exists w. split; [reflexivity|]. split; [lia|]. split; auto. }
  destruct (active_positions (executor w) !! sym) as [p|] eqn:Hp.
  - rewrite (exit_position_run_open w reason p Hp).
    eexists. split; [reflexivity|]. split; [cbn; lia|]. split.
    + intros (_ & He & Hlog). split.
      * cbn. rewrite Hlog. reflexivity.
      * exists (readings w). split; [cbn; lia|]. cbn. rewrite He. reflexivity.
    + intros reason0 (_ & k & _ & H2). rewrite H2 in Hp. cbn in Hp.
      rewrite lookup_delete_eq in Hp. discriminate Hp.
  - rewrite (exit_position_run_flat w reason Hp).
    eexists. split; [reflexivity|]. split; [cbn; lia|]. split.
    + intros (H & _). congruence.
    + intros reason0 (H1 & k & Hk & H2). split; [exact H1|].
      exists k. split; [exact Hk|]. cbn. rewrite H2. cbn.
      unfold ExecutionEngine.set_cooldowns, ExecutionEngine.set_active_positions.
      cbn. f_equal. apply delete_id, lookup_delete_eq.
Qed.

End ExitRules.

Section MaybeExit.

Variables (env : Env) (sym : string).

(** The four rules one after the other. *)
Lemma maybe_exit_rules r w pos :
  active_positions (executor w) !! sym = Some pos ->
  let held := (utcnow_at env (readings w) - entry_time pos)%Z in
  let invalid := Qlt_bool (EV r) 0 || Qlt_bool (p_win r) 0.5 in
  let decayed := Qlt_bool (EV r) (0.5 * ev_entry pos) in
  exists w',
    ExecutionEngine._maybe_exit sym r env w = (w', Return tt) /\
    (still_held sym pos w w' \/
     exists reason, In reason exit_reasons /\ exited_once env sym reason w w') /\
    (invalid = true -> exited_once env sym "Signal invalid" w w') /\
    (invalid = false -> (held > timedelta_hours 24)%Z ->
     exited_once env sym "Time exceeded" w w') /\
    (invalid = false -> (held <= timedelta_minutes 15)%Z -> decayed = true ->
     exited_once env sym "EV decayed" w w') /\
    (invalid = false -> (held <= timedelta_minutes 15)%Z -> decayed = false ->
     still_held sym pos w w').
Proof.
  intros Hpos held invalid decayed.
  unfold ExecutionEngine._maybe_exit, ExecutionEngine._position_profitable,
    getitem.
  mstep. rewrite Hpos. mstep_result. fold held. fold decayed.
  assert (H0 : still_held sym pos w (tick w)) by (repeat split; assumption).
  assert (Hinv :
    (if Qlt_bool (EV r) 0 then ret true
     else bind (lift (Return (p_win r)))
            (fun p => ret (Qlt_bool p 0.5))) env (tick w)
    = (tick w, Return invalid)).
  { unfold invalid. destruct (Qlt_bool (EV r) 0); mstep_result; reflexivity. }
  unfold bind at 1. rewrite Hinv. clear Hinv.
  (* rule 1 *)
  unfold bind at 1.
  destruct (exit_rule env sym pos w invalid "Signal invalid" (tick w))
    as (w1 & -> & R1 & S1 & X1); [cbn; lia|].
  specialize (S1 H0).
  (* rule 2 *)
  unfold bind at 1.
  destruct (exit_rule env sym pos w (held >? timedelta_hours 24)%Z
              "Time exceeded" w1) as (w2 & -> & R2 & S2 & X2);
    [cbn in R1; lia|].
  (* rule 3 *)
  unfold bind at 1.
  assert (Hstale : exists w2' stale,
    (if (held >? timedelta_minutes 15)%Z
     then bind random_choice (fun profitable => ret (negb profitable))
     else ret false) env w2 = (w2', Return stale) /\
    (readings w2 <= readings w2')%nat /\
    (still_held sym pos w w2 -> still_held sym pos w w2') /\
    (forall reason0, exited_once env sym reason0 w w2 ->
                     exited_once env sym reason0 w w2') /\
    ((held <= timedelta_minutes 15)%Z -> stale = false)).
  { destruct (Z.gtb_spec held (timedelta_minutes 15)) as [Hgt|Hle]; mstep.
    - eexists _, _. split; [reflexivity|]. split; [cbn; lia|].
      split; [apply still_held_tick|].
      split; [intros reason0; apply exited_once_tick | lia].
    - eexists _, _. split; [reflexivity|]. split; [lia|]. auto. }
  destruct Hstale as (w2' & stale & -> & R2' & S2' & X2' & Hquiet).
  unfold bind at 1.
  destruct (exit_rule env sym pos w stale "No profit after 15m" w2')
    as (w3 & -> & R3 & S3 & X3); [cbn in R1; lia|].
  (* rule 4 *)
  destruct (exit_rule env sym pos w decayed "EV decayed" w3)
    as (w4 & -> & R4 & S4 & X4); [cbn in R1; lia|].
  exists w4. split; [reflexivity|].
  unfold exit_reasons. cbn [In].
  destruct invalid.
  { assert (E : exited_once env sym "Signal invalid" w w4) by auto 10.
    split; [right; eexists; split; [|exact E]; tauto|].
    split; [auto|]. repeat split; discriminate. }
  destruct (Z.gtb_spec held (timedelta_hours 24)) as [H24|H24].
  { specialize (S2 S1). cbn in S2.
    assert (E : exited_once env sym "Time exceeded" w w4) by auto 10.
    split; [right; eexists; split; [|exact E]; tauto|].
    split; [discriminate|]. split; [auto|].
    unfold timedelta_hours, timedelta_minutes in *.
    split; intros; lia. }
  specialize (S2 S1). cbn in S2. specialize (S2' S2). specialize (S3 S2').
  split; [|split; [discriminate|]; split; [intros; lia|]].
  - destruct stale.
    + assert (E : exited_once env sym "No profit after 15m" w w4) by auto.
      right. eexists. split; [|exact E]. tauto.
    + specialize (S4 S3). destruct decayed.
      * right. eexists. split; [|exact S4]. tauto.
      * left. exact S4.
  - split; intros _ H15 Hd; rewrite (Hquiet H15) in S3; specialize (S4 S3);
      rewrite Hd in S4; exact S4.
Qed.

End MaybeExit.

(** X19. The exit rules on a held position.  [_maybe_exit] returns, and
    whatever the number of rules that fire it closes the position at most
    once: either the position, the execution engine and the log are as
    they were, or the position is gone, the log has one exit record more,
    with the reason of the first rule that fired, and the symbol cools down
    for five minutes from a reading of the clock made during the call.  An
    EV below zero or a p_win below 0.5 exits as "Signal invalid"; failing
    that, more than 24 hours held exit as "Time exceeded"; within the first
    15 minutes the only other rule is the decay of the EV below half its
    value at entry, and a position that none of these concerns is kept. *)
Theorem exit_rules_close_at_most_once (env : Env) (sym : string)
  (r : EVResult) (w : World) (pos : Position) :
  active_positions (executor w) !! sym = Some pos ->
  let held := (utcnow_at env (readings w) - entry_time pos)%Z in
  let invalid := Qlt_bool (EV r) 0 || Qlt_bool (p_win r) 0.5 in
  let decayed := Qlt_bool (EV r) (0.5 * ev_entry pos) in
  exists w',
    ExecutionEngine._maybe_exit sym r env w = (w', Return tt) /\
    (still_held sym pos w w' \/
     exists reason, In reason exit_reasons /\ exited_once env sym reason w w') /\
    (invalid = true -> exited_once env sym "Signal invalid" w w') /\
    (invalid = false -> (held > timedelta_hours 24)%Z ->
     exited_once env sym "Time exceeded" w w') /\
    (invalid = false -> (held <= timedelta_minutes 15)%Z -> decayed = true ->
     exited_once env sym "EV decayed" w w') /\
    (invalid = false -> (held <= timedelta_minutes 15)%Z -> decayed = false ->
     still_held sym pos w w').
Proof.
  apply maybe_exit_rules.
Qed.

Lemma exit_rules_close_at_most_once_witness :
  exists pos r w',
    active_positions (executor held_world) !! "BTCUSDT" = Some pos /\
    ExecutionEngine._maybe_exit "BTCUSDT" r example_env held_world
    = (w', Return tt) /\
    exited_once example_env "BTCUSDT" "Signal invalid" held_world w'.
Proof.
  destruct (active_positions (executor held_world) !! "BTCUSDT")
    as [pos|] eqn:E; [|vm_compute in E; discriminate E].
  pose (r := {| symbol := "BTCUSDT"; p_win := 0.4; G := 1; L := 1; EV := -0.01;
                tier := T5_scalping; kelly_position := 0;
                recommended_leverage := 5; components := [] |}).
  destruct (exit_rules_close_at_most_once example_env "BTCUSDT" r held_world
              pos E) as (w' & H1 & _ & H2 & _).
  exists pos, r, w'. split; [reflexivity|]. split; [exact H1|].
  apply H2. reflexivity.
Defined.

(** ** Features *)

Section Features.

Lemma deque_append_same_length {A B} maxlen (d1 : list A) (d2 : list B) x y :
  length d1 = length d2 ->
  length (SignalEngine.deque_append maxlen d1 x)
  = length (SignalEngine.deque_append maxlen d2 y).
Proof.
  intros H. unfold SignalEngine.deque_append.
  rewrite !length_app, H. cbn [length].
  destruct (maxlen <? length d2 + 1)%nat.
  - destruct d1, d2; try discriminate; cbn [app tl length] in *;
      [reflexivity|]. rewrite !length_app. cbn. lia.
  - rewrite !length_app. cbn. lia.
Qed.

Lemma update_price_velocity_aligned sym price qty now self :
  caches_aligned self ->
  caches_aligned
    (DataIngestionManager._update_price_velocity sym price qty now self).
Proof.
  intros H s. specialize (H s) as Hs. specialize (H sym).
  unfold DataIngestionManager._update_price_velocity.
  cbn [price_cache volume_cache].
  destruct (decide (sym = s)) as [<-|Hne].
  - rewrite !lookup_insert_eq. cbn. f_equal.
    apply deque_append_same_length. unfold dict_get.
    destruct (price_cache self !! sym) as [ps|] eqn:Ep,
             (volume_cache self !! sym) as [vs|] eqn:Ev;
      try discriminate H; rewrite ?Ep, ?Ev, ?lookup_insert_eq; cbn;
      [injection H as H; exact H | reflexivity].
  - rewrite !lookup_insert_ne by exact Hne.
    destruct (price_cache self !! sym), (volume_cache self !! sym);
      rewrite ?lookup_insert_ne by exact Hne; exact Hs.
Qed.

Lemma cache_trades_aligned sym trades : forall self,
  caches_aligned self -> caches_aligned (cache_trades sym trades self).
Proof.
  induction trades as [|[[price qty] now] rest IH]; intros self H; [exact H|].
  cbn [cache_trades]. apply IH, update_price_velocity_aligned, H.
Qed.

Lemma py_max2_floor a b : 0 < b -> 0 < py_max2 a b.
Proof.
  intros H. unfold py_max2. qcase; lra.
Qed.

Lemma setitem_In {V} (d : list (string * V)) key v k x :
  In (k, x) (setitem d key v) -> (k = key /\ x = v) \/ In (k, x) d.
Proof.
  induction d as [|[k' v'] d IH]; cbn [setitem].
  - intros [[= <- <-]|[]]. left. split; reflexivity.
  - destruct (String.eqb_spec k' key) as [->|Hne]; cbn [In].
    + intros [[= <- <-]|Hin]; [left; split; reflexivity | right; right; exact Hin].
    + intros [Heq|Hin]; [right; left; exact Heq|].
      destruct (IH Hin) as [Hl|Hr]; [left; exact Hl | right; right; exact Hr].
Qed.

End Features.

Section RoundedFeatures.

Variables (u : Q) (round : Q -> Q).
Hypothesis Hround : accurate u round.
Hypothesis Hu : u <= 1 # 100.

(** The volume acceleration is the number of cached trades, up to the
    rounding of the two quotients. *)
Lemma volume_acceleration_value (v_total : Q) (n : nat) :
  (0 < n)%nat ->
  exists quotient accel,
    py_truediv v_total (inject_Z (Z.of_nat (Nat.max n 1))) = Return quotient /\
    (if Qgt_bool (round quotient) 0
     then let? quotient := py_truediv v_total (round quotient) in
          Return (round quotient)
     else Return 0) = Return accel /\
    (0 < v_total ->
     inject_Z (Z.of_nat n) * (1 - u) <= accel * (1 + u) /\
     accel * (1 - u) <= inject_Z (Z.of_nat n) * (1 + u)) /\
    (v_total <= 0 -> accel = 0).
Proof.
  intros Hn. rewrite Nat.max_l by lia.
  pose proof (accurate_error_nonneg u round Hround) as Hu0.
  assert (Hq : 0 < inject_Z (Z.of_nat n)).
  { unfold Qlt. cbn [Qnum Qden inject_Z]. lia. }
  rewrite py_truediv_Return by lra.
  set (c := inject_Z (Z.of_nat n)) in *. clearbody c.
  assert (Havg : v_total / c * c == v_total) by (field; lra).
  set (q := v_total / c) in *.
  destruct (Qlt_le_dec 0 v_total) as [Hpos|Hneg].
  - assert (Hq0 : 0 < q).
    { apply Qnot_le_lt. intros Hc.
      assert (q * c <= 0 * c) by (apply Qmult_le_compat_r; lra). lra. }
    destruct (accurate_nonneg u round Hround q ltac:(lra)) as [Hv1 Hv2].
    assert (Hv0 : 0 < round q) by nra.
    set (v := round q) in *.
    assert (E0 : Qgt_bool v 0 = true) by (apply Qgt_bool_true; exact Hv0).
    exists q. eexists. split; [reflexivity|]. fold v. rewrite E0.
    rewrite py_truediv_Return by lra. cbn [obind].
    split; [reflexivity|]. split; [|intros H; exfalso; lra].
    intros _.
    assert (Hq2 : v_total / v * v == v_total) by (field; lra).
    set (q2 := v_total / v) in *.
    assert (Hq20 : 0 < q2).
    { apply Qnot_le_lt. intros Hc.
      assert (q2 * v <= 0 * v) by (apply Qmult_le_compat_r; lra). lra. }
    destruct (accurate_nonneg u round Hround q2 ltac:(lra)) as [Ha1 Ha2].
    set (a := round q2) in *. clearbody a v.
    assert (Hqc : q2 * v == q * c) by lra.
    assert (H1 : c <= q2 * (1 + u)).
    { apply Qnot_lt_le. intros Hc.
      assert (q2 * (1 + u) * q < c * q) by (apply Qmult_lt_compat_r; lra).
      assert (q2 * v <= q2 * (q * (1 + u))) by (apply Qmult_le_l; lra).
      lra. }
    assert (H2 : q2 * (1 - u) <= c).
    { apply Qnot_lt_le. intros Hc.
      assert (c * q < q2 * (1 - u) * q) by (apply Qmult_lt_compat_r; lra).
      assert (q2 * (q * (1 - u)) <= q2 * v) by (apply Qmult_le_l; lra).
      lra. }
    split; nra.
  - assert (Hq0 : q <= 0).
    { apply Qnot_lt_le. intros Hc.
      assert (0 * c < q * c) by (apply Qmult_lt_compat_r; lra). lra. }
    destruct (accurate_nonpos u round Hround q Hq0) as [_ Hv].
    assert (Hv0 : round q <= 0) by nra.
    assert (E0 : Qgt_bool (round q) 0 = false)
      by (apply Qgt_bool_false; exact Hv0).
    exists q. eexists. split; [reflexivity|]. rewrite E0.
    split; [reflexivity|]. split; [intros H; exfalso; lra | reflexivity].
Qed.

(** What the loop body gives for a symbol with aligned caches. *)
Lemma features_of_symbol_aligned self sym :
  caches_aligned self ->
  exists feat,
    DataIngestionManager.features_of_symbol round self sym = Return feat /\
    forall f, feat = Some f ->
      exists prices volumes accel,
        price_cache self !! sym = Some prices /\
        volume_cache self !! sym = Some volumes /\
        (5 <= length prices)%nat /\ length volumes = length prices /\
        f !! "volume_acceleration" = Some accel /\
        (0 < float_sum round (map snd volumes) ->
         inject_Z (Z.of_nat (length volumes)) * (1 - u) <= accel * (1 + u) /\
         accel * (1 - u) <= inject_Z (Z.of_nat (length volumes)) * (1 + u)) /\
        (float_sum round (map snd volumes) <= 0 -> accel = 0).
Proof.
  intros H. specialize (H sym).
  unfold DataIngestionManager.features_of_symbol.
  destruct (price_cache self !! sym) as [prices|] eqn:Ep;
    [|eexists; split; [reflexivity | discriminate]].
  destruct (Nat.ltb_spec (length prices) 5) as [Hlt|Hge];
    [eexists; split; [reflexivity | discriminate]|].
  destruct (hd (0, 0) prices) as [t0 p0].
  destruct (List.last prices (0, 0)) as [t1 p1].
  rewrite py_truediv_Return.
  2: { assert (Hf : 0 < round (1 # 1000000000))
         by (apply (accurate_positive u round Hround); lra).
       pose proof (py_max2_floor (round (t1 - t0)) _ Hf). lra. }
  cbn [obind].
  destruct (volume_cache self !! sym) as [volumes|] eqn:Ev; [|discriminate H].
  cbn in H. injection H as H.
  unfold getitem. rewrite Ev. cbn [obind].
  destruct (volume_acceleration_value (float_sum round (map snd volumes))
              (length volumes)) as (v_avg & accel & E1 & E2 & Hpos & Hzero);
    [lia|].
  rewrite E1. cbn [obind]. rewrite E2. cbn [obind].
  rewrite py_truediv_Return by discriminate. cbn [obind].
  eexists. split; [reflexivity|]. intros f [= <-].
  exists prices, volumes, accel.
  split; [reflexivity|]. split; [reflexivity|]. split; [lia|].
  split; [symmetry; exact H|]. split; [reflexivity|]. split; assumption.
Qed.

Lemma compute_features_from_aligned self (P : string -> gmap string Q -> Prop) :
  caches_aligned self ->
  (forall sym f,
     DataIngestionManager.features_of_symbol round self sym = Return (Some f) ->
     P sym f) ->
  forall todo features,
    (forall sym f, In (sym, f) features -> P sym f) ->
    exists result,
      DataIngestionManager._compute_features_from round self todo features
      = Return result /\
      forall sym f, In (sym, f) result -> P sym f.
Proof.
  intros Ha HP. induction todo as [|sym rest IH]; intros features Hf.
  - exists features. split; [reflexivity | exact Hf].
  - cbn [DataIngestionManager._compute_features_from].
    destruct (features_of_symbol_aligned self sym Ha) as ([f|] & E & _);
      rewrite E; cbn [obind]; [|apply IH, Hf].
    apply IH. intros s f' Hin.
    destruct (setitem_In _ _ _ _ _ Hin) as [[-> ->]|Hold];
      [apply HP, E | apply Hf, Hold].
Qed.

End RoundedFeatures.

(** The momentum that the fusion derives from the volume acceleration. *)
Lemma fusion_momentum (weights feat : gmap string Q) :
  configured weights ->
  exists breakdown total,
    SignalEngine._fusion weights feat = Return (breakdown, total) /\
    items_get breakdown "momentum" 0
    == py_min (dict_get feat "volume_acceleration" 0 / 5) 1
       * dict_get weights "momentum" 0.
Proof.
  intros Hw. unfold configured, mandatory_weights in Hw.
  rewrite !Forall_cons in Hw.
  destruct Hw as ([w1 H1] & [w2 H2] & [w3 H3] & [w4 H4] & [w5 H5] & [w6 H6]
                  & [w7 H7] & _).
  unfold SignalEngine._fusion, getitem.
  rewrite H1, H2, H3, H4, H5, H6, H7. cbn [obind].
  eexists _, _. split; [reflexivity|].
  cbn [setitem items_get String.eqb Ascii.eqb Bool.eqb andb].
  replace (dict_get weights "momentum" 0) with w2
    by (unfold dict_get; rewrite H2; reflexivity).
  reflexivity.
Qed.

(** X20. The features of the ingestion manager, in a float arithmetic that
    is accurate to one part in a hundred or better.  With the price cache
    and the volume cache aligned, [_compute_features] returns, and it has
    features only for symbols with at least five cached trades.  For each
    of them the volume acceleration, the total volume over the mean
    volume, is the number [n] of cached trades up to the rounding of the
    two quotients (between [n (1 - u) / (1 + u)] and [n (1 + u) / (1 - u)])
    whenever the total volume that the floats compute is positive, as it is
    when every cached quantity is, and 0 otherwise.  So the momentum that
    [_fusion] derives from it, [min(volume_acceleration / 5, 1)] times the
    weight, is the whole weight for every symbol with six or more cached
    trades of a positive total volume, within the rounding of it for five,
    and zero for a total volume that is not positive. *)
Theorem volume_acceleration_counts_trades (u : Q) (round : Q -> Q)
  (self : DataIngestionState) :
  accurate u round -> u <= 1 # 100 -> caches_aligned self ->
  exists features,
    DataIngestionManager._compute_features round self = Return features /\
    forall sym feat, In (sym, feat) features ->
      exists prices volumes accel,
        price_cache self !! sym = Some prices /\
        volume_cache self !! sym = Some volumes /\
        (5 <= length prices)%nat /\ length volumes = length prices /\
        feat !! "volume_acceleration" = Some accel /\
        let v_total := float_sum round (map snd volumes) in
        let n := inject_Z (Z.of_nat (length volumes)) in
        (Forall (fun trade => 0 < snd trade) volumes -> 0 < v_total) /\
        (0 < v_total ->
         n * (1 - u) <= accel * (1 + u) /\ accel * (1 - u) <= n * (1 + u)) /\
        (v_total <= 0 -> accel = 0) /\
        forall weights, configured weights ->
          exists breakdown total momentum,
            SignalEngine._fusion weights feat = Return (breakdown, total) /\
            items_get breakdown "momentum" 0
            == momentum * dict_get weights "momentum" 0 /\
            (0 < v_total ->
             momentum <= 1 /\ 1 - u <= momentum * (1 + u) /\
             ((6 <= length volumes)%nat -> momentum == 1)) /\
            (v_total <= 0 -> momentum == 0).
Proof.
  intros Hr Hu Ha. unfold DataIngestionManager._compute_features.
  pose proof (accurate_error_nonneg u round Hr) as Hu0.
  apply (compute_features_from_aligned u round Hr Hu self
           (fun sym feat =>
              exists prices volumes accel,
                price_cache self !! sym = Some prices /\
                volume_cache self !! sym = Some volumes /\
                (5 <= length prices)%nat /\ length volumes = length prices /\
                feat !! "volume_acceleration" = Some accel /\
                let v_total := float_sum round (map snd volumes) in
                let n := inject_Z (Z.of_nat (length volumes)) in
                (Forall (fun trade => 0 < snd trade) volumes -> 0 < v_total) /\
                (0 < v_total ->
                 n * (1 - u) <= accel * (1 + u) /\
                 accel * (1 - u) <= n * (1 + u)) /\
                (v_total <= 0 -> accel = 0) /\
                forall weights, configured weights ->
                  exists breakdown total momentum,
                    SignalEngine._fusion weights feat
                    = Return (breakdown, total) /\
                    items_get breakdown "momentum" 0
                    == momentum * dict_get weights "momentum" 0 /\
                    (0 < v_total ->
                     momentum <= 1 /\ 1 - u <= momentum * (1 + u) /\
                     ((6 <= length volumes)%nat -> momentum == 1)) /\
                    (v_total <= 0 -> momentum == 0)) Ha).
  - intros sym f E.
    destruct (features_of_symbol_aligned u round Hr Hu self sym Ha)
      as (feat & E' & Hf).
    rewrite E in E'. injection E' as <-.
    destruct (Hf f eq_refl)
      as (prices & volumes & accel & H1 & H2 & H3 & H4 & H5 & H6 & H7).
    exists prices, volumes, accel.
    split; [exact H1|]. split; [exact H2|]. split; [exact H3|].
    split; [exact H4|]. split; [exact H5|]. cbn zeta.
    split.
    { intros Hv. apply (float_sum_positive u round Hr); [lra | |].
      - apply Forall_map. exact Hv.
      - destruct volumes; [cbn in H4; lia | discriminate]. }
    split; [exact H6|]. split; [exact H7|].
    intros weights Hw.
    destruct (fusion_momentum weights f Hw) as (breakdown & total & Ef & Hm).
    exists breakdown, total,
      (py_min (dict_get f "volume_acceleration" 0 / 5) 1).
    split; [exact Ef|]. split; [exact Hm|].
    unfold dict_get. rewrite H5. cbn [default from_option id].
    assert (Hn : 5 <= inject_Z (Z.of_nat (length volumes))).
    { change 5 with (inject_Z 5). rewrite <- Zle_Qle. lia. }
    assert (Hd : accel / 5 == accel * (1 # 5)) by (field; discriminate).
    split.
    + intros Hv. destruct (H6 Hv) as [Hlo Hhi].
      split; [unfold py_min; qcase; lra|].
      split; [unfold py_min; qcase; rewrite ?Hd in *; nra|].
      intros H6v.
      assert (Hn6 : 6 <= inject_Z (Z.of_nat (length volumes))).
      { change 6 with (inject_Z 6). rewrite <- Zle_Qle. lia. }
      unfold py_min. qcase; rewrite ?Hd in *; nra.
    + intros Hv. rewrite (H7 Hv). reflexivity.
  - intros sym f [].
Qed.

Lemma volume_acceleration_counts_trades_witness :
  accurate 0 (fun x => x) /\
  0 <= 1 # 100 /\
  caches_aligned
    (cache_trades "BTCUSDT"
       [(100, 1, 1); (101, 2, 2); (102, 1, 3); (103, 3, 4); (104, 1, 5);
        (105, 2, 6)]
       (empty_caches ["BTCUSDT"; "ETHUSDT"])) /\
  exists features,
    DataIngestionManager._compute_features (fun x => x)
      (cache_trades "BTCUSDT"
         [(100, 1, 1); (101, 2, 2); (102, 1, 3); (103, 3, 4); (104, 1, 5);
          (105, 2, 6)]
         (empty_caches ["BTCUSDT"; "ETHUSDT"])) = Return features.
Proof.
  assert (Ha : caches_aligned
                 (cache_trades "BTCUSDT"
                    [(100, 1, 1); (101, 2, 2); (102, 1, 3); (103, 3, 4);
                     (104, 1, 5); (105, 2, 6)]
                    (empty_caches ["BTCUSDT"; "ETHUSDT"]))).
  { apply cache_trades_aligned. intros sym. cbn. rewrite !lookup_empty.
    reflexivity. }
  assert (Hu : 0 <= 1 # 100) by (vm_compute; discriminate).
  split; [exact accurate_identity|]. split; [exact Hu|]. split; [exact Ha|].
  destruct (volume_acceleration_counts_trades 0 (fun x => x) _
              accurate_identity Hu Ha) as (features & E & _).
  exists features. exact E.
Defined.

Lemma deque_append_last {A} maxlen (d : list A) x :
  (0 < maxlen)%nat -> last (SignalEngine.deque_append maxlen d x) = Some x.
Proof.
  intros H. unfold SignalEngine.deque_append.
  destruct (Nat.ltb_spec maxlen (length (d ++ [x]))) as [Hlt|Hle].
  - destruct d as [|y d]; cbn [app tl length] in *; [lia|].
    apply last_snoc.
  - apply last_snoc.
Qed.

Section Caches.

Variables (sym : string) (price qty now : Q) (self : DataIngestionState).

(** The two caches of the symbol after a trade. *)
Lemma update_price_velocity_symbol :
  price_cache
    (DataIngestionManager._update_price_velocity sym price qty now self)
  !! sym
  = Some (SignalEngine.deque_append 50
            (dict_get (price_cache self) sym []) (now, price)) /\
  volume_cache
    (DataIngestionManager._update_price_velocity sym price qty now self)
  !! sym
  = Some (SignalEngine.deque_append 50
            (dict_get (volume_cache self) sym []) (now, qty)).
Proof.
  unfold DataIngestionManager._update_price_velocity.
  cbn [price_cache volume_cache]. rewrite !lookup_insert_eq.
  unfold dict_get.
  split; f_equal; f_equal.
  - destruct (price_cache self !! sym) as [ps|] eqn:E;
      rewrite ?E, ?lookup_insert_eq; reflexivity.
  - destruct (volume_cache self !! sym) as [vs|] eqn:E;
      rewrite ?E, ?lookup_insert_eq; reflexivity.
Qed.

(** The caches of the other symbols after a trade. *)
Lemma update_price_velocity_others other :
  other <> sym ->
  price_cache
    (DataIngestionManager._update_price_velocity sym price qty now self)
  !! other = price_cache self !! other /\
  volume_cache
    (DataIngestionManager._update_price_velocity sym price qty now self)
  !! other = volume_cache self !! other.
Proof.
  intros Hne. unfold DataIngestionManager._update_price_velocity.
  cbn [price_cache volume_cache].
  rewrite !lookup_insert_ne by congruence.
  split.
  - destruct (price_cache self !! sym);
      rewrite ?lookup_insert_ne by congruence; reflexivity.
  - destruct (volume_cache self !! sym);
      rewrite ?lookup_insert_ne by congruence; reflexivity.
Qed.

End Caches.

(** X21. Caching a trade keeps the price cache and the volume cache aligned
    and both within fifty entries per symbol.  The caches of the symbol are
    the former ones with the trade appended, the oldest entry dropped when
    there were fifty: the pair of the time and the price is the newest
    entry of the price cache, the pair of the time and the quantity the
    newest entry of the volume cache.  The caches of the other symbols, the
    liquidations and the list of symbols are as they were. *)
Theorem trade_caches_stay_aligned (sym : string) (price qty now : Q)
  (self : DataIngestionState) :
  caches_aligned self -> caches_bounded self ->
  caches_aligned
    (DataIngestionManager._update_price_velocity sym price qty now self) /\
  caches_bounded
    (DataIngestionManager._update_price_velocity sym price qty now self) /\
  (forall s volumes,
     volume_cache
       (DataIngestionManager._update_price_velocity sym price qty now self)
     !! s = Some volumes ->
     (length volumes <= 50)%nat) /\
  (exists prices volumes,
     price_cache
       (DataIngestionManager._update_price_velocity sym price qty now self)
     !! sym = Some prices /\
     volume_cache
       (DataIngestionManager._update_price_velocity sym price qty now self)
     !! sym = Some volumes /\
     prices = SignalEngine.deque_append 50
                (dict_get (price_cache self) sym []) (now, price) /\
     volumes = SignalEngine.deque_append 50
                 (dict_get (volume_cache self) sym []) (now, qty) /\
     last prices = Some (now, price) /\
     last volumes = Some (now, qty) /\
     length volumes = length prices) /\
  (forall other, other <> sym ->
     price_cache
       (DataIngestionManager._update_price_velocity sym price qty now self)
     !! other = price_cache self !! other /\
     volume_cache
       (DataIngestionManager._update_price_velocity sym price qty now self)
     !! other = volume_cache self !! other) /\
  liquidation_cache
    (DataIngestionManager._update_price_velocity sym price qty now self)
  = liquidation_cache self /\
  symbols (DataIngestionManager._update_price_velocity sym price qty now self)
  = symbols self.
Proof.
  intros Ha Hb.
  pose proof (update_price_velocity_aligned sym price qty now self Ha) as Ha'.
  destruct (update_price_velocity_symbol sym price qty now self) as [Ep Ev].
  assert (Hb' : caches_bounded
                  (DataIngestionManager._update_price_velocity sym price qty
                     now self)).
  { intros s ps. destruct (decide (sym = s)) as [<-|Hne].
    - rewrite Ep. intros [= <-].
      apply deque_append_length. unfold dict_get.
      destruct (price_cache self !! sym) as [old|] eqn:E; cbn.
      + apply (Hb sym old E).
      + lia.
    - destruct (update_price_velocity_others sym price qty now self s)
        as [-> _]; [congruence|]. apply Hb. }
  split; [exact Ha'|]. split; [exact Hb'|].
  split; [|split; [|split; [|split; reflexivity]]].
  - intros s volumes Hv. specialize (Ha' s). rewrite Hv in Ha'.
    destruct (price_cache
                (DataIngestionManager._update_price_velocity sym price qty
                   now self) !! s) as [ps|] eqn:E; [|discriminate Ha'].
    cbn in Ha'. injection Ha' as Hlen. rewrite <- Hlen. apply (Hb' s ps E).
  - eexists _, _. split; [exact Ep|]. split; [exact Ev|].
    split; [reflexivity|]. split; [reflexivity|].
    split; [apply deque_append_last; lia|].
    split; [apply deque_append_last; lia|].
    specialize (Ha' sym). rewrite Ep, Ev in Ha'. cbn in Ha'.
    injection Ha' as Hlen. symmetry. exact Hlen.
  - intros other Hne.
    apply update_price_velocity_others. exact Hne.
Qed.

Lemma trade_caches_stay_aligned_witness :
  caches_aligned (empty_caches ["BTCUSDT"]) /\
  caches_bounded (empty_caches ["BTCUSDT"]) /\
  caches_aligned
    (DataIngestionManager._update_price_velocity "BTCUSDT" 100 1 1
       (empty_caches ["BTCUSDT"])).
Proof.
  assert (Ha : caches_aligned (empty_caches ["BTCUSDT"])).
  { intros sym. cbn. rewrite !lookup_empty. reflexivity. }
  assert (Hb : caches_bounded (empty_caches ["BTCUSDT"])).
  { intros sym ps H. cbn in H. rewrite lookup_empty in H. discriminate H. }
  split; [exact Ha|]. split; [exact Hb|].
  exact (proj1 (trade_caches_stay_aligned "BTCUSDT" 100 1 1 _ Ha Hb)).
Defined.

(** ** The statistics of the signals *)

Section Stats.

Lemma items_get_lookup {V} (d : list (string * V)) key dflt :
  items_get d key dflt = default dflt (items_lookup d key).
Proof.
  induction d as [|[k v] d IH]; [reflexivity|]. cbn.
  destruct (String.eqb k key); [reflexivity | exact IH].
Qed.

Lemma items_lookup_setitem {V} (d : list (string * V)) key v key' :
  items_lookup (setitem d key v) key'
  = if String.eqb key key' then Some v else items_lookup d key'.
Proof.
  induction d as [|[k v0] d IH]; cbn [setitem items_lookup].
  - destruct (String.eqb key key'); reflexivity.
  - destruct (String.eqb_spec k key) as [E|Hne]; cbn [items_lookup].
    + subst k. destruct (String.eqb key key'); reflexivity.
    + rewrite IH.
      destruct (String.eqb_spec k key') as [E1|N1],
               (String.eqb_spec key key') as [E2|N2];
        try reflexivity; congruence.
Qed.

Lemma items_lookup_app_absent {V} (d : list (string * V)) key v key' :
  items_lookup d key = None ->
  items_lookup (d ++ [(key, v)]) key'
  = if String.eqb key key' then Some v else items_lookup d key'.
Proof.
  intros H. induction d as [|[k v0] d IH]; cbn [app items_lookup] in *.
  - reflexivity.
  - destruct (String.eqb_spec k key) as [E|Hne]; [discriminate H|].
    rewrite (IH H).
    destruct (String.eqb_spec k key') as [E1|N1],
             (String.eqb_spec key key') as [E2|N2];
      try reflexivity; congruence.
Qed.

Lemma items_lookup_In {V} (d : list (string * V)) key v :
  items_lookup d key = Some v -> In (key, v) d.
Proof.
  induction d as [|[k v0] d IH]; cbn; [discriminate|].
  destruct (String.eqb_spec k key) as [->|Hne].
  - intros [= ->]. left. reflexivity.
  - intros H. right. apply IH, H.
Qed.

Lemma items_lookup_None {V} (d : list (string * V)) key :
  items_lookup d key = None <-> ~ In key (map fst d).
Proof.
  induction d as [|[k v0] d IH]; cbn; [tauto|].
  destruct (String.eqb_spec k key) as [->|Hne].
  - split; [discriminate | intros H; exfalso; apply H; left; reflexivity].
  - rewrite IH. split; [intros H [H'|H']; [contradiction | exact (H H')] | tauto].
Qed.

Lemma NoDup_lookup {V} (d : list (string * V)) key v :
  List.NoDup (map fst d) -> In (key, v) d -> items_lookup d key = Some v.
Proof.
  induction d as [|[k v0] d IH]; cbn; [tauto|].
  intros Hnd [[= -> ->]|Hin].
  - rewrite String.eqb_refl. reflexivity.
  - apply List.NoDup_cons_iff in Hnd as [Hk Hnd].
    destruct (String.eqb_spec k key) as [->|Hne].
    + exfalso. apply Hk. apply (in_map fst) in Hin. exact Hin.
    + apply IH; assumption.
Qed.

End Stats.

Section Counting.

Lemma setitem_absent {V} (d : list (string * V)) key v :
  items_lookup d key = None -> setitem d key v = d ++ [(key, v)].
Proof.
  induction d as [|[k v0] d IH]; cbn [setitem items_lookup app];
    [reflexivity|].
  destruct (String.eqb k key); [discriminate|].
  intros H. rewrite (IH H). reflexivity.
Qed.

Lemma setitem_app_absent {V} (d : list (string * V)) key z v :
  items_lookup d key = None ->
  setitem (d ++ [(key, z)]) key v = d ++ [(key, v)].
Proof.
  induction d as [|[k v0] d IH]; cbn [setitem items_lookup app].
  - rewrite String.eqb_refl. reflexivity.
  - destruct (String.eqb k key); [discriminate|].
    intros H. rewrite (IH H). reflexivity.
Qed.

Lemma setitem_present_keys {V} (d : list (string * V)) key v :
  is_Some (items_lookup d key) -> map fst (setitem d key v) = map fst d.
Proof.
  induction d as [|[k v0] d IH]; cbn [setitem items_lookup map fst].
  - intros [x Hx]. discriminate Hx.
  - destruct (String.eqb k key); [reflexivity|].
    intros H. cbn [map fst]. rewrite (IH H). reflexivity.
Qed.

Lemma Forall_setitem {V} (P : string * V -> Prop) d key v :
  Forall P d -> P (key, v) -> Forall P (setitem d key v).
Proof.
  intros Hd Hv. induction Hd as [|[k v0] d Hk Hd IH]; cbn [setitem].
  - constructor; [exact Hv | constructor].
  - destruct (String.eqb_spec k key) as [->|Hne].
    + constructor; assumption.
    + constructor; assumption.
Qed.

(** One report: the entry of the signal counts one more trade, and one
    more win when the trade won; the other entries are as they were. *)
Lemma update_from_trade_step signal result ev_predicted ev_realized self :
  exists self',
    AIAdaptationEngine.update_from_trade signal result ev_predicted
      ev_realized self = (self', Return tt) /\
    (forall key,
       stats_counts (items_lookup (signal_stats self') key)
       = if String.eqb signal key
         then (S (fst (stats_counts (items_lookup (signal_stats self) signal))),
               (if result then 1 else 0)
               + snd (stats_counts (items_lookup (signal_stats self) signal)))%nat
         else stats_counts (items_lookup (signal_stats self) key)) /\
    (forall key, signal <> key ->
       items_lookup (signal_stats self') key
       = items_lookup (signal_stats self) key) /\
    is_Some (items_lookup (signal_stats self') signal) /\
    (stats_sound self -> stats_sound self') /\
    (length (win_history self') + length (loss_history self')
     = S (length (win_history self) + length (loss_history self)))%nat.
Proof.
  unfold AIAdaptationEngine.update_from_trade.
  set (zero := {| stats_total := 0; stats_win := 0; stats_ev_error_sum := 0 |}).
  destruct (items_lookup (signal_stats self) signal) as [st|] eqn:E.
  - rewrite items_get_lookup, E. cbn [default].
    match goal with
    | |- context [setitem _ signal ?x] => set (st' := x)
    end.
    assert (Hl : forall key,
      items_lookup (setitem (signal_stats self) signal st') key
      = if String.eqb signal key then Some st'
        else items_lookup (signal_stats self) key)
      by (intros key; apply items_lookup_setitem).
    unfold AIAdaptationEngine.get_win_rate. cbn [signal_stats].
    rewrite items_get_lookup, Hl, String.eqb_refl. cbn [default].
    rewrite py_truediv_Return.
    2: { unfold st'. cbn. intros H. unfold Qeq in H. cbn in H. lia. }
    eexists. split; [reflexivity|]. cbn [signal_stats win_history loss_history].
    split; [|split; [|split; [|split]]].
    + intros key. rewrite Hl. destruct (String.eqb signal key); [|reflexivity].
      unfold st'. cbn. f_equal; [lia|]. destruct result; lia.
    + intros key Hne. rewrite Hl. apply String.eqb_neq in Hne. rewrite Hne.
      reflexivity.
    + rewrite Hl, String.eqb_refl. eexists; reflexivity.
    + intros [Hnd Hall]. split.
      * cbn [signal_stats]. rewrite setitem_present_keys; [exact Hnd|].
        rewrite E. eexists; reflexivity.
      * cbn [signal_stats]. apply Forall_setitem; [exact Hall|].
        apply items_lookup_In in E.
        rewrite List.Forall_forall in Hall. specialize (Hall _ E).
        unfold st'. cbn in *. destruct result; lia.
    + destruct result; rewrite ?length_app; cbn; lia.
  - rewrite items_get_lookup, items_lookup_app_absent, String.eqb_refl by exact E.
    cbn [default].
    rewrite setitem_app_absent by exact E.
    match goal with
    | |- context [(signal, ?x)] => set (st' := x)
    end.
    assert (Hl : forall key,
      items_lookup (signal_stats self ++ [(signal, st')]) key
      = if String.eqb signal key then Some st'
        else items_lookup (signal_stats self) key)
      by (intros key; apply items_lookup_app_absent, E).
    unfold AIAdaptationEngine.get_win_rate. cbn [signal_stats].
    rewrite items_get_lookup, Hl, String.eqb_refl. cbn [default].
    rewrite py_truediv_Return.
    2: { unfold st'. cbn. intros H. unfold Qeq in H. cbn in H. lia. }
    eexists. split; [reflexivity|]. cbn [signal_stats win_history loss_history].
    split; [|split; [|split; [|split]]].
    + intros key. rewrite Hl. destruct (String.eqb signal key); [|reflexivity].
      unfold st'. cbn. f_equal. destruct result; lia.
    + intros key Hne. rewrite Hl. apply String.eqb_neq in Hne. rewrite Hne.
      reflexivity.
    + rewrite Hl, String.eqb_refl. eexists; reflexivity.
    + intros [Hnd Hall]. split.
      * cbn [signal_stats]. rewrite map_app. cbn [map fst].
        apply List.NoDup_app; [exact Hnd | | ].
        -- constructor; [intros [] | constructor].
        -- intros key Hin [<-|[]]. apply items_lookup_None in E. contradiction.
      * cbn [signal_stats]. apply Forall_app. split; [exact Hall|].
        constructor; [|constructor]. unfold st'. cbn. destruct result; lia.
    + destruct result; rewrite ?length_app; cbn; lia.
Qed.

Lemma trades_of_cons signal result p r rest key :
  trades_of key ((signal, result, p, r) :: rest)
  = ((if String.eqb signal key then 1 else 0) + trades_of key rest)%nat.
Proof.
  unfold trades_of. cbn [List.filter fst]. destruct (String.eqb signal key);
    reflexivity.
Qed.

Lemma wins_of_cons signal result p r rest key :
  wins_of key ((signal, result, p, r) :: rest)
  = ((if String.eqb signal key && result then 1 else 0)
     + wins_of key rest)%nat.
Proof.
  unfold wins_of. cbn [List.filter fst snd].
  destruct (String.eqb signal key && result); reflexivity.
Qed.

Lemma wins_le_trades key trades : (wins_of key trades <= trades_of key trades)%nat.
Proof.
  induction trades as [|[[[signal result] p] r] rest IH]; [cbn; lia|].
  rewrite trades_of_cons, wins_of_cons.
  destruct (String.eqb signal key), result; cbn [andb]; lia.
Qed.

Lemma update_all_counts trades : forall self,
  exists self',
    update_all trades self = (self', Return tt) /\
    (forall key,
       stats_counts (items_lookup (signal_stats self') key)
       = (fst (stats_counts (items_lookup (signal_stats self) key))
          + trades_of key trades,
          snd (stats_counts (items_lookup (signal_stats self) key))
          + wins_of key trades)%nat) /\
    (forall key, (0 < trades_of key trades)%nat ->
                 is_Some (items_lookup (signal_stats self') key)) /\
    (forall key, trades_of key trades = O ->
                 items_lookup (signal_stats self') key
                 = items_lookup (signal_stats self) key) /\
    (stats_sound self -> stats_sound self') /\
    (length (win_history self') + length (loss_history self')
     = length (win_history self) + length (loss_history self)
       + length trades)%nat.
Proof.
  induction trades as [|[[[signal result] p] r] rest IH]; intros self.
  - exists self. split; [reflexivity|]. cbn.
    split; [intros key; destruct (stats_counts _); cbn; f_equal; lia|].
    split; [intros key H; lia|]. split; [reflexivity|]. split; [auto | lia].
  - cbn [update_all].
    destruct (update_from_trade_step signal result p r self)
      as (self1 & -> & C1 & K1 & P1 & S1 & L1).
    destruct (IH self1) as (self' & -> & C & P & K & S' & L').
    exists self'. split; [reflexivity|].
    split; [|split; [|split; [|split]]].
    + intros key. rewrite C, C1, trades_of_cons, wins_of_cons.
      destruct (String.eqb_spec signal key) as [->|Hne]; cbn [fst snd andb].
      * f_equal; [lia|]. destruct result; lia.
      * f_equal; lia.
    + intros key. rewrite trades_of_cons.
      destruct (String.eqb_spec signal key) as [->|Hne].
      * intros _. destruct (trades_of key rest) as [|n] eqn:En.
        -- rewrite (K key En). exact P1.
        -- apply P. lia.
      * cbn. intros H. apply P, H.
    + intros key. rewrite trades_of_cons.
      destruct (String.eqb_spec signal key) as [->|Hne]; [cbn; lia|].
      cbn. intros H. rewrite (K key H). apply K1, Hne.
    + intros H. apply S', S1, H.
    + rewrite L', L1. cbn [length]. lia.
Qed.

End Counting.

(** X23. The statistics count the trades.  Reporting any list of trades to
    a fresh engine never raises; afterwards the win rate of every signal is
    the number of its winning trades over the number of its trades (0 over
    1 for a signal with no trade), a number of [0, 1]; every signal has one
    entry, and the two histories together have one value per trade. *)
Theorem win_rate_is_frequency (trades : list Trade) :
  exists self,
    update_all trades fresh_engine = (self, Return tt) /\
    stats_sound self /\
    (length (win_history self) + length (loss_history self)
     = length trades)%nat /\
    forall signal,
      exists rate,
        AIAdaptationEngine.get_win_rate signal self = Return rate /\
        rate = inject_Z (Z.of_nat (wins_of signal trades))
               / inject_Z (Z.of_nat (Nat.max (trades_of signal trades) 1)) /\
        0 <= rate <= 1.
Proof.
  destruct (update_all_counts trades fresh_engine)
    as (self & E & C & P & K & S' & L').
  exists self. split; [exact E|].
  split; [apply S'; split; [constructor | constructor]|].
  split; [rewrite L'; cbn; lia|].
  intros signal. unfold AIAdaptationEngine.get_win_rate.
  rewrite items_get_lookup.
  specialize (C signal). cbn [fresh_engine signal_stats items_lookup
                               stats_counts fst snd] in C.
  pose proof (wins_le_trades signal trades) as Hle.
  assert (Hbounds : forall w t : nat, (w <= t)%nat -> (1 <= t)%nat ->
            0 <= inject_Z (Z.of_nat w) / inject_Z (Z.of_nat t) <= 1).
  { intros w t Hw Ht.
    assert (H0 : 0 <= inject_Z (Z.of_nat w)).
    { change 0 with (inject_Z 0). rewrite <- Zle_Qle. lia. }
    assert (H1 : 0 < inject_Z (Z.of_nat t)).
    { change 0 with (inject_Z 0). rewrite <- Zlt_Qlt. lia. }
    assert (H2 : inject_Z (Z.of_nat w) <= inject_Z (Z.of_nat t)).
    { rewrite <- Zle_Qle. lia. }
    split.
    - apply Qle_shift_div_l; [exact H1 | lra].
    - apply Qle_shift_div_r; [exact H1 | lra]. }
  destruct (trades_of signal trades) as [|n] eqn:En.
  - rewrite (K signal En). cbn [fresh_engine signal_stats items_lookup default
                                 stats_win stats_total].
    assert (Hw : wins_of signal trades = O) by lia. rewrite Hw.
    eexists. split; [reflexivity|]. split; [reflexivity|].
    apply (Hbounds O 1%nat); lia.
  - destruct (P signal ltac:(lia)) as [st Hst]. rewrite Hst in C |- *.
    cbn [stats_counts from_option id] in C |- *. injection C as Ht Hw.
    rewrite Ht, Hw. rewrite Nat.max_l by lia.
    rewrite py_truediv_Return.
    2: { intros H. unfold Qeq in H. cbn in H. lia. }
    eexists. split; [reflexivity|]. split; [reflexivity|].
    apply Hbounds; lia.
Qed.

(** ** Win rates *)

Section WinRates.

Lemma inject_nat_pos (n : nat) : (1 <= n)%nat -> 0 < inject_Z (Z.of_nat n).
Proof.
  intros H. change 0 with (inject_Z 0). rewrite <- Zlt_Qlt. lia.
Qed.

Lemma inject_nat_nonneg (n : nat) : 0 <= inject_Z (Z.of_nat n).
Proof.
  change 0 with (inject_Z 0). rewrite <- Zle_Qle. lia.
Qed.

Lemma inject_nat_le (m n : nat) :
  (m <= n)%nat -> inject_Z (Z.of_nat m) <= inject_Z (Z.of_nat n).
Proof.
  intros H. rewrite <- Zle_Qle. lia.
Qed.

Lemma win_rate_of_range stats :
  (1 <= stats_total stats)%nat -> (stats_win stats <= stats_total stats)%nat ->
  0 <= win_rate_of stats <= 1.
Proof.
  intros Ht Hw. unfold win_rate_of.
  pose proof (inject_nat_pos _ Ht). pose proof (inject_nat_nonneg (stats_win stats)).
  pose proof (inject_nat_le _ _ Hw).
  split; [apply Qle_shift_div_l | apply Qle_shift_div_r]; lra.
Qed.

Lemma get_win_rate_entry self signal stats :
  List.NoDup (map fst (signal_stats self)) ->
  In (signal, stats) (signal_stats self) ->
  (1 <= stats_total stats)%nat ->
  AIAdaptationEngine.get_win_rate signal self = Return (win_rate_of stats).
Proof.
  intros Hnd Hin Ht. unfold AIAdaptationEngine.get_win_rate.
  rewrite items_get_lookup, (NoDup_lookup _ _ _ Hnd Hin). cbn [from_option id].
  apply py_truediv_Return. pose proof (inject_nat_pos _ Ht). lra.
Qed.

Lemma adaptive_weight_of_range lr stats :
  0 <= lr -> 0 <= win_rate_of stats <= 1 ->
  0 <= adaptive_weight_of lr stats <= 1 /\
  0.1 - lr / 2 <= adaptive_weight_of lr stats <= 0.1 + lr / 2.
Proof.
  intros Hlr Hr. unfold adaptive_weight_of, py_min, py_max2.
  assert (H2 : lr / 2 == lr * 0.5) by (field; discriminate).
  rewrite H2.
  qcase; split; split; try lra; nra.
Qed.

Lemma adaptive_weights_from_spec lr self todo : forall weights,
  List.NoDup (map fst (signal_stats self)) ->
  (forall item, In item todo -> In item (signal_stats self) /\
                                (1 <= stats_total (snd item))%nat) ->
  List.NoDup (map fst todo) ->
  (forall key, In key (map fst todo) -> ~ In key (map fst weights)) ->
  AIAdaptationEngine.adaptive_signal_weights_from todo lr self weights
  = Return (weights
            ++ map (fun item => (fst item, adaptive_weight_of lr (snd item)))
                 todo).
Proof.
  induction todo as [|[signal stats] rest IH]; intros weights Hnd Hin Hnt Hdis.
  - cbn. rewrite app_nil_r. reflexivity.
  - cbn [AIAdaptationEngine.adaptive_signal_weights_from].
    destruct (Hin (signal, stats) (or_introl eq_refl)) as [Hs Ht].
    rewrite (get_win_rate_entry self signal stats Hnd Hs Ht). cbn [obind].
    assert (Habs : ~ In signal (map fst weights))
      by (apply Hdis; left; reflexivity).
    rewrite (items_get_absent weights signal 0.1 Habs).
    rewrite setitem_absent by (apply items_lookup_None, Habs).
    apply List.NoDup_cons_iff in Hnt as [Hk Hnt].
    rewrite IH; try assumption.
    + rewrite <- app_assoc. reflexivity.
    + intros item Hi. apply Hin. right. exact Hi.
    + intros key Hkey. rewrite map_app, in_app_iff. cbn [map fst In].
      intros [Hw|[<-|[]]].
      * apply (Hdis key); [right; exact Hkey | exact Hw].
      * contradiction.
Qed.

End WinRates.

(** X24. The adaptive weights start from 0.1 on every call.  For an engine
    whose statistics are sound, [adaptive_signal_weights] returns one
    weight per signal, in the order of the statistics, and each is
    0.1 + learning_rate * (win_rate - 0.5) clamped to [0, 1]: within half
    the learning rate of 0.1 however many trades were reported, between
    0.095 and 0.105 for the default rate of 0.01. *)
Theorem adaptive_weights_stay_near_a_tenth (learning_rate : Q)
  (self : AIAdaptationState) :
  stats_sound self -> 0 <= learning_rate ->
  exists weights,
    AIAdaptationEngine.adaptive_signal_weights learning_rate self
    = Return weights /\
    weights
    = map (fun item => (fst item, adaptive_weight_of learning_rate (snd item)))
        (signal_stats self) /\
    forall signal weight, In (signal, weight) weights ->
      0 <= weight <= 1 /\
      0.1 - learning_rate / 2 <= weight <= 0.1 + learning_rate / 2.
Proof.
  intros [Hnd Hall] Hlr. rewrite List.Forall_forall in Hall.
  unfold AIAdaptationEngine.adaptive_signal_weights.
  rewrite adaptive_weights_from_spec; try assumption.
  - eexists. split; [reflexivity|]. split; [reflexivity|].
    intros signal weight Hin. cbn [app] in Hin.
    apply in_map_iff in Hin as ([k st] & [= <- <-] & Hin).
    destruct (Hall _ Hin) as [Ht Hw]. cbn [snd] in *.
    apply adaptive_weight_of_range; [exact Hlr|].
    apply win_rate_of_range; assumption.
  - intros item Hi. split; [exact Hi | apply (Hall _ Hi)].
  - intros key _ [].
Qed.

Lemma adaptive_weights_stay_near_a_tenth_witness :
  exists self weights,
    update_all [("breakout", true, 0.2, 0.3); ("breakout", true, 0.1, 0.2);
                ("momentum", false, 0.1, -0.1)] fresh_engine
    = (self, Return tt) /\
    AIAdaptationEngine.adaptive_signal_weights 0.01 self = Return weights /\
    forall signal weight, In (signal, weight) weights ->
      0.1 - 0.01 / 2 <= weight <= 0.1 + 0.01 / 2.
Proof.
  destruct (update_all_counts
              [("breakout", true, 0.2, 0.3); ("breakout", true, 0.1, 0.2);
               ("momentum", false, 0.1, -0.1)] fresh_engine)
    as (self & E & _ & _ & _ & Hsound & _).
  assert (Hs : stats_sound self)
    by (apply Hsound; split; [constructor | constructor]).
  assert (Hlr : 0 <= 0.01) by (vm_compute; discriminate).
  destruct (adaptive_weights_stay_near_a_tenth 0.01 self Hs Hlr)
    as (weights & Hw & _ & Hall).
  exists self, weights. split; [exact E|]. split; [exact Hw|].
  intros signal weight Hin. apply (Hall signal weight Hin).
Defined.

(** ** Posteriors, pruning and drift *)

Section Posteriors.

Lemma posterior_of_between a b stats :
  (0 < a)%Z -> (0 < b)%Z ->
  (1 <= stats_total stats)%nat -> (stats_win stats <= stats_total stats)%nat ->
  let prior := inject_Z a / inject_Z (a + b) in
  let p := posterior_of a b stats in
  0 < p < 1 /\
  (prior <= win_rate_of stats -> prior <= p <= win_rate_of stats) /\
  (win_rate_of stats <= prior -> win_rate_of stats <= p <= prior).
Proof.
  intros Ha Hb Ht Hw prior p. unfold p, prior, posterior_of, win_rate_of.
  replace (a + Z.of_nat (stats_win stats)
           + (b + Z.of_nat (stats_total stats) - Z.of_nat (stats_win stats)))%Z
    with (a + b + Z.of_nat (stats_total stats))%Z by lia.
  rewrite !inject_Z_plus.
  set (A := inject_Z a). set (B := inject_Z b).
  set (W := inject_Z (Z.of_nat (stats_win stats))).
  set (T := inject_Z (Z.of_nat (stats_total stats))).
  assert (HA : 0 < A) by (unfold A; change 0 with (inject_Z 0);
                          rewrite <- Zlt_Qlt; exact Ha).
  assert (HB : 0 < B) by (unfold B; change 0 with (inject_Z 0);
                          rewrite <- Zlt_Qlt; exact Hb).
  assert (HT : 0 < T) by (apply inject_nat_pos, Ht).
  assert (HW : 0 <= W) by apply inject_nat_nonneg.
  assert (HWT : W <= T) by (apply inject_nat_le, Hw).
  assert (HP : (A + W) / (A + B + T) * (A + B + T) == A + W) by (field; lra).
  assert (HR : W / T * T == W) by (field; lra).
  assert (HQ : A / (A + B) * (A + B) == A) by (field; lra).
  set (P := (A + W) / (A + B + T)) in *.
  set (R := W / T) in *. set (Q0 := A / (A + B)) in *.
  assert (H1 : 0 < P) by (unfold P; apply Qlt_shift_div_l; lra).
  assert (H2 : P < 1) by (unfold P; apply Qlt_shift_div_r; lra).
  split; [split; assumption|].
  assert (Key : P * (A + B + T) == Q0 * (A + B) + R * T) by lra.
  split; intros H; split.
  - apply Qnot_lt_le. intros Hc. nra.
  - apply Qnot_lt_le. intros Hc. nra.
  - apply Qnot_lt_le. intros Hc. nra.
  - apply Qnot_lt_le. intros Hc. nra.
Qed.

Lemma bayesian_update_from_spec a b todo : forall posteriors,
  (0 < a)%Z -> (0 < b)%Z ->
  Forall (fun item : string * SignalStats =>
            (stats_win (snd item) <= stats_total (snd item))%nat) todo ->
  List.NoDup (map fst todo) ->
  (forall key, In key (map fst todo) -> ~ In key (map fst posteriors)) ->
  AIAdaptationEngine.bayesian_update_from todo a b posteriors
  = Return (posteriors
            ++ map (fun item => (fst item, posterior_of a b (snd item))) todo).
Proof.
  induction todo as [|[signal stats] rest IH];
    intros posteriors Ha Hb Hall Hnd Hdis.
  - cbn. rewrite app_nil_r. reflexivity.
  - cbn [AIAdaptationEngine.bayesian_update_from].
    apply Forall_cons in Hall as [Hw Hall]. cbn [snd] in Hw.
    rewrite py_truediv_Return.
    2: { intros H. unfold Qeq in H. cbn in H. lia. }
    cbn [obind].
    assert (Habs : ~ In signal (map fst posteriors))
      by (apply Hdis; left; reflexivity).
    rewrite setitem_absent by (apply items_lookup_None, Habs).
    apply List.NoDup_cons_iff in Hnd as [Hk Hnd].
    rewrite IH; try assumption.
    + rewrite <- app_assoc. reflexivity.
    + intros key Hkey. rewrite map_app, in_app_iff. cbn [map fst In].
      intros [Hin|[<-|[]]].
      * apply (Hdis key); [right; exact Hkey | exact Hin].
      * contradiction.
Qed.

Lemma items_del_absent {V} (d : list (string * V)) key :
  ~ In key (map fst d) -> items_del d key = d.
Proof.
  unfold items_del. induction d as [|[k v] d IH]; intros H; [reflexivity|].
  cbn [List.filter fst]. destruct (String.eqb_spec k key) as [->|Hne].
  - exfalso. apply H. left. reflexivity.
  - cbn [negb]. rewrite IH; [reflexivity|].
    intros Hin. apply H. right. exact Hin.
Qed.

Lemma prune_from_spec min_win_rate todo : forall kept self,
  signal_stats self = kept ++ todo ->
  List.NoDup (map fst (kept ++ todo)) ->
  Forall (fun item : string * SignalStats =>
            (1 <= stats_total (snd item))%nat) todo ->
  AIAdaptationEngine.prune_from todo min_win_rate self
  = (AIAdaptationEngine.set_signal_stats
       (kept ++ List.filter (survives min_win_rate) todo) self,
     Return tt).
Proof.
  induction todo as [|[signal stats] rest IH]; intros kept self Hs Hnd Hall.
  - cbn. rewrite <- Hs. destruct self; reflexivity.
  - cbn [AIAdaptationEngine.prune_from].
    apply Forall_cons in Hall as [Ht Hall]. cbn [snd] in Ht.
    rewrite (get_win_rate_entry self signal stats).
    2: { rewrite Hs. exact Hnd. }
    2: { rewrite Hs. apply in_app_iff. right. left. reflexivity. }
    2: { exact Ht. }
    cbn [List.filter]. unfold survives at 1. cbn [snd].
    destruct ((100 <=? stats_total stats)%nat
              && Qlt_bool (win_rate_of stats) min_win_rate) eqn:E; cbn [negb].
    + rewrite (IH kept).
      * reflexivity.
      * cbn [AIAdaptationEngine.set_signal_stats signal_stats]. rewrite Hs.
        unfold items_del. rewrite List.filter_app. cbn [List.filter fst].
        rewrite String.eqb_refl. cbn [negb].
        rewrite map_app in Hnd. cbn [map fst] in Hnd.
        apply List.NoDup_remove in Hnd as [Hnd Hk].
        rewrite in_app_iff in Hk.
        fold (items_del kept signal). fold (items_del rest signal).
        rewrite !items_del_absent by tauto. reflexivity.
      * rewrite map_app in *. cbn [map fst] in Hnd.
        apply List.NoDup_remove in Hnd as [Hnd _]. exact Hnd.
      * exact Hall.
    + rewrite (IH (kept ++ [(signal, stats)])).
      * rewrite <- app_assoc. reflexivity.
      * rewrite <- app_assoc. exact Hs.
      * rewrite <- app_assoc. exact Hnd.
      * exact Hall.
Qed.

Lemma py_sum_from (l : list Q) (a : Q) : fold_left Qplus l a == a + py_sum l.
Proof.
  unfold py_sum. revert a. induction l as [|x l IH]; intros a; cbn [fold_left].
  - ring.
  - rewrite IH, (IH (0 + x)). ring.
Qed.

Lemma py_sum_app (l k : list Q) : py_sum (l ++ k) == py_sum l + py_sum k.
Proof.
  unfold py_sum at 1. rewrite fold_left_app, py_sum_from.
  fold (py_sum l). ring.
Qed.

Lemma py_sum_repeated {A} (d : list A) (l : list Q) :
  py_sum (flat_map (fun _ => l) d)
  == inject_Z (Z.of_nat (length d)) * py_sum l.
Proof.
  induction d as [|x d IH]; cbn [flat_map length].
  - cbn. ring.
  - rewrite py_sum_app, IH, Nat2Z.inj_succ. unfold Z.succ.
    rewrite inject_Z_plus. change (inject_Z 1) with 1. ring.
Qed.

Lemma length_repeated {A B} (d : list A) (l : list B) :
  length (flat_map (fun _ => l) d) = (length d * length l)%nat.
Proof.
  induction d as [|x d IH]; cbn [flat_map length]; [reflexivity|].
  rewrite length_app, IH. lia.
Qed.

End Posteriors.

(** X25. The Bayesian win rates.  With a positive prior and sound
    statistics, [bayesian_update_winrate] returns one posterior per signal,
    in the order of the statistics: (alpha + wins) / (alpha + beta +
    trades), a number strictly between 0 and 1 that lies between the prior
    mean alpha / (alpha + beta) and the win rate of the signal. *)
Theorem posterior_between_prior_and_win_rate (prior_alpha prior_beta : Z)
  (self : AIAdaptationState) :
  stats_sound self -> (0 < prior_alpha)%Z -> (0 < prior_beta)%Z ->
  exists posteriors,
    AIAdaptationEngine.bayesian_update_winrate prior_alpha prior_beta self
    = Return posteriors /\
    posteriors
    = map (fun item => (fst item, posterior_of prior_alpha prior_beta (snd item)))
        (signal_stats self) /\
    forall signal stats, In (signal, stats) (signal_stats self) ->
      let prior := inject_Z prior_alpha / inject_Z (prior_alpha + prior_beta) in
      let p := posterior_of prior_alpha prior_beta stats in
      0 < p < 1 /\
      (prior <= win_rate_of stats -> prior <= p <= win_rate_of stats) /\
      (win_rate_of stats <= prior -> win_rate_of stats <= p <= prior).
Proof.
  intros [Hnd Hall] Ha Hb.
  unfold AIAdaptationEngine.bayesian_update_winrate.
  rewrite bayesian_update_from_spec; try assumption.
  - eexists. split; [reflexivity|]. split; [reflexivity|].
    intros signal stats Hin. rewrite List.Forall_forall in Hall.
    destruct (Hall _ Hin) as [Ht Hw]. cbn [snd] in *.
    apply posterior_of_between; assumption.
  - eapply Forall_impl; [exact Hall|]. intros item [_ H]. exact H.
  - intros key _ [].
Qed.

Lemma posterior_between_prior_and_win_rate_witness :
  exists self posteriors,
    update_all [("breakout", true, 0.2, 0.3); ("breakout", false, 0.1, -0.2)]
      fresh_engine = (self, Return tt) /\
    AIAdaptationEngine.bayesian_update_winrate 10 6 self = Return posteriors /\
    map fst posteriors = map fst (signal_stats self).
Proof.
  destruct (update_all_counts
              [("breakout", true, 0.2, 0.3); ("breakout", false, 0.1, -0.2)]
              fresh_engine) as (self & E & _ & _ & _ & Hsound & _).
  assert (Hs : stats_sound self)
    by (apply Hsound; split; [constructor | constructor]).
  destruct (posterior_between_prior_and_win_rate 10 6 self Hs eq_refl eq_refl)
    as (posteriors & Hp & -> & _).
  eexists self, _. split; [exact E|]. split; [exact Hp|].
  rewrite map_map. reflexivity.
Defined.

(** X26. Pruning.  On sound statistics [prune_low_performance_signals]
    returns and leaves the histories alone; it removes exactly the signals
    with at least 100 trades and a win rate below the minimum, and keeps
    the others in their order: a signal with fewer than 100 trades is never
    pruned, however low its win rate. *)
Theorem prune_removes_only_proven_losers (min_win_rate : Q)
  (self : AIAdaptationState) :
  stats_sound self ->
  exists self',
    AIAdaptationEngine.prune_low_performance_signals min_win_rate self
    = (self', Return tt) /\
    signal_stats self'
    = List.filter (survives min_win_rate) (signal_stats self) /\
    win_history self' = win_history self /\
    loss_history self' = loss_history self /\
    forall signal stats, In (signal, stats) (signal_stats self) ->
      (In (signal, stats) (signal_stats self') <->
       (stats_total stats < 100)%nat \/ min_win_rate <= win_rate_of stats).
Proof.
  intros [Hnd Hall].
  unfold AIAdaptationEngine.prune_low_performance_signals.
  rewrite (prune_from_spec min_win_rate (signal_stats self) [] self eq_refl Hnd).
  2: { eapply Forall_impl; [exact Hall|]. intros item [H _]. exact H. }
  eexists. split; [reflexivity|].
  cbn [AIAdaptationEngine.set_signal_stats signal_stats win_history
       loss_history app].
  split; [reflexivity|]. split; [reflexivity|]. split; [reflexivity|].
  intros signal stats Hin. rewrite filter_In. unfold survives. cbn [snd].
  rewrite negb_true_iff, andb_false_iff, Nat.leb_gt, Qlt_bool_false.
  tauto.
Qed.

Lemma prune_removes_only_proven_losers_witness :
  exists self self',
    update_all [("breakout", false, 0.2, -0.3)] fresh_engine
    = (self, Return tt) /\
    AIAdaptationEngine.prune_low_performance_signals 0.45 self
    = (self', Return tt) /\
    map fst (signal_stats self') = ["breakout"].
Proof.
  destruct (update_all_counts [("breakout", false, 0.2, -0.3)] fresh_engine)
    as (self & E & _ & _ & _ & Hsound & _).
  assert (Hs : stats_sound self)
    by (apply Hsound; split; [constructor | constructor]).
  destruct (prune_removes_only_proven_losers 0.45 self Hs)
    as (self' & Hp & Hk & _).
  exists self, self'. split; [exact E|]. split; [exact Hp|].
  rewrite Hk. injection E as <-. reflexivity.
Defined.

(** X27. The drift monitor never looks at a predicted EV, nor at the error
    sums of the statistics: it pairs the i-th realized EV of the wins with
    the i-th realized EV of the losses and returns the mean of the absolute
    differences of the pairs, the same whatever the number of signals; and
    it returns 0 when there is no signal, no win or no loss. *)
Theorem drift_compares_wins_with_losses (self : AIAdaptationState) :
  let pairs :=
    map (fun pair => Qabs (fst pair - snd pair))
      (combine (win_history self) (loss_history self)) in
  (signal_stats self = [] \/ win_history self = [] \/ loss_history self = [] ->
   AIAdaptationEngine.ev_drift_monitor self = 0.0) /\
  (signal_stats self <> [] -> pairs <> [] ->
   AIAdaptationEngine.ev_drift_monitor self == np_mean pairs).
Proof.
  intros pairs. unfold AIAdaptationEngine.ev_drift_monitor. fold pairs.
  split.
  - intros [H|[H|H]].
    + rewrite H. reflexivity.
    + assert (Hp : pairs = []) by (unfold pairs; rewrite H; reflexivity).
      rewrite Hp.
      replace (flat_map (fun _ : string * SignalStats => @nil Q)
                 (signal_stats self)) with (@nil Q); [reflexivity|].
      induction (signal_stats self); [reflexivity | exact IHl].
    + assert (Hp : pairs = []).
      { unfold pairs. rewrite H. destruct (win_history self); reflexivity. }
      rewrite Hp.
      replace (flat_map (fun _ : string * SignalStats => @nil Q)
                 (signal_stats self)) with (@nil Q); [reflexivity|].
      induction (signal_stats self); [reflexivity | exact IHl].
  - intros Hs Hp.
    destruct (flat_map (fun _ : string * SignalStats => pairs)
                (signal_stats self)) as [|e errors] eqn:E.
    { exfalso. destruct (signal_stats self) as [|s d]; [contradiction|].
      cbn [flat_map] in E. apply app_eq_nil in E as [E _]. contradiction. }
    rewrite <- E. unfold np_mean.
    rewrite py_sum_repeated, length_repeated, Nat2Z.inj_mul, inject_Z_mult.
    assert (Hd : 0 < inject_Z (Z.of_nat (length (signal_stats self)))).
    { apply inject_nat_pos. destruct (signal_stats self); [contradiction|].
      cbn. lia. }
    assert (Hl : 0 < inject_Z (Z.of_nat (length pairs))).
    { apply inject_nat_pos. destruct pairs; [contradiction|]. cbn. lia. }
    field. split; lra.
Qed.

(** ** Cycles that return *)

Section FlatCycle.

Variable env : Env.

Lemma in_cooldown_returns sym w :
  exists w' b, ExecutionEngine._in_cooldown sym env w = (w', Return b).
Proof.
  destruct (cooldowns (executor w) !! sym) as [until|] eqn:E.
  - rewrite (in_cooldown_until env sym w until E). eexists _, _. reflexivity.
  - rewrite (in_cooldown_never env sym w E). eexists _, _. reflexivity.
Qed.

Lemma check_risk_returns sym ev w :
  breaker_consistent w ->
  exists w' b, ExecutionEngine._check_risk sym ev env w = (w', Return b).
Proof.
  intros H. unfold ExecutionEngine._check_risk. unfold bind at 1.
  destruct (check_circuit_breaker_returns env w H) as (w1 & b & ->).
  destruct b; mstep; [eexists _, _; reflexivity|].
  destruct (Qlt_bool ev (-0.05)); mstep; eexists _, _; reflexivity.
Qed.

Lemma valid_prior_kept (snapshot : list (string * gmap string Q)) w :
  valid_prior (ev_engine w) ->
  valid_prior
    (ev_engine (fst (ExecutionEngine.execute_cycle snapshot env w))).
Proof.
  apply (execute_cycle_preserves (fun w => valid_prior (ev_engine w)));
    intros; assumption.
Qed.

Lemma valid_prior_kept_symbol sym state w :
  valid_prior (ev_engine w) ->
  valid_prior
    (ev_engine (fst (ExecutionEngine.execute_symbol sym state env w))).
Proof.
  apply (execute_symbol_preserves (fun w => valid_prior (ev_engine w)));
    intros; assumption.
Qed.

(** A flat symbol with a sound market state is evaluated without an
    exception. *)
Lemma execute_symbol_flat_returns sym state w :
  valid_prior (ev_engine w) -> breaker_consistent w ->
  valid_market_state state ->
  active_positions (executor w) !! sym = None ->
  exists w', ExecutionEngine.execute_symbol sym state env w = (w', Return tt).
Proof.
  intros Hprior Hcons Hstate Hflat.
  destruct (signals (signal_engine w) !! sym) as [sd|] eqn:Hs.
  2: { unfold ExecutionEngine.execute_symbol. unfold bind at 1.
       rewrite (calculate_ev_no_signal env w sym state Hs). mstep.
       eexists; reflexivity. }
  destruct (calculate_ev_total env w sym state sd Hs Hprior Hstate)
    as (r & Hcalc & _).
  pose proof (calculate_ev_untouched env sym state w) as (E1 & _).
  pose proof (calculate_ev_preserves breaker_consistent consistent_tick
                (fun e => consistent_ev _) sym state env w Hcons) as Hc1.
  rewrite Hcalc in E1, Hc1. cbn [fst] in E1, Hc1.
  unfold ExecutionEngine.execute_symbol. unfold bind at 1. rewrite Hcalc.
  mstep_result. unfold bind at 1.
  pose proof (check_risk_untouched env sym (EV r)
                (set_ev_engine (EVEngine.record (history_entry_of r)) (tick w)))
    as (E2 & _).
  destruct (check_risk_returns sym (EV r) _ Hc1) as (w2 & ok & Hrisk).
  rewrite Hrisk in E2 |- *. cbn [fst] in E2.
  destruct ok; mstep; [|eexists; reflexivity].
  unfold bind at 1.
  pose proof (in_cooldown_untouched env sym w2) as (E3 & _).
  destruct (in_cooldown_returns sym w2) as (w3 & cooling & Hcd).
  rewrite Hcd in E3 |- *. cbn [fst] in E3.
  destruct cooling; mstep; [eexists; reflexivity|].
  rewrite E3, E2, E1, Hflat. mstep.
  destruct (Qgt_bool (EV r) (base_threshold (config w3))); cbn [when];
    [|eexists; reflexivity].
  destruct (enter_position_opens env sym r (recommended_leverage r)
              (kelly_position r) w3) as (w4 & pos & -> & _).
  eexists; reflexivity.
Qed.

Lemma execute_symbol_keeps_flat sym state other w :
  other <> sym ->
  active_positions (executor w) !! other = None ->
  active_positions
    (executor (fst (ExecutionEngine.execute_symbol sym state env w))) !! other
  = None.
Proof.
  intros Hne Hflat.
  destruct (active_positions
              (executor (fst (ExecutionEngine.execute_symbol sym state env w)))
            !! other) as [pos|] eqn:E; [|reflexivity].
  exfalso. apply Hne.
  apply (execute_symbol_entry env sym state other w Hflat).
  rewrite E. eexists; reflexivity.
Qed.

Lemma execute_cycle_flat_returns snapshot : forall w,
  List.NoDup (map fst snapshot) ->
  Forall (fun item => valid_market_state (snd item)) snapshot ->
  ready_for snapshot w ->
  exists w', ExecutionEngine.execute_cycle snapshot env w = (w', Return tt).
Proof.
  induction snapshot as [|[sym state] rest IH];
    intros w Hnd Hstates (Hprior & Hcons & Hflat).
  - eexists; reflexivity.
  - cbn [ExecutionEngine.execute_cycle]. unfold bind at 1.
    apply Forall_cons in Hstates as [Hstate Hstates].
    apply Forall_cons in Hflat as [Hsym Hflat].
    cbn [fst snd map] in *.
    apply List.NoDup_cons_iff in Hnd as [Hk Hnd].
    pose proof (valid_prior_kept_symbol sym state w Hprior) as Hp1.
    pose proof (execute_symbol_consistent sym state env w Hcons) as Hc1.
    assert (Hf1 : Forall
      (fun item =>
         active_positions
           (executor (fst (ExecutionEngine.execute_symbol sym state env w)))
         !! fst item = None) rest).
    { rewrite List.Forall_forall in Hflat |- *. intros [other st] Hin.
      cbn [fst]. apply execute_symbol_keeps_flat.
      - intros ->. apply Hk. apply (in_map fst) in Hin. exact Hin.
      - apply (Hflat _ Hin). }
    destruct (execute_symbol_flat_returns sym state w Hprior Hcons Hstate Hsym)
      as (w1 & E).
    rewrite E in Hp1, Hc1, Hf1 |- *. cbn [fst] in Hp1, Hc1, Hf1.
    apply IH; [exact Hnd | exact Hstates |].
    split; [exact Hp1 | split; [exact Hc1 | exact Hf1]].
Qed.

End FlatCycle.

(** X28. A cycle over flat symbols returns.  When no symbol of the
    snapshot has a position, the market states have a depth that is not
    zero, the Beta prior is positive and an active breaker has its trigger
    time, [execute_cycle] evaluates every symbol and returns.  The prior
    and the trigger time are kept, and the only positions that are new
    afterwards are in symbols of the snapshot. *)
Theorem cycle_over_flat_symbols_returns (env : Env)
  (snapshot : list (string * gmap string Q)) (w : World) :
  List.NoDup (map fst snapshot) ->
  Forall (fun item => valid_market_state (snd item)) snapshot ->
  ready_for snapshot w ->
  exists w',
    ExecutionEngine.execute_cycle snapshot env w = (w', Return tt) /\
    valid_prior (ev_engine w') /\ breaker_consistent w' /\
    forall sym,
      is_Some (active_positions (executor w') !! sym) ->
      In sym (map fst snapshot) \/
      is_Some (active_positions (executor w) !! sym).
Proof.
  intros Hnd Hstates Hready.
  destruct (execute_cycle_flat_returns env snapshot w Hnd Hstates Hready)
    as (w' & E).
  destruct Hready as (Hprior & Hcons & _).
  exists w'. split; [exact E|].
  pose proof (valid_prior_kept env snapshot w Hprior) as Hp.
  pose proof (execute_cycle_consistent snapshot env w Hcons) as Hc.
  rewrite E in Hp, Hc. cbn [fst] in Hp, Hc.
  split; [exact Hp|]. split; [exact Hc|].
  intros sym Hpos.
  destruct (active_positions (executor w) !! sym) as [pos|] eqn:Hw;
    [right; eexists; reflexivity|].
  left.
  destruct (execute_cycle_entry env snapshot w sym Hw) as (state & _ & _ & _ & _ & _ & Hin & _).
  { rewrite E. exact Hpos. }
  apply (in_map fst) in Hin. exact Hin.
Qed.

Lemma cycle_over_flat_symbols_returns_witness :
  exists w',
    ExecutionEngine.execute_cycle
      [("BTCUSDT", example_state); ("ETHUSDT", example_state)]
      example_env example_world = (w', Return tt) /\
    valid_prior (ev_engine w').
Proof.
  assert (Hnd : List.NoDup
    (map fst [("BTCUSDT", example_state); ("ETHUSDT", example_state)])).
  { cbn. constructor; [intros [H|[]]; discriminate H|].
    constructor; [intros []|constructor]. }
  assert (Hstates : Forall (fun item => valid_market_state (snd item))
    [("BTCUSDT", example_state); ("ETHUSDT", example_state)]).
  { repeat constructor; exact example_state_valid. }
  assert (Hready : ready_for
    [("BTCUSDT", example_state); ("ETHUSDT", example_state)] example_world).
  { split; [exact example_prior_valid|].
    split; [intros H; discriminate H|]. repeat constructor. }
  destruct (cycle_over_flat_symbols_returns example_env _ example_world
              Hnd Hstates Hready) as (w' & E & Hp & _).
  exists w'. split; [exact E | exact Hp].
Defined.
